(** * Daily micro-expense tracker: the store and the aggregation logic of
    [script.js], embedded in Rocq.

    The script keeps one array of expense records in [localStorage], adds and
    deletes records, and derives totals, a category breakdown and a list of
    textual insights from the records of the day and of the month.

    The functions of the script are functions here, with what they read
    from the page, the clock and the storage as arguments and what they
    write as results.  The built-ins they call follow ECMAScript:
    numbers are IEEE 754 binary64 values, given by the standard library's
    executable specification of binary floating point ([SpecFloat]) at
    precision 53 and maximal exponent 1024; strings are byte strings
    holding UTF-8; objects enumerate their array-index keys first and
    inherit from [Object.prototype]; [Array.prototype.sort] is stable;
    dates are time values in milliseconds, with the calendar of the
    language definition, and what depends on the host (the time zone, the
    date formats accepted besides the standard one) is a parameter. *)

From Stdlib Require Import ZArith List String Ascii Bool Lia.
From Stdlib Require Import Permutation Sorted.
From Stdlib Require Import SpecFloat.
From Stdlib Require Import DecimalString DecimalPos DecimalZ.
Import ListNotations.

Local Open Scope Z_scope.

(** * Numbers *)

Definition prec : Z := 53.
Definition emax : Z := 1024.

Definition number : Type := spec_float.

Definition nan : number := S754_nan.
Definition infinity : number := S754_infinity false.
Definition zero : number := S754_zero false.

Definition add (x y : number) : number := SFadd prec emax x y.
Definition sub (x y : number) : number := SFsub prec emax x y.
Definition mul (x y : number) : number := SFmul prec emax x y.
Definition div (x y : number) : number := SFdiv prec emax x y.

(** The relational operators; every comparison with NaN is false. *)
Definition lt (x y : number) : bool := SFltb x y.
Definition gt (x y : number) : bool := SFltb y x.
Definition le (x y : number) : bool := SFleb x y.

Declare Scope js_scope.
Delimit Scope js_scope with js.
Infix "+" := add : js_scope.
Infix "-" := sub : js_scope.
Infix "*" := mul : js_scope.
Infix "/" := div : js_scope.
Infix "<" := lt : js_scope.
Infix ">" := gt : js_scope.
Infix "<=" := le : js_scope.

(** The number nearest to an integer (the integer itself up to 2^53). *)
Definition of_Z (n : Z) : number := binary_normalize prec emax n 0 false.

(** The number nearest to [m * 10^e], negated when [s] is set: the value of
    a decimal literal.  A non-negative exponent gives an integer, which is
    rounded once; a negative one is a quotient of two integers, rounded once
    by the division of [SpecFloat]. *)
Definition of_decimal (s : bool) (m : Z) (e : Z) : number :=
  match m with
  | Zpos p =>
      match e with
      | Zneg k =>
          let '(q, e', l) :=
            SFdiv_core_binary prec emax (Zpos p) 0 (Z.pow_pos 10 k) 0 in
          binary_round_aux prec emax s q e' l
      | _ => binary_round prec emax s (Z.to_pos (Zpos p * 10 ^ e)) 0
      end
  | _ => S754_zero s
  end.

(** [ToBoolean] on a number: [+0], [-0] and NaN are falsy. *)
Definition truthy (x : number) : bool :=
  match x with
  | S754_zero _ | S754_nan => false
  | _ => true
  end.

(** Decidable equality of representations (not the [===] of JavaScript,
    for which NaN differs from itself). *)
Definition number_eqb (x y : number) : bool :=
  match x, y with
  | S754_zero s, S754_zero s' => Bool.eqb s s'
  | S754_infinity s, S754_infinity s' => Bool.eqb s s'
  | S754_nan, S754_nan => true
  | S754_finite s m e, S754_finite s' m' e' =>
      Bool.eqb s s' && Pos.eqb m m' && Z.eqb e e'
  | _, _ => false
  end.

(** * Strings *)

Definition chars (s : string) : list ascii := list_ascii_of_string s.

(** The code points of [WhiteSpace] and [LineTerminator], as UTF-8:
    U+0009..U+000D and U+0020 on one byte, U+00A0 on two, and U+1680,
    U+2000..U+200A, U+2028, U+2029, U+202F, U+205F, U+3000, U+FEFF on
    three. *)
Definition ws1 (a : ascii) : bool :=
  let n := N_of_ascii a in
  ((9 <=? n) && (n <=? 13) || (n =? 32))%N.

Definition ws2 (a b : ascii) : bool :=
  ((N_of_ascii a =? 194) && (N_of_ascii b =? 160))%N.

Definition ws3 (a b c : ascii) : bool :=
  let x := N_of_ascii a in
  let y := N_of_ascii b in
  let z := N_of_ascii c in
  ((x =? 225) && (y =? 154) && (z =? 128)
   || (x =? 226) && (y =? 128)
      && ((128 <=? z) && (z <=? 138) || (z =? 168) || (z =? 169) || (z =? 175))
   || (x =? 226) && (y =? 129) && (z =? 159)
   || (x =? 227) && (y =? 128) && (z =? 128)
   || (x =? 239) && (y =? 187) && (z =? 191))%N.

(** Drops the white space a byte sequence starts with; [w2] and [w3]
    recognise the two- and three-byte code points in the order in which
    the bytes are met. *)
Fixpoint strip (w2 : ascii -> ascii -> bool)
    (w3 : ascii -> ascii -> ascii -> bool) (s : list ascii) : list ascii :=
  match s with
  | a :: s1 =>
      if ws1 a then strip w2 w3 s1
      else
        match s1 with
        | b :: s2 =>
            if w2 a b then strip w2 w3 s2
            else
              match s2 with
              | c :: s3 => if w3 a b c then strip w2 w3 s3 else s
              | [] => s
              end
        | [] => s
        end
  | [] => s
  end.

Definition trimStart (s : list ascii) : list ascii := strip ws2 ws3 s.

Definition trimEnd (s : list ascii) : list ascii :=
  rev (strip (fun a b => ws2 b a) (fun a b c => ws3 c b a) (rev s)).

(** [String.prototype.trim] *)
Definition trim (s : string) : string :=
  string_of_list_ascii (trimEnd (trimStart (chars s))).

(** ** parseFloat *)

Definition digit (c : ascii) : option Z :=
  let n := N_of_ascii c in
  if ((48 <=? n) && (n <=? 57))%N then Some (Z.of_N n - 48) else None.

(** Reads the longest run of decimal digits at the head of [s], continuing
    the value [acc]: the value, the number of digits read, and the rest. *)
Fixpoint digits (acc : Z) (cnt : Z) (s : list ascii) : Z * Z * list ascii :=
  match s with
  | c :: s' =>
      match digit c with
      | Some d => digits (10 * acc + d) (cnt + 1) s'
      | None => (acc, cnt, s)
      end
  | [] => (acc, cnt, s)
  end.

Fixpoint starts_with (p s : list ascii) : bool :=
  match p, s with
  | [], _ => true
  | a :: p', b :: s' => Ascii.eqb a b && starts_with p' s'
  | _ :: _, [] => false
  end.

(** The value of the [ExponentPart] at the head of [s]; 0 when there is
    none (an [e] that no digit follows is not part of the literal). *)
Definition exponent_part (s : list ascii) : Z :=
  match s with
  | c :: s' =>
      if Ascii.eqb c "e" || Ascii.eqb c "E" then
        let '(neg, s'') :=
          match s' with
          | d :: r =>
              if Ascii.eqb d "+" then (false, r)
              else if Ascii.eqb d "-" then (true, r)
              else (false, s')
          | [] => (false, s')
          end in
        let '(v, n, _) := digits 0 0 s'' in
        if n =? 0 then 0 else if neg then - v else v
      else 0
  | [] => 0
  end.

(** The longest prefix of [s] that is a [StrUnsignedDecimalLiteral] other
    than [Infinity], as a decimal mantissa and exponent. *)
Definition unsigned_decimal (s : list ascii) : option (Z * Z) :=
  let '(i, ni, r) := digits 0 0 s in
  match r with
  | c :: r' =>
      if Ascii.eqb c "." then
        let '(f, nf, r'') := digits i 0 r' in
        if (ni =? 0) && (nf =? 0) then None
        else Some (f, exponent_part r'' - nf)
      else if ni =? 0 then None else Some (i, exponent_part r)
  | [] => if ni =? 0 then None else Some (i, 0)
  end.

(** The built-in [parseFloat]: leading white space is skipped, the longest
    prefix that is a decimal literal is converted, and NaN is returned when
    there is no such prefix. *)
Definition parseFloat (s : string) : number :=
  let t := trimStart (chars s) in
  let '(neg, u) :=
    match t with
    | c :: r =>
        if Ascii.eqb c "-" then (true, r)
        else if Ascii.eqb c "+" then (false, r)
        else (false, t)
    | [] => (false, t)
    end in
  if starts_with (chars "Infinity") u then S754_infinity neg
  else
    match unsigned_decimal u with
    | Some (m, e) => of_decimal neg m e
    | None => nan
    end.

(** * Expense records *)

(** The [amount] of a record is the number [parseFloat] returned when the
    record was built, or [null] when the record was read back from a text
    in which that number had no representation. *)
Inductive value : Type :=
| VNum (x : number)
| VNull.

(** [ToNumber], as applied to the right operand of [sum + exp.amount]. *)
Definition ToNumber (v : value) : number :=
  match v with
  | VNum x => x
  | VNull => zero
  end.

(** [id] is the integral millisecond count [Date.now()] returned. *)
Record expense : Type := {
  id : Z;
  name : string;
  amount : value;
  category : string;
  date : string;
  timestamp : string
}.

(** * The stored text *)

(** The numbers [JSON.stringify] writes: finite, and with a single zero.
    (A text from elsewhere can spell more: [-0], a literal beyond the
    finite range, an amount that is no number.  The store below holds the
    texts the program wrote.) *)
Inductive json_number : Type :=
| JZero
| JFinite (s : bool) (m : positive) (e : Z).

(** One object of the stored array, with the fields [JSON.stringify]
    writes for an expense record; [None] is [null]. *)
Record json_expense : Type := {
  j_id : Z;
  j_name : string;
  j_amount : option json_number;
  j_category : string;
  j_date : string;
  j_timestamp : string
}.

(** The text under [STORAGE_KEY], as the array it spells out. *)
Definition json_text : Type := list json_expense.

(** [JSON.stringify] writes NaN and the infinities as [null], and both
    zeros as [0]. *)
Definition stringify_number (x : number) : option json_number :=
  match x with
  | S754_zero _ => Some JZero
  | S754_finite s m e => Some (JFinite s m e)
  | S754_infinity _ | S754_nan => None
  end.

Definition stringify_value (v : value) : option json_number :=
  match v with
  | VNum x => stringify_number x
  | VNull => None
  end.

Definition stringify_expense (exp : expense) : json_expense :=
  {| j_id := id exp;
     j_name := name exp;
     j_amount := stringify_value (amount exp);
     j_category := category exp;
     j_date := date exp;
     j_timestamp := timestamp exp |}.

Definition JSON_stringify (expenses : list expense) : json_text :=
  map stringify_expense expenses.

Definition parse_number (j : json_number) : number :=
  match j with
  | JZero => zero
  | JFinite s m e => S754_finite s m e
  end.

Definition parse_value (j : option json_number) : value :=
  match j with
  | Some n => VNum (parse_number n)
  | None => VNull
  end.

Definition parse_expense (j : json_expense) : expense :=
  {| id := j_id j;
     name := j_name j;
     amount := parse_value (j_amount j);
     category := j_category j;
     date := j_date j;
     timestamp := j_timestamp j |}.

Definition JSON_parse (data : json_text) : list expense :=
  map parse_expense data.

(** * The store *)

(** [localStorage] at [STORAGE_KEY]: [None] until the first write, then
    the text of the last [saveExpenses]. *)
Definition Storage : Type := option json_text.

Definition getExpenses (st : Storage) : list expense :=
  match st with
  | Some data => JSON_parse data
  | None => []
  end.

Definition saveExpenses (expenses : list expense) : Storage :=
  Some (JSON_stringify expenses).

(** What [addExpense] reads from the clock: [Date.now()],
    [getDateString(new Date())] and [new Date().toISOString()]. *)
Record clock : Type := {
  now : Z;
  today : string;
  iso : string
}.

Definition addExpense (st : Storage) (c : clock)
    (name amount category : string) : Storage * expense :=
  let expenses := getExpenses st in
  let expense :=
    {| id := now c;
       name := trim name;
       amount := VNum (parseFloat amount);
       category := category;
       date := today c;
       timestamp := iso c |} in
  let expenses := expenses ++ [expense] in
  (saveExpenses expenses, expense).

Definition deleteExpense (st : Storage) (i : Z) : Storage :=
  let expenses := getExpenses st in
  let filtered := filter (fun exp => negb (id exp =? i)) expenses in
  saveExpenses filtered.

Definition calculateTotal (expenses : list expense) : number :=
  fold_left (fun sum exp => (sum + ToNumber (amount exp))%js) expenses zero.

(** ** Form submission *)

Inductive outcome : Type :=
| Alert (message : string)
| Added (exp : expense).

(** [!s] on a string. *)
Definition empty (s : string) : bool :=
  match s with
  | EmptyString => true
  | _ => false
  end.

(** [name], [amount] and [category] are the values of the three form
    fields; the result is the store and what the user gets to see (resetting
    the form and redrawing change neither). *)
Definition handleFormSubmit (st : Storage) (c : clock)
    (name amount category : string) : Storage * outcome :=
  if empty name || empty amount || (parseFloat amount <= zero)%js then
    (st, Alert "Please enter valid expense details")
  else
    let '(st', exp) := addExpense st c name amount category in
    (st', Added exp).

(** * Objects used as dictionaries *)

(** The value of a property of the objects that hold the running totals: a
    number, or the text that [+] makes once one of its operands is not a
    number.  The text depends on the implementation (it starts with the
    source text of a built-in function, or with [[object Object]]); all
    that is used of it is that it is not empty and spells no number. *)
Inductive property : Type :=
| PNum (x : number)
| PText.

(** [ToNumber] on such a value. *)
Definition number_of (v : property) : number :=
  match v with
  | PNum x => x
  | PText => nan
  end.

(** The own properties of an object created by [{}] and filled by
    assignments [o[k] = v], in creation order. *)
Definition object : Type := list (string * property).

Fixpoint get (o : object) (k : string) : option property :=
  match o with
  | [] => None
  | (k', v) :: o' => if String.eqb k' k then Some v else get o' k
  end.

Fixpoint set (o : object) (k : string) (v : property) : object :=
  match o with
  | [] => [(k, v)]
  | (k', v') :: o' =>
      if String.eqb k' k then (k', v) :: o' else (k', v') :: set o' k v
  end.

(** The names that [Object.prototype] defines.  Reading one of them from
    an object that has no own property of the name gives the inherited
    member: a function, or the prototype itself for [__proto__]. *)
Definition prototype_names : list string :=
  ["constructor"; "hasOwnProperty"; "isPrototypeOf"; "propertyIsEnumerable";
   "toLocaleString"; "toString"; "valueOf"; "__proto__";
   "__defineGetter__"; "__defineSetter__"; "__lookupGetter__";
   "__lookupSetter__"]%string.

Definition inherited (k : string) : bool :=
  existsb (String.eqb k) prototype_names.

(** [(o[k] || 0) + amount]: a sum of numbers when [o[k]] is a number or
    undefined, a concatenation when it is a text or an inherited member. *)
Definition plus_amount (o : object) (k : string) (amount : value)
    : property :=
  match get o k with
  | Some (PNum x) =>
      PNum ((if truthy x then x else zero) + ToNumber amount)%js
  | Some PText => PText
  | None =>
      if inherited k then PText else PNum (zero + ToNumber amount)%js
  end.

(** [o[k] = v], for a value that is no object: the setter of [__proto__]
    ignores it, and every other key becomes or stays an own property. *)
Definition assign (o : object) (k : string) (v : property) : object :=
  if String.eqb k "__proto__" then o else set o k v.

(** A key is an array index when it is the canonical decimal spelling of
    an integer below 2^32 - 1. *)
Definition array_index (k : string) : option Z :=
  let s := chars k in
  let '(v, n, r) := digits 0 0 s in
  match r with
  | [] =>
      if (0 <? n) && ((n =? 1) || negb (starts_with (chars "0") s))
         && (v <=? 4294967294)
      then Some v
      else None
  | _ :: _ => None
  end.

Fixpoint insert_index (i : Z) (p : string * property)
    (l : list (Z * (string * property))) : list (Z * (string * property)) :=
  match l with
  | [] => [(i, p)]
  | (j, q) :: l' =>
      if i <? j then (i, p) :: l else (j, q) :: insert_index i p l'
  end.

Definition index_entries (o : object) : list (Z * (string * property)) :=
  fold_right
    (fun p acc =>
       match array_index (fst p) with
       | Some i => insert_index i p acc
       | None => acc
       end) [] o.

Definition named_entries (o : object) : list (string * property) :=
  filter
    (fun p => match array_index (fst p) with Some _ => false | None => true end)
    o.

(** [Object.entries]: the array-index keys in ascending numeric order,
    then the other keys in creation order. *)
Definition Object_entries (o : object) : list (string * property) :=
  map snd (index_entries o) ++ named_entries o.

(** [Array.prototype.sort] with a comparison function: the sort is stable,
    and [a] is placed after [b] only when [comparefn(a, b) > 0].  (With a
    comparison function that is not consistent the order is left to the
    implementation; this is the order of an insertion from the right.) *)
Section Sort.
Context {A : Type}.
Variable comparefn : A -> A -> number.

Fixpoint insert (a : A) (l : list A) : list A :=
  match l with
  | [] => [a]
  | b :: l' =>
      if (comparefn a b > zero)%js then b :: insert a l' else a :: l
  end.

Definition sort (l : list A) : list A := fold_right insert [] l.
End Sort.

(** * Aggregation *)

(** The loop
    [expenses.forEach(exp => { o[key] = (o[key] || 0) + exp.amount })]
    on a fresh object. *)
Definition totalsBy (key : expense -> string) (expenses : list expense)
    : object :=
  fold_left
    (fun o exp => assign o (key exp) (plus_amount o (key exp) (amount exp)))
    expenses [].

Definition categoryTotals (monthExpenses : list expense) : object :=
  totalsBy category monthExpenses.

Definition expensesByDate (monthExpenses : list expense) : object :=
  totalsBy date monthExpenses.

(** [Object.entries(categoryTotals).sort((a, b) => b[1] - a[1])], computed
    by [renderCategoryBreakdown] and by [renderInsights]. *)
Definition categories (monthExpenses : list expense)
    : list (string * property) :=
  sort (fun a b => (number_of (snd b) - number_of (snd a))%js)
       (Object_entries (categoryTotals monthExpenses)).

(** [currentDay > 0 ? total / currentDay : 0] *)
Definition avgDaily (total currentDay : number) : number :=
  if (currentDay > zero)%js then (total / currentDay)%js else zero.

(** The three figures [renderMonthlySummary] displays. *)
Record summary : Type := {
  monthTotal : number;
  monthAvgDaily : number;
  projected : number
}.

Definition renderMonthlySummary (monthExpenses : list expense)
    (currentDay daysInMonth : number) : summary :=
  let total := calculateTotal monthExpenses in
  let avg := avgDaily total currentDay in
  {| monthTotal := total;
     monthAvgDaily := avg;
     projected := (avg * daysInMonth)%js |}.

(** * Insights *)

(** What [renderInsights] leaves in the container: the paragraph of the
    early return, or one item per insight. *)
Inductive rendered : Type :=
| EmptyState (text : string)
| InsightItems (insights : list string).

Definition push {A : Type} (arr : list A) (x : A) : list A := arr ++ [x].

Definition no_data : string := "No insights yet. Start tracking expenses!".
Definition above_average : string :=
  "You spent more than your daily average today.".
Definition highest_category (c : string) : string :=
  c ++ " expenses are your highest spending category.".
Definition multiple_days : string :=
  "High spending detected on multiple days this month.".
Definition above_threshold : string := "Today's spending exceeds ₹500.".
Definition under_control : string :=
  "Your spending is under control. Keep tracking!".

(** [todayExpenses], [monthExpenses] and [currentDay] are what the function
    reads from [getTodayExpenses()], [getCurrentMonthExpenses()] and
    [new Date().getDate()]. *)
Definition renderInsights (todayExpenses monthExpenses : list expense)
    (currentDay : number) : rendered :=
  let insights : list string := [] in
  if (List.length monthExpenses =? 0)%nat then EmptyState no_data
  else
    let todayTotal := calculateTotal todayExpenses in
    let monthTotal := calculateTotal monthExpenses in
    let avgDaily := avgDaily monthTotal currentDay in
    let insights :=
      if (todayTotal > avgDaily)%js && (avgDaily > zero)%js
      then push insights above_average
      else insights in
    let categories := categories monthExpenses in
    let insights :=
      match categories with
      | (c, _) :: _ => push insights (highest_category c)
      | [] => insights
      end in
    let expensesByDate := expensesByDate monthExpenses in
    let highSpendingDays :=
      filter
        (fun '(_, total) =>
           (number_of total > avgDaily * of_decimal false 15 (-1))%js)
             (Object_entries expensesByDate) in
    let insights :=
      if (3 <=? List.length highSpendingDays)%nat
      then push insights multiple_days
      else insights in
    let insights :=
      if (todayTotal > of_Z 500)%js
      then push insights above_threshold
      else insights in
    let insights :=
      if (List.length insights =? 0)%nat
      then push insights under_control
      else insights in
    InsightItems insights.

(** The insights as a sequence of strings: the single text of the empty
    state, or the items. *)
Definition deriveInsights (todayExpenses monthExpenses : list expense)
    (currentDay : number) : list string :=
  match renderInsights todayExpenses monthExpenses currentDay with
  | EmptyState text => [text]
  | InsightItems insights => insights
  end.

(** * The rules of the insight engine, one by one

    The four conditional pushes of [renderInsights], each as a function of
    the inputs alone: the insight it contributes, if any. *)

Definition rule_above_average (todayExpenses monthExpenses : list expense)
    (currentDay : number) : list string :=
  let avg := avgDaily (calculateTotal monthExpenses) currentDay in
  if (calculateTotal todayExpenses > avg)%js && (avg > zero)%js
  then [above_average]
  else [].

Definition rule_highest_category (monthExpenses : list expense)
    : list string :=
  match categories monthExpenses with
  | (c, _) :: _ => [highest_category c]
  | [] => []
  end.

Definition rule_multiple_days (monthExpenses : list expense)
    (currentDay : number) : list string :=
  let avg := avgDaily (calculateTotal monthExpenses) currentDay in
  let days :=
    filter
      (fun '(_, total) => (number_of total > avg * of_decimal false 15 (-1))%js)
           (Object_entries (expensesByDate monthExpenses)) in
  if (3 <=? List.length days)%nat then [multiple_days] else [].

Definition rule_above_threshold (todayExpenses : list expense)
    : list string :=
  if (calculateTotal todayExpenses > of_Z 500)%js
  then [above_threshold]
  else [].

Definition rules_2_to_5 (todayExpenses monthExpenses : list expense)
    (currentDay : number) : list string :=
  rule_above_average todayExpenses monthExpenses currentDay
  ++ rule_highest_category monthExpenses
  ++ rule_multiple_days monthExpenses currentDay
  ++ rule_above_threshold todayExpenses.

(** * Records that survive the stored text *)

(** A record as it is read back after having been written. *)
Definition reloaded (exp : expense) : expense :=
  parse_expense (stringify_expense exp).

(** The amounts a JSON text spells as they are: [null], [0] and the finite
    numbers other than zero. *)
Definition json_safe (v : value) : bool :=
  match v with
  | VNull => true
  | VNum (S754_zero s) => negb s
  | VNum (S754_finite _ _ _) => true
  | VNum (S754_infinity _) | VNum S754_nan => false
  end.

(** * Values of numbers, for the statements about sums and order *)

(** The exponent the format gives to a number of [e] binary digits before
    the point; the least one is -1074. *)
Definition fexp64 (e : Z) : Z := fexp prec emax e.

(** The value of a number in units of 2^-1074; an infinity counts as
    2^2200, beyond every finite number. *)
Definition scaled (x : number) : Z :=
  match x with
  | S754_finite s m e => cond_Zopp s (Z.pos m * 2 ^ (e + 1074))
  | S754_infinity s => cond_Zopp s (2 ^ 2200)
  | _ => 0
  end.

(** The representations that are binary64 values. *)
Definition valid (x : number) : bool := valid_binary prec emax x.

Definition is_positive (x : number) : bool :=
  match x with
  | S754_finite false _ _ | S754_infinity false => true
  | _ => false
  end.

(** A positive binary64 value, [Infinity] included. *)
Definition pos_valid (x : number) : bool := is_positive x && valid x.

(** A result of sign [s] that is neither zero nor NaN. *)
Definition signed (s : bool) (x : number) : Prop :=
  (exists q e, x = S754_finite s q e) \/ x = S754_infinity s.

(** The comparison function [(a, b) => key(b) - key(a)]. *)
Definition by_key {A : Type} (key : A -> number) (a b : A) : number :=
  (key b - key a)%js.

Definition descending {A : Type} (key : A -> number) (a b : A) : Prop :=
  (key b <= key a)%js = true.

(** * The breakdown by category, as the specification words it *)

(** The labels of a sequence, each once, in the order in which they are
    first met. *)
Definition first_seen (l : list string) : list string :=
  fold_left
    (fun seen c => if existsb (String.eqb c) seen then seen else seen ++ [c])
    l [].

(** For each label in that order, the total of the amounts of the
    label. *)
Definition grouped (key : expense -> string) (l : list expense)
    : list (string * number) :=
  map (fun c =>
         (c, calculateTotal (filter (fun exp => String.eqb (key exp) c) l)))
      (first_seen (map key l)).

(** The amount is a positive number, as the data model asks. *)
Definition positive_amount (exp : expense) : bool :=
  match amount exp with
  | VNum x => pos_valid x
  | VNull => false
  end.

(** The same pairs as properties of an object. *)
Definition as_numbers (l : list (string * number)) : object :=
  map (fun p => (fst p, PNum (snd p))) l.

(** The label is not a name of [Object.prototype]. *)
Definition ordinary_label (k : string) : bool := negb (inherited k).

(** The label gets an own property when it is assigned to. *)
Definition stored_label (k : string) : bool :=
  negb (String.eqb k "__proto__").

(** The key is not an array index. *)
Definition plain_key (k : string) : bool :=
  match array_index k with
  | Some _ => false
  | None => true
  end.

(** * The rules of the insights, as the specification words them *)

(** The first of the elements of greatest [key]. *)
Definition first_greatest {A : Type} (key : A -> number) (l : list A)
    : option A :=
  fold_right
    (fun a best =>
       match best with
       | Some b => if (key a < key b)%js then Some b else Some a
       | None => Some a
       end)
    None l.

(** The category of greatest total; among equal totals the one that
    [Object.entries] lists first: the one first met, array-index labels
    going before the others. *)
Definition highest (monthExpenses : list expense) : option string :=
  match first_greatest (fun p => number_of (snd p))
          (Object_entries (as_numbers (grouped category monthExpenses))) with
  | Some (c, _) => Some c
  | None => None
  end.

(** The number of dates of the month whose expenses add up to more than
    one and a half times the average [avg]. *)
Definition high_spending_days (monthExpenses : list expense) (avg : number)
    : nat :=
  List.length
    (filter
       (fun d =>
          (calculateTotal
             (filter (fun exp => String.eqb (date exp) d) monthExpenses)
           > avg * of_decimal false 15 (-1))%js)
       (first_seen (map date monthExpenses))).

(** Rules 2 to 5 in their order, each with its condition. *)
Definition insights_of_rules (todayExpenses monthExpenses : list expense)
    (currentDay : number) : list string :=
  let avg := avgDaily (calculateTotal monthExpenses) currentDay in
  (if (calculateTotal todayExpenses > avg)%js && (avg > zero)%js
   then [above_average] else [])
  ++ match highest monthExpenses with
     | Some c => [highest_category c]
     | None => []
     end
  ++ (if (3 <=? high_spending_days monthExpenses avg)%nat
      then [multiple_days] else [])
  ++ (if (calculateTotal todayExpenses > of_Z 500)%js
      then [above_threshold] else []).

(** One sequence is the other with some elements left out, the rest in
    their order. *)
Inductive subsequence {A : Type} : list A -> list A -> Prop :=
| subsequence_nil : subsequence [] []
| subsequence_keep a l l' :
    subsequence l l' -> subsequence (a :: l) (a :: l')
| subsequence_drop a l l' :
    subsequence l l' -> subsequence l (a :: l').

(** * Whole amounts *)

(** The integer part of a non-negative number. *)
Definition integer_of (x : number) : Z :=
  match x with
  | S754_finite false m e => Z.shiftl (Z.pos m) e
  | _ => 0
  end.

(** The amount is a whole number, zero or more. *)
Definition whole_amount (exp : expense) : bool :=
  let x := ToNumber (amount exp) in
  number_eqb x (of_Z (integer_of x)).

Definition sum_whole (l : list expense) : Z :=
  fold_right (fun exp s => integer_of (ToNumber (amount exp)) + s) 0 l.

(** * Sample data *)

Definition the_clock : clock :=
  {| now := 1700000000000;
     today := "2023-11-14";
     iso := "2023-11-14T22:13:20.000Z" |}.

Definition sample (label amount day : string) : expense :=
  {| id := 1;
     name := "item";
     amount := VNum (parseFloat amount);
     category := label;
     date := day;
     timestamp := "" |}.

(** The record made of the amount [1e999]. *)
Definition gold : expense :=
  snd (addExpense None the_clock "gold" "1e999" "other").

(** * The category breakdown, as displayed *)

(** What [renderCategoryBreakdown] leaves in the container: the paragraph
    of the early return, or one item per category with its total and
    whether it carries the badge of the highest category.  When the month
    has expenses and [categories] is empty, [categories[0][0]] reads a
    property of [undefined] and the function throws a [TypeError]. *)
Inductive breakdown : Type :=
| NoExpenses (text : string)
| CategoryItems (items : list (string * property * bool))
| BreakdownTypeError.

Definition renderCategoryBreakdown (monthExpenses : list expense)
    : breakdown :=
  if (List.length monthExpenses =? 0)%nat
  then NoExpenses "No expenses recorded this month"
  else
    let categories := categories monthExpenses in
    match categories with
    | [] => BreakdownTypeError
    | (highestCategory, _) :: _ =>
        CategoryItems
          (map (fun '(category, total) =>
                  (category, total, String.eqb category highestCategory))
               categories)
    end.

(** * Amounts that the form leaves in the store *)

(** [null], or a finite number above zero. *)
Definition stored_amount (v : value) : bool :=
  match v with
  | VNull => true
  | VNum (S754_finite false _ _) => true
  | VNum _ => false
  end.

(** * Dates

    A [Date] object holds a time value: a whole number of milliseconds since
    the start of 1970 in UTC, or NaN ([None]: an invalid date).  The
    functions below are those of the language definition that the program
    reaches through [new Date], [toISOString], [getFullYear] and
    [getMonth]. *)

Definition msPerDay : Z := 86400000.

Definition Day (t : Z) : Z := t / msPerDay.

Definition DaysInYear (y : Z) : Z :=
  if negb (y mod 4 =? 0) then 365
  else if negb (y mod 100 =? 0) then 366
  else if negb (y mod 400 =? 0) then 365
  else 366.

Definition DayFromYear (y : Z) : Z :=
  365 * (y - 1970) + (y - 1969) / 4 - (y - 1901) / 100 + (y - 1601) / 400.

Definition TimeFromYear (y : Z) : Z := msPerDay * DayFromYear y.

(** The largest [y] with [TimeFromYear y <= t], found from an estimate that
    is off by one year at most. *)
Definition YearFromTime (t : Z) : Z :=
  let d := Day t in
  let y := 1970 + d * 400 / 146097 in
  if d <? DayFromYear y then y - 1
  else if DayFromYear (y + 1) <=? d then y + 1
  else y.

Definition InLeapYear (t : Z) : Z :=
  if DaysInYear (YearFromTime t) =? 365 then 0 else 1.

Definition DayWithinYear (t : Z) : Z := Day t - DayFromYear (YearFromTime t).

Definition MonthFromTime (t : Z) : Z :=
  let d := DayWithinYear t in
  let leap := InLeapYear t in
  if d <? 31 then 0
  else if d <? 59 + leap then 1
  else if d <? 90 + leap then 2
  else if d <? 120 + leap then 3
  else if d <? 151 + leap then 4
  else if d <? 181 + leap then 5
  else if d <? 212 + leap then 6
  else if d <? 243 + leap then 7
  else if d <? 273 + leap then 8
  else if d <? 304 + leap then 9
  else if d <? 334 + leap then 10
  else 11.

Definition DateFromTime (t : Z) : Z :=
  let d := DayWithinYear t in
  let leap := InLeapYear t in
  match MonthFromTime t with
  | 0 => d + 1
  | 1 => d - 30
  | 2 => d - 58 - leap
  | 3 => d - 89 - leap
  | 4 => d - 119 - leap
  | 5 => d - 150 - leap
  | 6 => d - 180 - leap
  | 7 => d - 211 - leap
  | 8 => d - 242 - leap
  | 9 => d - 272 - leap
  | 10 => d - 303 - leap
  | _ => d - 333 - leap
  end.

Definition HourFromTime (t : Z) : Z := (t / 3600000) mod 24.
Definition MinFromTime (t : Z) : Z := (t / 60000) mod 60.
Definition SecFromTime (t : Z) : Z := (t / 1000) mod 60.
Definition msFromTime (t : Z) : Z := t mod 1000.

(** The day within its year on which month [mn] (from 0) starts. *)
Definition month_start (mn leap : Z) : Z :=
  match mn with
  | 0 => 0
  | 1 => 31
  | 2 => 59 + leap
  | 3 => 90 + leap
  | 4 => 120 + leap
  | 5 => 151 + leap
  | 6 => 181 + leap
  | 7 => 212 + leap
  | 8 => 243 + leap
  | 9 => 273 + leap
  | 10 => 304 + leap
  | _ => 334 + leap
  end.

(** [MakeDay]: the day number of the first of month [month] of [year],
    plus [date - 1]. *)
Definition MakeDay (year month date : Z) : Z :=
  let ym := year + month / 12 in
  let mn := month mod 12 in
  let leap := if DaysInYear ym =? 365 then 0 else 1 in
  DayFromYear ym + month_start mn leap + date - 1.

Definition MakeDate (day time : Z) : Z := day * msPerDay + time.

Definition TimeClip (t : Z) : option Z :=
  if Z.abs t >? 8640000000000000 then None else Some t.

(** ** Numbers as decimal text *)

Definition digit_char (d : Z) : ascii := ascii_of_N (48 + Z.to_N d).

(** The last [k] decimal digits of [n]: [n] on [k] digits with leading
    zeros, when it has no more than [k]. *)
Fixpoint padded (k : nat) (n : Z) : list ascii :=
  match k with
  | O => []
  | S k' => padded k' (n / 10) ++ [digit_char (n mod 10)]
  end.

(** [ToString] on a number that is an integer: its decimal digits, after
    a [-] when it is negative. *)
Definition integer_text (n : Z) : string :=
  NilZero.string_of_int (Z.to_int n).

(** [String.prototype.padStart] with a filler of one character. *)
Definition padStart (s : string) (maxLength : nat) (fill : ascii)
    : string :=
  (string_of_list_ascii (repeat fill (maxLength - String.length s)) ++ s)%string.

(** ** [Date.prototype.toISOString] *)

Definition iso_year (y : Z) : list ascii :=
  if (0 <=? y) && (y <=? 9999) then padded 4 y
  else (if y <? 0 then "-"%char else "+"%char) :: padded 6 (Z.abs y).

Definition iso_text (t : Z) : list ascii :=
  iso_year (YearFromTime t)
  ++ "-"%char :: padded 2 (MonthFromTime t + 1)
  ++ "-"%char :: padded 2 (DateFromTime t)
  ++ "T"%char :: padded 2 (HourFromTime t)
  ++ ":"%char :: padded 2 (MinFromTime t)
  ++ ":"%char :: padded 2 (SecFromTime t)
  ++ "."%char :: padded 3 (msFromTime t)
  ++ ["Z"%char].

(** [None]: the [RangeError] thrown for an invalid date. *)
Definition toISOString (date : option Z) : option string :=
  match date with
  | Some t => Some (string_of_list_ascii (iso_text t))
  | None => None
  end.

(** [s.split(c)[0]]: what comes before the first [c]. *)
Fixpoint split_first (c : ascii) (s : list ascii) : list ascii :=
  match s with
  | [] => []
  | a :: s' => if Ascii.eqb a c then [] else a :: split_first c s'
  end.

Definition getDateString (date : option Z) : option string :=
  match toISOString date with
  | Some s => Some (string_of_list_ascii (split_first "T" (chars s)))
  | None => None
  end.

Definition isSameDay (date1 date2 : option Z) : option bool :=
  match getDateString date1 with
  | Some s1 =>
      match getDateString date2 with
      | Some s2 => Some (String.eqb s1 s2)
      | None => None
      end
  | None => None
  end.

(** ** [new Date(string)] *)

(** Exactly [k] decimal digits at the head of [s], continuing the value
    [acc]. *)
Fixpoint fixed_digits (k : nat) (acc : Z) (s : list ascii)
    : option (Z * list ascii) :=
  match k with
  | O => Some (acc, s)
  | S k' =>
      match s with
      | c :: s' =>
          match digit c with
          | Some d => fixed_digits k' (10 * acc + d) s'
          | None => None
          end
      | [] => None
      end
  end.

(** The year of the date-time format: four digits, or a sign and six
    digits, [-000000] excepted. *)
Definition iso_year_part (s : list ascii) : option (Z * list ascii) :=
  match s with
  | c :: s' =>
      if Ascii.eqb c "+" then fixed_digits 6 0 s'
      else if Ascii.eqb c "-" then
        match fixed_digits 6 0 s' with
        | Some (y, r) => if y =? 0 then None else Some (- y, r)
        | None => None
        end
      else fixed_digits 4 0 s
  | [] => None
  end.

(** A [-] and two digits. *)
Definition iso_field (s : list ascii) : option (Z * list ascii) :=
  match s with
  | c :: s' => if Ascii.eqb c "-" then fixed_digits 2 0 s' else None
  | [] => None
  end.

(** The date-only forms of the date-time format, [YYYY], [YYYY-MM] and
    [YYYY-MM-DD]: the year, the month (from 1) and the day of the month. *)
Definition iso_date (s : list ascii) : option (Z * Z * Z) :=
  match iso_year_part s with
  | Some (y, []) => Some (y, 1, 1)
  | Some (y, r) =>
      match iso_field r with
      | Some (m, []) => Some (y, m, 1)
      | Some (m, r') =>
          match iso_field r' with
          | Some (d, []) => Some (y, m, d)
          | _ => None
          end
      | None => None
      end
  | None => None
  end.

(** The number of days of month [m] (from 1) of year [y]. *)
Definition days_in_month (y m : Z) : Z :=
  match m with
  | 2 => if DaysInYear y =? 365 then 28 else 29
  | 4 | 6 | 9 | 11 => 30
  | _ => 31
  end.

(** What the program takes from its host: the offset of local time from
    UTC at a time value, the offset at a local time, and the time value
    [Date.parse] gives for the strings that are no date-only form of the
    date-time format with a day that exists (the forms with a time of day,
    and whatever else the implementation accepts or refuses). *)
Record host : Type := {
  LocalTZA : Z -> Z;
  LocalTZA_local : Z -> Z;
  parse_other : string -> option Z
}.

(** [Date.parse]: a date-only form is the start of that day in UTC. *)
Definition Date_parse (h : host) (s : string) : option Z :=
  match iso_date (chars s) with
  | Some (y, m, d) =>
      if (1 <=? m) && (m <=? 12) && (1 <=? d) && (d <=? days_in_month y m)
      then Some (MakeDate (MakeDay y (m - 1) d) 0)
      else parse_other h s
  | None => parse_other h s
  end.

(** [new Date(s)] for a string [s]. *)
Definition new_Date (h : host) (s : string) : option Z :=
  match Date_parse h s with
  | Some tv => TimeClip tv
  | None => None
  end.

(** ** Local time *)

Definition LocalTime (h : host) (t : Z) : Z := t + LocalTZA h t.

(** [None]: NaN, for an invalid date. *)
Definition getFullYear (h : host) (date : option Z) : option Z :=
  match date with
  | Some t => Some (YearFromTime (LocalTime h t))
  | None => None
  end.

Definition getMonth (h : host) (date : option Z) : option Z :=
  match date with
  | Some t => Some (MonthFromTime (LocalTime h t))
  | None => None
  end.

(** [ToString] on an integer or NaN. *)
Definition number_text (n : option Z) : string :=
  match n with
  | Some n => integer_text n
  | None => "NaN"
  end.

Definition getMonthString (h : host) (date : option Z) : string :=
  let year := getFullYear h date in
  let month :=
    padStart
      (number_text
         (match getMonth h date with Some m => Some (m + 1) | None => None end))
      2 "0" in
  (number_text year ++ "-" ++ month)%string.

(** [now] is the time value of [new Date()], which is never invalid. *)
Definition isCurrentMonth (h : host) (now : Z) (dateStr : string) : bool :=
  let date := new_Date h dateStr in
  let today := Some now in
  String.eqb (getMonthString h date) (getMonthString h today).

(** [Array.prototype.filter] with a callback that may throw: the first
    exception ends the loop. *)
Fixpoint filter_throwing {A : Type} (f : A -> option bool) (l : list A)
    : option (list A) :=
  match l with
  | [] => Some []
  | a :: l' =>
      match f a with
      | Some b =>
          match filter_throwing f l' with
          | Some r => Some (if b then a :: r else r)
          | None => None
          end
      | None => None
      end
  end.

(** [None]: the [RangeError] of [toISOString] on a record whose date is no
    valid date. *)
Definition getTodayExpenses (h : host) (st : Storage) (now : Z)
    : option (list expense) :=
  let expenses := getExpenses st in
  let today := Some now in
  filter_throwing
    (fun exp =>
       let expDate := new_Date h (date exp) in
       isSameDay expDate today)
    expenses.

Definition getCurrentMonthExpenses (h : host) (st : Storage) (now : Z)
    : list expense :=
  let expenses := getExpenses st in
  filter (fun exp => isCurrentMonth h now (date exp)) expenses.

(** A host in the time zone UTC that parses the date-time format only. *)
Definition utc : host :=
  {| LocalTZA := fun _ => 0;
     LocalTZA_local := fun _ => 0;
     parse_other := fun _ => None |}.

(** A host five hours behind UTC. *)
Definition utc_minus_5 : host :=
  {| LocalTZA := fun _ => - 18000000;
     LocalTZA_local := fun _ => - 18000000;
     parse_other := fun _ => None |}.

Definition UTC (h : host) (t : Z) : Z := t - LocalTZA_local h t.

(** [new Date(year, month, date)] on whole numbers: the start of the day
    in local time; a year from 0 to 99 stands for a year of the twentieth
    century. *)
Definition Date_of_components (h : host) (year month date : Z) : option Z :=
  let yr := if (0 <=? year) && (year <=? 99) then 1900 + year else year in
  let finalDate := MakeDate (MakeDay yr month date) 0 in
  TimeClip (UTC h finalDate).

(** [Date.prototype.getDate]: the day of the month in local time, NaN for
    an invalid date. *)
Definition getDate (h : host) (date : option Z) : number :=
  match date with
  | Some t => of_Z (DateFromTime (LocalTime h t))
  | None => nan
  end.

(** [new Date(today.getFullYear(), today.getMonth() + 1, 0).getDate()] *)
Definition daysInMonth (h : host) (now : Z) : number :=
  let today := LocalTime h now in
  getDate h
    (Date_of_components h (YearFromTime today) (MonthFromTime today + 1) 0).

(** * Amounts as text *)

(** [parseFloat] applied to a number: the number is written by [ToString]
    and read again, which gives the number back, and 0 for -0. *)
Definition parseFloat_number (x : number) : number :=
  match x with
  | S754_zero _ => zero
  | _ => x
  end.

(** The number [parseFloat] makes of the amount of a record: [null] is
    read as the text [null], which spells no number. *)
Definition parseFloat_value (v : value) : number :=
  match v with
  | VNum x => parseFloat_number x
  | VNull => nan
  end.

(** A text the program displays: a string, or the text that [ToString]
    gives for a finite number of magnitude 10^21 or more, whose last digits
    the language leaves to the implementation, between two strings. *)
Inductive shown : Type :=
| Shown (text : string)
| ShownNumber (before : string) (x : number) (after : string).

(** Concatenation with a string, as in a template literal. *)
Definition prepend (p : string) (t : shown) : shown :=
  match t with
  | Shown s => Shown (p ++ s)
  | ShownNumber b x a => ShownNumber (p ++ b) x a
  end.

Definition append_text (t : shown) (p : string) : shown :=
  match t with
  | Shown s => Shown (s ++ p)
  | ShownNumber b x a => ShownNumber b x (a ++ p)
  end.

(** [m * 2^e >= 10^21] *)
Definition at_least_1e21 (m : positive) (e : Z) : bool :=
  if 0 <=? e then 10 ^ 21 <=? Z.pos m * 2 ^ e
  else 10 ^ 21 * 2 ^ (- e) <=? Z.pos m.

(** The integer [n] for which [n / 100] is nearest to [m * 2^e], the
    larger one of two. *)
Definition nearest_hundredths (m : positive) (e : Z) : Z :=
  if 0 <=? e then 100 * Z.pos m * 2 ^ e
  else (200 * Z.pos m + 2 ^ (- e)) / 2 ^ (1 - e).

(** The digits of [n] with a point before the last two, after as many
    zeros as it takes to have a digit before the point. *)
Definition point_two (n : Z) : string :=
  let m := if n =? 0 then "0"%string else integer_text n in
  let k := String.length m in
  let m :=
    if (k <=? 2)%nat
    then (string_of_list_ascii (repeat "0"%char (2 + 1 - k)) ++ m)%string
    else m in
  let k := if (k <=? 2)%nat then (2 + 1)%nat else k in
  let a := substring 0 (k - 2) m in
  let b := substring (k - 2) 2 m in
  (a ++ "." ++ b)%string.

(** [Number.prototype.toFixed] with two fraction digits. *)
Definition toFixed2 (x : number) : shown :=
  match x with
  | S754_nan => Shown "NaN"
  | S754_infinity s => Shown (if s then "-Infinity" else "Infinity")
  | S754_zero _ => Shown (point_two 0)
  | S754_finite s m e =>
      if at_least_1e21 m e then ShownNumber "" x ""
      else
        Shown ((if s then "-" else "") ++ point_two (nearest_hundredths m e))
  end.

(** [formatCurrency] of a number. *)
Definition formatCurrency (amount : number) : shown :=
  prepend "₹" (toFixed2 (parseFloat_number amount)).

(** [formatCurrency] of the amount of a record. *)
Definition formatCurrency_value (amount : value) : shown :=
  prepend "₹" (toFixed2 (parseFloat_value amount)).

(** What [renderTodayLedger] displays: the total, and the row of the empty
    state or one row per expense with the name, the category, the amount
    and the id that the button deletes. *)
Inductive ledger : Type :=
| EmptyLedger (row : string) (total : shown)
| LedgerRows (total : shown) (rows : list (string * string * shown * Z)).

(** [todayExpenses] is what the function reads from
    [getTodayExpenses()]. *)
Definition renderTodayLedger (todayExpenses : list expense) : ledger :=
  if (List.length todayExpenses =? 0)%nat
  then EmptyLedger "No expenses recorded today" (formatCurrency (of_Z 0))
  else
    let total := calculateTotal todayExpenses in
    LedgerRows (formatCurrency total)
      (map (fun exp =>
              (name exp, category exp, formatCurrency_value (amount exp),
               id exp))
           todayExpenses).

(** The texts [renderMonthlySummary] displays for the three figures, and
    the sentence of the projection. *)
Record summary_text : Type := {
  monthTotal_text : shown;
  avgDaily_text : shown;
  projected_text : shown;
  projectionText : shown
}.

Definition renderMonthlySummary_text (monthExpenses : list expense)
    (currentDay daysInMonth : number) : summary_text :=
  let s := renderMonthlySummary monthExpenses currentDay daysInMonth in
  let total := monthTotal s in
  {| monthTotal_text := formatCurrency total;
     avgDaily_text := formatCurrency (monthAvgDaily s);
     projected_text := formatCurrency (projected s);
     projectionText :=
       if (total > zero)%js
       then append_text
              (prepend "At this rate, your estimated monthly spend is "
                 (formatCurrency (projected s)))
              "."
       else Shown "" |}.

(** * The page *)

Inductive exception : Type :=
| RangeError
| TypeError.

(** The four renderers as the script calls them, reading the store and
    the clock themselves.  The clock is read several times in the course
    of one call; the readings are taken to be one instant [now]. *)
Definition renderTodayLedger_at (h : host) (st : Storage) (now : Z)
    : option ledger :=
  match getTodayExpenses h st now with
  | Some todayExpenses => Some (renderTodayLedger todayExpenses)
  | None => None
  end.

Definition renderMonthlySummary_at (h : host) (st : Storage) (now : Z)
    : summary_text :=
  let monthExpenses := getCurrentMonthExpenses h st now in
  let currentDay := getDate h (Some now) in
  renderMonthlySummary_text monthExpenses currentDay (daysInMonth h now).

Definition renderCategoryBreakdown_at (h : host) (st : Storage) (now : Z)
    : breakdown :=
  renderCategoryBreakdown (getCurrentMonthExpenses h st now).

Definition renderInsights_at (h : host) (st : Storage) (now : Z)
    : option rendered :=
  match getTodayExpenses h st now with
  | Some todayExpenses =>
      let monthExpenses := getCurrentMonthExpenses h st now in
      Some (renderInsights todayExpenses monthExpenses (getDate h (Some now)))
  | None => None
  end.

(** What a call of [refreshUI] has drawn in each of the four places of the
    page; [None] for a place that it has not reached, which keeps what it
    showed before. *)
Record page : Type := {
  ledgerBody : option ledger;
  monthSummary : option summary_text;
  categoryBreakdown : option breakdown;
  insightsContainer : option rendered
}.

(** The renderers are called in turn; an exception ends the call. *)
Definition refreshUI (h : host) (st : Storage) (now : Z)
    : page * option exception :=
  match renderTodayLedger_at h st now with
  | None =>
      ({| ledgerBody := None; monthSummary := None;
          categoryBreakdown := None; insightsContainer := None |},
       Some RangeError)
  | Some l =>
      let s := renderMonthlySummary_at h st now in
      match renderCategoryBreakdown_at h st now with
      | BreakdownTypeError =>
          ({| ledgerBody := Some l; monthSummary := Some s;
              categoryBreakdown := None; insightsContainer := None |},
           Some TypeError)
      | b =>
          match renderInsights_at h st now with
          | None =>
              ({| ledgerBody := Some l; monthSummary := Some s;
                  categoryBreakdown := Some b; insightsContainer := None |},
               Some RangeError)
          | Some r =>
              ({| ledgerBody := Some l; monthSummary := Some s;
                  categoryBreakdown := Some b; insightsContainer := Some r |},
               None)
          end
      end
  end.

(** * Properties *)

(** ** Lists, objects and sorting *)

Lemma length_append (s t : string) :
  String.length (s ++ t) = (String.length s + String.length t)%nat.
Proof.
  induction s as [|a s IH]; simpl; [reflexivity | now rewrite IH].
Qed.

Lemma set_not_nil (o : object) (k : string) (v : property) : set o k v <> [].
Proof.
  destruct o as [|[k' v'] o]; simpl; [discriminate|].
  destruct (String.eqb k' k); discriminate.
Qed.

Lemma totalsBy_fold_not_nil (key : expense -> string) (l : list expense)
    (o : object) :
  o <> [] \/ existsb (fun exp => stored_label (key exp)) l = true ->
  fold_left
    (fun o exp => assign o (key exp) (plus_amount o (key exp) (amount exp)))
    l o <> [].
Proof.
  revert o. induction l as [|e l IH]; intros o H; cbn [fold_left].
  - destruct H as [H|H]; [exact H | discriminate H].
  - apply IH. unfold assign, stored_label in *. cbn [existsb] in H.
    destruct (String.eqb (key e) "__proto__"); cbn [negb orb] in H.
    + exact H.
    + left. apply set_not_nil.
Qed.

(** The object of totals is not empty as soon as one label is not
    [__proto__]. *)
Lemma totalsBy_not_nil (key : expense -> string) (l : list expense) :
  existsb (fun exp => stored_label (key exp)) l = true ->
  totalsBy key l <> [].
Proof.
  intros H. apply totalsBy_fold_not_nil. now right.
Qed.

Lemma insert_index_length i p l :
  List.length (insert_index i p l) = S (List.length l).
Proof.
  induction l as [|[j q] l IH]; simpl; [reflexivity|].
  destruct (i <? j); simpl; [reflexivity | now rewrite IH].
Qed.

Lemma Object_entries_length (o : object) :
  List.length (Object_entries o) = List.length o.
Proof.
  unfold Object_entries. rewrite length_app, length_map.
  induction o as [|p o IH]; simpl; [reflexivity|].
  destruct (array_index (fst p)); simpl.
  - rewrite insert_index_length. simpl. now rewrite IH.
  - rewrite Nat.add_succ_r. now rewrite IH.
Qed.

Lemma insert_length {A : Type} (f : A -> A -> number) (a : A) (l : list A) :
  List.length (insert f a l) = S (List.length l).
Proof.
  induction l as [|b l IH]; simpl; [reflexivity|].
  destruct (f a b > zero)%js; simpl; [now rewrite IH | reflexivity].
Qed.

Lemma sort_length {A : Type} (f : A -> A -> number) (l : list A) :
  List.length (sort f l) = List.length l.
Proof.
  induction l as [|a l IH]; simpl; [reflexivity|].
  rewrite insert_length. now rewrite IH.
Qed.

Lemma categories_not_nil (monthExpenses : list expense) :
  existsb (fun exp => stored_label (category exp)) monthExpenses = true ->
  categories monthExpenses <> [].
Proof.
  intros H E. apply (f_equal (@List.length _)) in E.
  unfold categories in E. rewrite sort_length, Object_entries_length in E.
  apply (totalsBy_not_nil category) in H.
  unfold categoryTotals in E.
  destruct (totalsBy category monthExpenses); [congruence | discriminate].
Qed.

(** ** The insight rules *)

Lemma highest_category_not_under_control (c : string) :
  highest_category c <> under_control.
Proof.
  unfold highest_category, under_control. intros E.
  assert (L := f_equal String.length E).
  rewrite length_append in L. simpl in L.
  destruct c as [|a1 [|a2 [|a3 [|a4 c]]]]; simpl in L; try lia.
  simpl in E. discriminate E.
Qed.

Lemma under_control_not_in_rules today month day :
  ~ In under_control (rules_2_to_5 today month day).
Proof.
  unfold rules_2_to_5, rule_above_average, rule_highest_category,
    rule_multiple_days, rule_above_threshold.
  rewrite !in_app_iff.
  intros [H | [H | [H | H]]].
  - destruct (_ && _); simpl in H; [|tauto].
    destruct H as [H|[]]. discriminate H.
  - destruct (categories month) as [|[c t] l]; simpl in H; [tauto|].
    destruct H as [H|[]]. now apply highest_category_not_under_control in H.
  - destruct (3 <=? _)%nat; simpl in H; [|tauto].
    destruct H as [H|[]]. discriminate H.
  - destruct (_ > _)%js; simpl in H; [|tauto].
    destruct H as [H|[]]. discriminate H.
Qed.

Lemma renderInsights_nonempty_month today month day :
  month <> [] ->
  renderInsights today month day =
  InsightItems
    match rules_2_to_5 today month day with
    | [] => [under_control]
    | r => r
    end.
Proof.
  intros Hm. unfold renderInsights.
  destruct month as [|e month]; [congruence|].
  change (List.length (e :: month) =? 0)%nat with false. cbv iota.
  unfold rules_2_to_5, rule_above_average, rule_highest_category,
    rule_multiple_days, rule_above_threshold.
  set (avg := avgDaily (calculateTotal (e :: month)) day).
  destruct ((calculateTotal today > avg)%js && (avg > zero)%js);
    destruct (categories (e :: month)) as [|[c t] cs];
    destruct (3 <=? List.length _)%nat;
    destruct (calculateTotal today > of_Z 500)%js;
    reflexivity.
Qed.

(** C4. With no expense in the month the result is the single "no data
    yet" insight, whatever the expenses of the day and the day of the
    month: no other rule takes part. *)
Theorem no_data_is_the_only_insight today day :
  renderInsights today [] day = EmptyState no_data
  /\ deriveInsights today [] day = [no_data]
  /\ List.length (deriveInsights today [] day) = 1%nat.
Proof.
  repeat split.
Qed.

(** The highest-category rule gives its insight for every month with an
    expense whose category is not [__proto__]; the "under control" insight
    is then not among the insights.  An empty month gets the "no data yet"
    insight. *)
Lemma highest_category_rule_fires today month day :
  (month = [] -> deriveInsights today month day = [no_data])
  /\ (existsb (fun exp => stored_label (category exp)) month = true ->
      rule_highest_category month <> []
      /\ rules_2_to_5 today month day <> []
      /\ ~ In under_control (deriveInsights today month day)).
Proof.
  split; [intros ->; reflexivity|]. intros H.
  assert (R : rule_highest_category month <> []).
  { unfold rule_highest_category.
    pose proof (categories_not_nil month H) as C.
    destruct (categories month) as [|[c t] l]; [congruence | discriminate]. }
  assert (R' : rules_2_to_5 today month day <> []).
  { intros E. unfold rules_2_to_5 in E.
    apply app_eq_nil in E. destruct E as [_ E].
    apply app_eq_nil in E. destruct E as [E _].
    now apply R. }
  split; [exact R|]. split; [exact R'|].
  assert (Hm : month <> []) by (intros ->; discriminate H).
  unfold deriveInsights.
  rewrite (renderInsights_nonempty_month today month day Hm).
  pose proof (under_control_not_in_rules today month day) as N.
  destruct (rules_2_to_5 today month day); [congruence | exact N].
Qed.


(** ** The store *)

Lemma stringify_parse_expense (j : json_expense) :
  stringify_expense (parse_expense j) = j.
Proof.
  destruct j as [i n a c d t]. unfold stringify_expense, parse_expense. simpl.
  f_equal. destruct a as [[|s m e]|]; reflexivity.
Qed.

Lemma JSON_stringify_parse (data : json_text) :
  JSON_stringify (JSON_parse data) = data.
Proof.
  unfold JSON_stringify, JSON_parse. rewrite map_map.
  rewrite <- (map_id data) at 2. apply map_ext. apply stringify_parse_expense.
Qed.

Lemma getExpenses_saveExpenses (l : list expense) :
  getExpenses (saveExpenses l) = map reloaded l.
Proof.
  unfold getExpenses, saveExpenses, JSON_parse, JSON_stringify.
  now rewrite map_map.
Qed.

Lemma saveExpenses_getExpenses (st : Storage) :
  getExpenses (saveExpenses (getExpenses st)) = getExpenses st.
Proof.
  destruct st as [data|]; [|reflexivity].
  unfold saveExpenses, getExpenses. now rewrite JSON_stringify_parse.
Qed.

Lemma reloaded_id (exp : expense) : id (reloaded exp) = id exp.
Proof. reflexivity. Qed.

Lemma reloaded_safe (exp : expense) :
  reloaded exp = exp <-> json_safe (amount exp) = true.
Proof.
  destruct exp as [i n a c d t]. unfold reloaded, parse_expense,
    stringify_expense. simpl. split.
  - intros E. injection E as E.
    destruct a as [[[|]|s| |s m e]|]; simpl in *; unfold zero in *;
      congruence.
  - intros S. f_equal.
    destruct a as [[[|]|s| |s m e]|]; simpl in *; unfold zero in *;
      congruence.
Qed.

Lemma getExpenses_addExpense st c n a cat :
  getExpenses (fst (addExpense st c n a cat)) =
  getExpenses st ++ [reloaded (snd (addExpense st c n a cat))].
Proof.
  unfold addExpense. cbv zeta. cbn [fst snd].
  rewrite getExpenses_saveExpenses, map_app. cbn [map].
  f_equal. rewrite <- getExpenses_saveExpenses.
  apply saveExpenses_getExpenses.
Qed.

Lemma filter_reloaded (i : Z) (l : list expense) :
  filter (fun exp => negb (id exp =? i)) (map reloaded l) =
  map reloaded (filter (fun exp => negb (id exp =? i)) l).
Proof.
  induction l as [|e l IH]; simpl; [reflexivity|].
  destruct (negb (id e =? i)); simpl; now rewrite IH.
Qed.

Lemma getExpenses_deleteExpense (st : Storage) (i : Z) :
  getExpenses (deleteExpense st i) =
  filter (fun exp => negb (id exp =? i)) (getExpenses st).
Proof.
  unfold deleteExpense. cbv zeta.
  rewrite getExpenses_saveExpenses, <- filter_reloaded.
  now rewrite <- getExpenses_saveExpenses, saveExpenses_getExpenses.
Qed.

Lemma filter_all {A : Type} (p : A -> bool) (l : list A) :
  forallb p l = true -> filter p l = l.
Proof.
  induction l as [|a l IH]; simpl; [reflexivity|].
  intros H. apply andb_prop in H. destruct H as [Ha Hl].
  rewrite Ha. now rewrite IH.
Qed.

Lemma filter_twice {A : Type} (p : A -> bool) (l : list A) :
  filter p (filter p l) = filter p l.
Proof.
  apply filter_all. apply forallb_forall. intros x H.
  now apply filter_In in H.
Qed.

(** C8. Deleting by id leaves the records whose id differs, in their
    order; when no record has the id the collection is unchanged, and a
    second deletion of the same id changes nothing. *)
Theorem deleteExpense_removes_matching (st : Storage) (i : Z) :
  getExpenses (deleteExpense st i) =
    filter (fun exp => negb (id exp =? i)) (getExpenses st)
  /\ (forallb (fun exp => negb (id exp =? i)) (getExpenses st) = true ->
      getExpenses (deleteExpense st i) = getExpenses st)
  /\ getExpenses (deleteExpense (deleteExpense st i) i) =
     getExpenses (deleteExpense st i).
Proof.
  split; [apply getExpenses_deleteExpense|]. split.
  - intros H. rewrite getExpenses_deleteExpense. now apply filter_all.
  - rewrite !getExpenses_deleteExpense. apply filter_twice.
Qed.

Lemma deleteExpense_removes_matching_witness :
  getExpenses (deleteExpense (saveExpenses [sample "food" "5" "2023-11-14"]) 7)
  = [sample "food" "5" "2023-11-14"].
Proof.
  destruct (deleteExpense_removes_matching
              (saveExpenses [sample "food" "5" "2023-11-14"]) 7)
    as (_ & H & _).
  rewrite H; [|vm_compute; reflexivity].
  vm_compute. reflexivity.
Defined.

(** A text that was written is read back with every field as it was,
    except that an amount NaN or infinite comes back as [null] and [-0] as
    [0]. *)
Lemma map_reloaded_safe (l : list expense) :
  map reloaded l = l <-> forallb (fun exp => json_safe (amount exp)) l = true.
Proof.
  induction l as [|e l IH]; simpl; [tauto|].
  rewrite andb_true_iff, <- IH, <- reloaded_safe. split.
  - intros E. injection E as E1 E2. now split.
  - intros [E1 E2]. now rewrite E1, E2.
Qed.

(** C9, as amended.  Saving a collection and loading it back gives the
    same records, fields and order exactly when every amount is [null] or a
    finite number other than [-0]; in every case the length, the order and
    all fields but the amount are kept. *)
Theorem save_then_load (l : list expense) :
  (getExpenses (saveExpenses l) = l
   <-> forallb (fun exp => json_safe (amount exp)) l = true)
  /\ map id (getExpenses (saveExpenses l)) = map id l
  /\ map name (getExpenses (saveExpenses l)) = map name l
  /\ map category (getExpenses (saveExpenses l)) = map category l
  /\ map date (getExpenses (saveExpenses l)) = map date l
  /\ map timestamp (getExpenses (saveExpenses l)) = map timestamp l.
Proof.
  rewrite getExpenses_saveExpenses.
  split; [apply map_reloaded_safe|].
  rewrite !map_map. repeat split.
Qed.

Lemma save_then_load_witness :
  getExpenses (saveExpenses [sample "food" "12.5" "2023-11-14"])
  = [sample "food" "12.5" "2023-11-14"].
Proof.
  apply (save_then_load [sample "food" "12.5" "2023-11-14"]).
  vm_compute. reflexivity.
Defined.

(** C9 as stated fails: an expense entered with the amount [1e999] has the
    amount [Infinity], which the text spells [null]. *)
Lemma save_then_load_loses_infinity :
  amount gold = VNum infinity
  /\ amount (reloaded gold) = VNull
  /\ getExpenses (saveExpenses [gold]) <> [gold].
Proof.
  vm_compute. repeat split. discriminate.
Qed.

(** ** Adding *)

(** The guard of [handleFormSubmit], spelled out. *)
Lemma handleFormSubmit_alert st c n a cat :
  snd (handleFormSubmit st c n a cat) = Alert "Please enter valid expense details"
  <-> n = ""%string \/ a = ""%string \/ (parseFloat a <= zero)%js = true.
Proof.
  unfold handleFormSubmit.
  destruct (empty n || empty a || (parseFloat a <= zero)%js) eqn:G; simpl.
  - split; [intros _ | reflexivity].
    apply orb_prop in G. destruct G as [G|G]; [|now right; right].
    apply orb_prop in G. destruct G as [G|G].
    + left. now destruct n.
    + right; left. now destruct a.
  - split; [discriminate|]. intros H.
    apply orb_false_elim in G. destruct G as [G G3].
    apply orb_false_elim in G. destruct G as [G1 G2].
    destruct H as [-> | [-> | H]]; simpl in *; congruence.
Qed.

Lemma handleFormSubmit_alert_keeps_store st c n a cat :
  (empty n || empty a || (parseFloat a <= zero)%js) = true ->
  fst (handleFormSubmit st c n a cat) = st.
Proof.
  unfold handleFormSubmit. now intros ->.
Qed.

(** An input that is valid in the sense of the specification is
    accepted. *)
Lemma handleFormSubmit_accepts_valid st c n a cat :
  trim n <> ""%string -> (parseFloat a > zero)%js = true ->
  handleFormSubmit st c n a cat =
    (fst (addExpense st c n a cat), Added (snd (addExpense st c n a cat))).
Proof.
  intros Hn Ha. unfold handleFormSubmit.
  assert (G : empty n || empty a || (parseFloat a <= zero)%js = false).
  { destruct n as [|c1 n]; [now elim Hn|].
    destruct a as [|c2 a]; [discriminate Ha|].
    cbn [empty orb]. unfold gt, le, SFltb, SFleb in *.
    destruct (parseFloat (String c2 a)) as [[|]|[|]| |[|] m e];
      simpl in *; congruence. }
  rewrite G. now destruct (addExpense st c n a cat).
Qed.

(** C1.  The claim asks for a rejection when the name is empty after
    trimming or the amount is not a positive number.  The guard tests the
    name before it is trimmed and compares the parsed amount with [<= 0],
    which NaN passes: a name of blanks is stored as the empty name, and an
    amount that is no number is stored as NaN. *)
Theorem handleFormSubmit_stores_invalid_input (st : Storage) (c : clock)
    (cat : string) :
  (trim "   " = ""%string
   /\ exists exp,
        handleFormSubmit st c "   " "10" cat =
          (saveExpenses (getExpenses st ++ [exp]), Added exp)
        /\ name exp = ""%string)
  /\ (parseFloat "abc" = nan
      /\ exists exp,
           handleFormSubmit st c "tea" "abc" cat =
             (saveExpenses (getExpenses st ++ [exp]), Added exp)
           /\ amount exp = VNum nan).
Proof.
  split; (split; [vm_compute; reflexivity|]); eexists; split.
  - unfold handleFormSubmit, addExpense.
    replace (empty "   " || empty "10" || (parseFloat "10" <= zero)%js)
      with false by (vm_compute; reflexivity).
    reflexivity.
  - vm_compute. reflexivity.
  - unfold handleFormSubmit, addExpense.
    replace (empty "tea" || empty "abc" || (parseFloat "abc" <= zero)%js)
      with false by (vm_compute; reflexivity).
    reflexivity.
  - vm_compute. reflexivity.
Qed.

(** C2.  The claim asks for pairwise distinct ids.  The id is the reading
    of the clock and nothing else: two additions at one reading leave two
    records of one id, in the order of the additions, and a deletion by
    that id then removes both. *)
Theorem addExpense_twice_at_one_instant (st : Storage) (c : clock)
    (n1 a1 c1 n2 a2 c2 : string) :
  let r1 := addExpense st c n1 a1 c1 in
  let r2 := addExpense (fst r1) c n2 a2 c2 in
  getExpenses (fst r2) =
    getExpenses st ++ [reloaded (snd r1); reloaded (snd r2)]
  /\ id (snd r1) = now c
  /\ id (snd r2) = now c
  /\ getExpenses (deleteExpense (fst r2) (id (snd r1))) =
     filter (fun exp => negb (id exp =? now c)) (getExpenses st).
Proof.
  intros r1 r2.
  assert (E : getExpenses (fst r2) =
              getExpenses st ++ [reloaded (snd r1); reloaded (snd r2)]).
  { unfold r2. rewrite getExpenses_addExpense.
    unfold r1 at 1. rewrite getExpenses_addExpense.
    now rewrite <- app_assoc. }
  split; [exact E|]. split; [reflexivity|]. split; [reflexivity|].
  rewrite getExpenses_deleteExpense, E, filter_app.
  change (id (snd r1)) with (now c).
  cbn [filter]. rewrite !reloaded_id.
  change (id (snd r1)) with (now c). change (id (snd r2)) with (now c).
  rewrite Z.eqb_refl. cbn [negb]. apply app_nil_r.
Qed.

(** ** The daily average *)

(** C6. The daily average is the total of the month divided by the day of
    the month when that day is above 0, and 0 otherwise; a total of 300 on
    day 3 gives 100, and day 0 gives 0. *)
Theorem daily_average (month : list expense) (day daysInMonth : number) :
  let avg := monthAvgDaily (renderMonthlySummary month day daysInMonth) in
  ((day > zero)%js = true -> avg = (calculateTotal month / day)%js)
  /\ ((day > zero)%js = false -> avg = zero)
  /\ (calculateTotal month = of_Z 300 ->
      monthAvgDaily (renderMonthlySummary month (of_Z 3) daysInMonth)
      = of_Z 100)
  /\ monthAvgDaily (renderMonthlySummary month (of_Z 0) daysInMonth) = zero.
Proof.
  cbn [renderMonthlySummary monthAvgDaily]. unfold avgDaily.
  repeat split.
  - now intros ->.
  - now intros ->.
  - intros ->. vm_compute. reflexivity.
Qed.

Lemma daily_average_witness :
  monthAvgDaily
    (renderMonthlySummary
       [sample "food" "100" "2023-11-01"; sample "rent" "200" "2023-11-02"]
       (of_Z 3) (of_Z 30))
  = of_Z 100.
Proof.
  apply (daily_average
           [sample "food" "100" "2023-11-01"; sample "rent" "200" "2023-11-02"]
           (of_Z 3) (of_Z 30)).
  vm_compute. reflexivity.
Defined.

(** ** Binary64 arithmetic *)

Lemma fexp64_eq e : fexp64 e = Z.max (e - 53) (-1074).
Proof. reflexivity. Qed.

Lemma digits2_pos_size p : digits2_pos p = Pos.size p.
Proof. induction p; simpl; congruence. Qed.

Lemma Zdigits2_log2 m : 0 < m -> Zdigits2 m = Z.log2 m + 1.
Proof.
  destruct m as [|p|p]; try lia. intros _. simpl.
  rewrite digits2_pos_size. destruct p; simpl; lia.
Qed.

Lemma Zdigits2_bounds m :
  0 < m -> 2 ^ (Zdigits2 m - 1) <= m < 2 ^ Zdigits2 m /\ 1 <= Zdigits2 m.
Proof.
  intros H. rewrite Zdigits2_log2 by exact H.
  pose proof (Z.log2_spec m H). pose proof (Z.log2_nonneg m).
  replace (Z.log2 m + 1 - 1) with (Z.log2 m) by lia.
  replace (Z.log2 m + 1) with (Z.succ (Z.log2 m)) by lia. lia.
Qed.

Lemma Zdigits2_unique m d :
  1 <= d -> 2 ^ (d - 1) <= m < 2 ^ d -> Zdigits2 m = d.
Proof.
  intros Hd H.
  assert (0 < m). { pose proof (Z.pow_pos_nonneg 2 (d - 1)). lia. }
  rewrite Zdigits2_log2 by assumption.
  rewrite (Z.log2_unique m (d - 1)); try lia.
  replace (Z.succ (d - 1)) with d by lia. exact H.
Qed.

Lemma Zdigits2_nonneg m : 0 <= m -> 0 <= Zdigits2 m.
Proof. destruct m; simpl; lia. Qed.

(* digits of a quotient by a power of two *)
Lemma Zdigits2_div_pow2 m n :
  0 <= n -> 0 < m / 2 ^ n -> Zdigits2 (m / 2 ^ n) = Zdigits2 m - n.
Proof.
  intros Hn Hq.
  assert (Hp : 0 < 2 ^ n) by (apply Z.pow_pos_nonneg; lia).
  assert (Hm : 0 < m).
  { destruct (Z.lt_ge_cases 0 m) as [|G]; [assumption|].
    assert (m / 2 ^ n <= 0) by (apply Z.div_le_upper_bound; lia). lia. }
  rewrite !Zdigits2_log2 by assumption.
  rewrite <- Z.shiftr_div_pow2 by lia.
  rewrite Z.log2_shiftr by lia.
  rewrite <- Z.shiftr_div_pow2 in Hq by lia.
  assert (0 < Z.log2 (Z.shiftr m n) \/ Z.shiftr m n = 1).
  { destruct (Z.eq_dec (Z.shiftr m n) 1); [now right|left].
    apply Z.log2_pos. lia. }
  destruct (Z.max_spec 0 (Z.log2 m - n)) as [[L E]|[L E]]; rewrite E; [lia|].
  (* log2 m <= n : then shiftr m n <= 1 *)
  assert (Z.shiftr m n < 2).
  { rewrite Z.shiftr_div_pow2 by lia. apply Z.div_lt_upper_bound; [lia|].
    pose proof (Z.log2_spec m Hm) as [_ U].
    assert (2 ^ Z.succ (Z.log2 m) <= 2 ^ (n + 1)) by (apply Z.pow_le_mono_r; lia).
    rewrite Z.pow_add_r in H0 by lia. lia. }
  assert (Z.shiftr m n = 1) by lia.
  rewrite H1 in *. 
  assert (Z.log2 m - n <= 0) by lia.
  (* need log2 m = n *)
  assert (n <= Z.log2 m).
  { apply Z.log2_le_pow2; [lia|]. rewrite Z.shiftr_div_pow2 in H1 by lia.
    destruct (Z.lt_ge_cases m (2 ^ n)); [|lia].
    rewrite Z.div_small in H1 by lia. lia. }
  simpl. lia.
Qed.

Lemma iter_pos_nat {A : Type} (f : A -> A) (p : positive) (x : A) :
  SpecFloat.iter_pos f p x = Nat.iter (Pos.to_nat p) f x.
Proof.
  revert x. induction p as [p IH|p IH|]; intros x;
    cbn [SpecFloat.iter_pos].
  - rewrite !IH. rewrite Pos2Nat.inj_xI.
    replace (S (2 * Pos.to_nat p)) with (Pos.to_nat p + (Pos.to_nat p + 1))%nat by lia.
    rewrite !Nat.iter_add. reflexivity.
  - rewrite !IH. rewrite Pos2Nat.inj_xO.
    replace (2 * Pos.to_nat p)%nat with (Pos.to_nat p + Pos.to_nat p)%nat by lia.
    rewrite Nat.iter_add. reflexivity.
  - reflexivity.
Qed.

Lemma shr_1_m mrs : 0 <= shr_m mrs -> shr_m (shr_1 mrs) = shr_m mrs / 2.
Proof.
  destruct mrs as [m r s]. simpl. intros H.
  destruct m as [|[p|p|]|p]; try lia; simpl; try reflexivity.
  - rewrite <- Z.div2_div. reflexivity.
  - rewrite <- Z.div2_div. reflexivity.
Qed.

Lemma shr_m_iter (n : nat) mrs :
  0 <= shr_m mrs ->
  shr_m (Nat.iter n shr_1 mrs) = shr_m mrs / 2 ^ Z.of_nat n.
Proof.
  intros H. induction n as [|n IH].
  - simpl. now rewrite Z.div_1_r.
  - rewrite Nat.iter_succ, shr_1_m.
    + rewrite IH, Z.div_div by lia.
      rewrite Nat2Z.inj_succ, Z.pow_succ_r by lia. f_equal. lia.
    + rewrite IH. apply Z.div_pos; lia.
Qed.

Lemma shr_1_even m :
  0 <= m ->
  shr_1 (Build_shr_record (2 * m) false false) = Build_shr_record m false false.
Proof. destruct m; simpl; try lia; reflexivity. Qed.

Lemma shr_iter_exact (n : nat) m :
  0 <= m ->
  Nat.iter n shr_1 (Build_shr_record (m * 2 ^ Z.of_nat n) false false)
  = Build_shr_record m false false.
Proof.
  revert m. induction n as [|n IH]; intros m H.
  - simpl. now rewrite Z.mul_1_r.
  - rewrite Nat.iter_succ_r.
    rewrite Nat2Z.inj_succ, Z.pow_succ_r by lia.
    replace (m * (2 * 2 ^ Z.of_nat n)) with (2 * (m * 2 ^ Z.of_nat n)) by lia.
    rewrite shr_1_even by lia. now apply IH.
Qed.

Lemma shr_record_of_loc_m m l : shr_m (shr_record_of_loc m l) = m.
Proof. destruct l as [|[]]; reflexivity. Qed.

(** What [shr_fexp] returns: the exponent of the format, unless the
    exponent given is already above it, and the mantissa shifted by the
    difference. *)
Lemma shr_fexp_spec m e l :
  0 <= m ->
  snd (shr_fexp prec emax m e l) = Z.max e (fexp64 (Zdigits2 m + e))
  /\ shr_m (fst (shr_fexp prec emax m e l))
     = m / 2 ^ (snd (shr_fexp prec emax m e l) - e).
Proof.
  intros H. unfold shr_fexp, shr. fold (fexp64 (Zdigits2 m + e)).
  destruct (fexp64 (Zdigits2 m + e) - e) as [|p|p] eqn:E; cbn [fst snd].
  - split; [lia|]. rewrite Z.sub_diag, shr_record_of_loc_m. now rewrite Z.div_1_r.
  - split; [lia|]. rewrite iter_pos_nat, shr_m_iter
      by (rewrite shr_record_of_loc_m; exact H).
    rewrite shr_record_of_loc_m, positive_nat_Z. f_equal. f_equal. lia.
  - split; [lia|]. rewrite Z.sub_diag, shr_record_of_loc_m. now rewrite Z.div_1_r.
Qed.

Lemma shl_align_spec p e e' :
  snd (shl_align p e e') = Z.min e e'
  /\ Zpos (fst (shl_align p e e')) = Zpos p * 2 ^ (e - snd (shl_align p e e')).
Proof.
  unfold shl_align. destruct (e' - e) as [|d|d] eqn:E; cbn [fst snd].
  - split; [lia|]. rewrite Z.sub_diag. lia.
  - split; [lia|]. rewrite Z.sub_diag. lia.
  - split; [lia|].
    change (Pos.iter xO p d) with (shift_pos d p).
    rewrite shift_pos_correct, Zpower_pos_nat, Zpower_nat_Z, positive_nat_Z.
    replace (e - e') with (Zpos d) by lia. lia.
Qed.

Lemma round_nearest_even_bounds m l :
  m <= round_nearest_even m l <= m + 1.
Proof.
  destruct l as [|[]]; simpl; try lia. destruct (Z.even m); lia.
Qed.

Lemma round_digits m m' :
  0 <= m -> m <= m' <= m + 1 ->
  Zdigits2 m' = Zdigits2 m
  \/ (m' = 2 ^ Zdigits2 m /\ Zdigits2 m' = Zdigits2 m + 1).
Proof.
  intros H0 H.
  destruct (Z.eq_dec m' m) as [->|N]; [now left|].
  assert (m' = m + 1) by lia. subst m'.
  destruct (Z.eq_dec m 0) as [->|P]; [right; split; reflexivity|].
  destruct (Zdigits2_bounds m ltac:(lia)) as [[L U] D].
  destruct (Z.eq_dec (m + 1) (2 ^ Zdigits2 m)) as [E|E].
  - right. split; [exact E|]. rewrite E.
    apply Zdigits2_unique; [lia|].
    replace (Zdigits2 m + 1 - 1) with (Zdigits2 m) by lia.
    rewrite Z.pow_add_r by lia. lia.
  - left. apply Zdigits2_unique; lia.
Qed.

(** Rounding a mantissa that is at least as fine as the format asks for
    gives a value of the format; it keeps the sign unless the mantissa
    vanishes at the exponent of the format. *)
Lemma binary_round_aux_valid s m e l :
  0 <= m -> e <= fexp64 (Zdigits2 m + e) ->
  valid_binary prec emax (binary_round_aux prec emax s m e l) = true
  /\ (0 < m / 2 ^ (fexp64 (Zdigits2 m + e) - e) ->
      signed s (binary_round_aux prec emax s m e l)).
Proof.
  intros Hm He. unfold binary_round_aux.
  destruct (shr_fexp_spec m e l Hm) as [E1 M1].
  destruct (shr_fexp prec emax m e l) as [mrs' e'] eqn:S1.
  cbn [fst snd] in E1, M1.
  set (m' := shr_m mrs') in *.
  set (m'' := round_nearest_even m' (loc_of_shr_record mrs')).
  pose proof (round_nearest_even_bounds m' (loc_of_shr_record mrs')) as R.
  fold m'' in R.
  assert (E' : e' = fexp64 (Zdigits2 m + e)) by lia.
  assert (P2 : 0 < 2 ^ (e' - e)) by (apply Z.pow_pos_nonneg; lia).
  assert (Hm' : 0 <= m') by (rewrite M1; apply Z.div_pos; lia).
  assert (Hm'' : 0 <= m'') by lia.
  destruct (shr_fexp_spec m'' e' loc_Exact Hm'') as [E2 M2].
  destruct (shr_fexp prec emax m'' e' loc_Exact) as [mrs'' e''] eqn:S2.
  cbn [fst snd] in E2, M2.
  (* the exponent and the digits after the first shift *)
  assert (K : (0 < m' /\ Zdigits2 m' + e' = Zdigits2 m + e)
              \/ (m' = 0 /\ e' = -1074)).
  { destruct (Z.eq_dec m' 0) as [Z|NZ].
    - right. split; [exact Z|].
      assert (Zdigits2 m + e <= e').
      { destruct (Z.eq_dec m 0) as [->|NZm]; [simpl; lia|].
        destruct (Zdigits2_bounds m ltac:(lia)) as [[L U] D].
        destruct (Z.le_gt_cases (Zdigits2 m) (e' - e)) as [|G]; [lia|].
        assert (2 ^ (e' - e) <= 2 ^ (Zdigits2 m - 1))
          by (apply Z.pow_le_mono_r; lia).
        assert (1 <= m / 2 ^ (e' - e))
          by (apply Z.div_le_lower_bound; lia).
        lia. }
      rewrite fexp64_eq in E'. lia.
    - left. split; [lia|].
      rewrite M1, Zdigits2_div_pow2; [lia | lia |].
      rewrite <- M1. lia. }
  destruct (round_digits m' m'' Hm' R) as [Dg | [Pw Dg]].
  - (* the rounding keeps the number of digits *)
    assert (X : e'' = e' /\ shr_m mrs'' = m'').
    { assert (X0 : e'' = e').
      { rewrite Dg in E2. destruct K as [[_ K]|[Z K]].
        - rewrite K in E2. lia.
        - rewrite Z in E2. simpl in E2. rewrite fexp64_eq in E2. lia. }
      split; [assumption|]. rewrite X0 in M2. rewrite M2, Z.sub_diag.
      now rewrite Z.div_1_r. }
    destruct X as [-> X]. rewrite X.
    destruct m'' as [|q|q] eqn:Q; [split; [reflexivity|] | | lia].
    + intros Pm. rewrite <- E', <- M1 in Pm. lia.
    + destruct (e' <=? emax - prec) eqn:B.
      * split; [|intros _; left; eauto].
        cbn [valid_binary]. unfold bounded, canonical_mantissa.
        rewrite B, andb_true_r. apply Z.eqb_eq.
        change (Z.pos (digits2_pos q)) with (Zdigits2 (Z.pos q)).
        fold (fexp64 (Zdigits2 (Z.pos q) + e')).
        rewrite Dg. destruct K as [[_ K]|[Z K]].
        -- rewrite K. lia.
        -- rewrite Z. simpl. rewrite fexp64_eq. lia.
      * split; [reflexivity | intros _; now right].
  - (* the rounding reaches the next power of two *)
    destruct K as [[Pm' K]|[Z K]].
    + destruct (Zdigits2_bounds m' Pm') as [_ D1].
      assert (F2 : fexp64 (Zdigits2 m'' + e') = fexp64 (Zdigits2 m + e + 1))
        by (f_equal; lia).
      rewrite F2 in E2. rewrite fexp64_eq in E', E2.
      destruct (Z.le_gt_cases (-1074) (Zdigits2 m + e - 53)) as [N|S].
      * (* normal: one more shift *)
        assert (X0 : e'' = e' + 1) by lia. rewrite X0 in M2 |- *.
        assert (M3 : shr_m mrs'' = 2 ^ (Zdigits2 m' - 1)).
        { rewrite M2, Pw. replace (e' + 1 - e') with 1 by lia.
          replace (Zdigits2 m') with (Zdigits2 m' - 1 + 1) at 1 by lia.
          rewrite Z.pow_add_r by lia. now rewrite Z.div_mul by lia. }
        rewrite M3.
        assert (P3 : 0 < 2 ^ (Zdigits2 m' - 1))
          by (apply Z.pow_pos_nonneg; lia).
        destruct (2 ^ (Zdigits2 m' - 1)) as [|q|q] eqn:Q; try lia.
        destruct (e' + 1 <=? emax - prec) eqn:B.
        -- split; [|intros _; left; eauto].
           cbn [valid_binary]. unfold bounded, canonical_mantissa.
           rewrite B, andb_true_r. apply Z.eqb_eq.
           change (Z.pos (digits2_pos q)) with (Zdigits2 (Z.pos q)).
           fold (fexp64 (Zdigits2 (Z.pos q) + (e' + 1))).
           rewrite <- Q.
           rewrite (Zdigits2_unique (2 ^ (Zdigits2 m' - 1)) (Zdigits2 m'));
             [|lia|].
           ++ rewrite fexp64_eq. lia.
           ++ split; [lia|]. apply Z.pow_lt_mono_r; lia.
        -- split; [reflexivity | intros _; now right].
      * (* subnormal: no further shift *)
        assert (X0 : e'' = e') by lia. rewrite X0 in M2 |- *.
        assert (M3 : shr_m mrs'' = m'')
          by (rewrite M2, Z.sub_diag; now rewrite Z.div_1_r).
        rewrite M3.
        destruct m'' as [|q|q] eqn:Q; try lia.
        destruct (e' <=? emax - prec) eqn:B.
        -- split; [|intros _; left; eauto].
           cbn [valid_binary]. unfold bounded, canonical_mantissa.
           rewrite B, andb_true_r. apply Z.eqb_eq.
           change (Z.pos (digits2_pos q)) with (Zdigits2 (Z.pos q)).
           fold (fexp64 (Zdigits2 (Z.pos q) + e')).
           rewrite Dg, fexp64_eq. lia.
        -- split; [reflexivity | intros _; now right].
    + (* the mantissa vanished and was rounded up to one *)
      rewrite Z in Pw, Dg. simpl in Pw, Dg.
      assert (X0 : e'' = e').
      { rewrite Dg in E2. rewrite fexp64_eq in E2. lia. }
      rewrite X0 in M2 |- *.
      assert (M3 : shr_m mrs'' = 1)
        by (rewrite M2, Z.sub_diag, Pw; reflexivity).
      rewrite M3.
      destruct (e' <=? emax - prec) eqn:B.
      * split.
        -- cbn [valid_binary]. unfold bounded, canonical_mantissa.
           rewrite B, andb_true_r. apply Z.eqb_eq. rewrite K. reflexivity.
        -- intros _. left. eauto.
      * split; [reflexivity | intros _; now right].
Qed.

Lemma Zdigits2_mul_pow2 m k :
  0 < m -> 0 <= k -> Zdigits2 (m * 2 ^ k) = Zdigits2 m + k.
Proof.
  intros Hm Hk. destruct (Zdigits2_bounds m Hm) as [[L U] D].
  assert (0 < 2 ^ k) by (apply Z.pow_pos_nonneg; lia).
  apply Zdigits2_unique; [lia|].
  replace (Zdigits2 m + k - 1) with (Zdigits2 m - 1 + k) by lia.
  rewrite !Z.pow_add_r by lia. nia.
Qed.

Lemma binary_round_valid s p e :
  valid (binary_round prec emax s p e) = true
  /\ (-1074 <= e -> signed s (binary_round prec emax s p e)).
Proof.
  unfold binary_round, valid.
  change (Z.pos (digits2_pos p)) with (Zdigits2 (Z.pos p)).
  fold (fexp64 (Zdigits2 (Z.pos p) + e)).
  set (f := fexp64 (Zdigits2 (Z.pos p) + e)).
  destruct (shl_align_spec p e f) as [E M].
  destruct (shl_align p e f) as [mz ez]. cbn [fst snd] in E, M.
  assert (D : Zdigits2 (Z.pos mz) + ez = Zdigits2 (Z.pos p) + e).
  { rewrite M, Zdigits2_mul_pow2 by lia. lia. }
  assert (F : fexp64 (Zdigits2 (Z.pos mz) + ez) = f) by (now rewrite D).
  destruct (binary_round_aux_valid s (Z.pos mz) ez loc_Exact) as [V P];
    [lia | rewrite F; lia |].
  split; [exact V|]. intros He. apply P. rewrite F.
  destruct (Z.eq_dec ez f) as [->|N].
  - rewrite Z.sub_diag, Z.div_1_r. lia.
  - assert (X0 : ez = e) by lia. rewrite X0 in M |- *.
    rewrite Z.sub_diag, Z.pow_0_r, Z.mul_1_r in M. rewrite M.
    destruct (Zdigits2_bounds (Z.pos p) ltac:(lia)) as [[L U] D1].
    unfold f in *. rewrite fexp64_eq in *.
    assert (2 ^ (Z.max (Zdigits2 (Z.pos p) + e - 53) (-1074) - e)
            <= 2 ^ (Zdigits2 (Z.pos p) - 1)) by (apply Z.pow_le_mono_r; lia).
    assert (0 < 2 ^ (Z.max (Zdigits2 (Z.pos p) + e - 53) (-1074) - e))
      by (apply Z.pow_pos_nonneg; lia).
    assert (1 <= Z.pos p / 2 ^ (Z.max (Zdigits2 (Z.pos p) + e - 53) (-1074) - e))
      by (apply Z.div_le_lower_bound; lia).
    lia.
Qed.

(** What validity says of a finite number. *)
Lemma valid_finite s m e :
  valid (S754_finite s m e) = true ->
  e = fexp64 (Zdigits2 (Z.pos m) + e) /\ -1074 <= e <= 971
  /\ Z.pos m < 2 ^ 53 /\ (-1074 < e -> 2 ^ 52 <= Z.pos m).
Proof.
  unfold valid. cbn [valid_binary]. unfold bounded, canonical_mantissa.
  intros H. apply andb_prop in H. destruct H as [C B].
  apply Z.eqb_eq in C. apply Z.leb_le in B.
  change (Z.pos (digits2_pos m)) with (Zdigits2 (Z.pos m)) in C.
  fold (fexp64 (Zdigits2 (Z.pos m) + e)) in C.
  change (emax - prec) with 971 in B.
  destruct (Zdigits2_bounds (Z.pos m) ltac:(lia)) as [[L U] D].
  pose proof C as C'. rewrite fexp64_eq in C'.
  split; [now symmetry|]. split; [lia|]. split.
  - assert (2 ^ Zdigits2 (Z.pos m) <= 2 ^ 53) by (apply Z.pow_le_mono_r; lia).
    lia.
  - intros G. assert (Zdigits2 (Z.pos m) = 53) by lia.
    rewrite H in L. exact L.
Qed.

Lemma scaled_finite_bounds s m e :
  valid (S754_finite s m e) = true ->
  0 < Z.pos m * 2 ^ (e + 1074) < 2 ^ 2200.
Proof.
  intros V. destruct (valid_finite s m e V) as (_ & B & U & _).
  assert (0 < 2 ^ (e + 1074)) by (apply Z.pow_pos_nonneg; lia).
  assert (2 ^ (e + 1074) <= 2 ^ 2045) by (apply Z.pow_le_mono_r; lia).
  assert (2 ^ 53 * 2 ^ 2045 < 2 ^ 2200).
  { rewrite <- Z.pow_add_r by lia. apply Z.pow_lt_mono_r; lia. }
  split; [lia|]. nia.
Qed.

Lemma add_pos_valid x y :
  pos_valid x = true -> pos_valid y = true -> pos_valid (x + y)%js = true.
Proof.
  unfold pos_valid. intros Hx Hy.
  apply andb_prop in Hx. destruct Hx as [Px Vx].
  apply andb_prop in Hy. destruct Hy as [Py Vy].
  destruct x as [sx|[|]| |[|] mx ex]; try discriminate;
    destruct y as [sy|[|]| |[|] my ey]; try discriminate; try reflexivity.
  unfold add, SFadd. cbn [cond_Zopp Z.add binary_normalize].
  destruct (valid_finite _ _ _ Vx) as (_ & Bx & _).
  destruct (valid_finite _ _ _ Vy) as (_ & By & _).
  destruct (binary_round_valid false
              (fst (shl_align mx ex (Z.min ex ey)) + fst (shl_align my ey (Z.min ex ey)))
              (Z.min ex ey)) as [V S].
  rewrite V, andb_true_r.
  destruct S as [(q & e & ->)| ->]; [lia | reflexivity | reflexivity].
Qed.

Lemma scaled_lt_of_exponent sx mx ex sy my ey :
  valid (S754_finite sx mx ex) = true ->
  valid (S754_finite sy my ey) = true ->
  ex < ey ->
  Z.pos mx * 2 ^ (ex + 1074) < Z.pos my * 2 ^ (ey + 1074).
Proof.
  intros Vx Vy L.
  destruct (valid_finite _ _ _ Vx) as (_ & Bx & Ux & _).
  destruct (valid_finite _ _ _ Vy) as (_ & By & _ & Ly).
  assert (Gy : -1074 < ey) by lia. specialize (Ly Gy).
  replace (ey + 1074) with (ex + 1074 + (ey - ex)) by lia.
  rewrite (Z.pow_add_r 2 (ex + 1074) (ey - ex)) by lia.
  assert (0 < 2 ^ (ex + 1074)) by (apply Z.pow_pos_nonneg; lia).
  assert (2 ^ 1 <= 2 ^ (ey - ex)) by (apply Z.pow_le_mono_r; lia).
  change (2 ^ 1) with 2 in *. change (2 ^ 53) with (2 * 2 ^ 52) in Ux.
  assert (K : 0 < 2 ^ 52) by reflexivity.
  set (k := 2 ^ 52) in *. set (p := 2 ^ (ex + 1074)) in *.
  set (q := 2 ^ (ey - ex)) in *.
  apply Z.lt_le_trans with (2 * k * p); [nia|].
  apply Z.le_trans with (k * (p * q)); nia.
Qed.

(** On positive numbers the comparison of [SpecFloat] is the comparison of
    the values. *)
Lemma compare_scaled x y :
  pos_valid x = true -> pos_valid y = true ->
  SFcompare x y = Some (scaled x ?= scaled y).
Proof.
  unfold pos_valid. intros Hx Hy.
  apply andb_prop in Hx. destruct Hx as [Px Vx].
  apply andb_prop in Hy. destruct Hy as [Py Vy].
  destruct x as [sx|[|]| |[|] mx ex]; try discriminate;
    destruct y as [sy|[|]| |[|] my ey]; try discriminate;
    cbn [SFcompare scaled cond_Zopp].
  - reflexivity.
  - pose proof (scaled_finite_bounds _ _ _ Vy).
    f_equal. symmetry. apply Z.compare_gt_iff. lia.
  - pose proof (scaled_finite_bounds _ _ _ Vx).
    f_equal. symmetry. apply Z.compare_lt_iff. lia.
  - f_equal. destruct (Z.compare_spec ex ey) as [E|L|G].
    + subst ey. rewrite <- Zmult_compare_compat_r; [reflexivity|].
      destruct (valid_finite _ _ _ Vx) as (_ & B & _).
      apply Z.lt_gt, Z.pow_pos_nonneg; lia.
    + symmetry. apply Z.compare_lt_iff.
      now apply (scaled_lt_of_exponent false mx ex false my ey).
    + symmetry. apply Z.compare_gt_iff.
      now apply (scaled_lt_of_exponent false my ey false mx ex).
Qed.

Lemma lt_scaled x y :
  pos_valid x = true -> pos_valid y = true ->
  (x < y)%js = (scaled x <? scaled y).
Proof.
  intros Hx Hy. unfold lt, SFltb, Z.ltb.
  rewrite (compare_scaled x y Hx Hy). now destruct (scaled x ?= scaled y).
Qed.

Lemma le_scaled x y :
  pos_valid x = true -> pos_valid y = true ->
  (x <= y)%js = (scaled x <=? scaled y).
Proof.
  intros Hx Hy. unfold le, SFleb, Z.leb.
  rewrite (compare_scaled x y Hx Hy). now destruct (scaled x ?= scaled y).
Qed.

(** Two positive numbers of one value are one number. *)
Lemma scaled_inj x y :
  pos_valid x = true -> pos_valid y = true -> scaled x = scaled y -> x = y.
Proof.
  intros Hx Hy E. pose proof (compare_scaled x y Hx Hy) as C.
  rewrite E, Z.compare_refl in C.
  unfold pos_valid in Hx, Hy.
  apply andb_prop in Hx. destruct Hx as [Px Vx].
  apply andb_prop in Hy. destruct Hy as [Py Vy].
  destruct x as [sx|[|]| |[|] mx ex]; try discriminate;
    destruct y as [sy|[|]| |[|] my ey]; try discriminate;
    cbn [SFcompare] in C; try discriminate; try reflexivity.
  destruct (Z.compare_spec ex ey) as [Ee|L|G]; try discriminate.
  injection C as C. apply Pos.compare_eq in C. congruence.
Qed.

(** The sign of a difference of positive numbers. *)
Lemma sub_sign x y :
  pos_valid x = true -> pos_valid y = true ->
  ((y - x)%js > zero)%js = (scaled x <? scaled y).
Proof.
  unfold pos_valid. intros Hx Hy.
  apply andb_prop in Hx. destruct Hx as [Px Vx].
  apply andb_prop in Hy. destruct Hy as [Py Vy].
  destruct x as [sx|[|]| |[|] mx ex]; try discriminate;
    destruct y as [sy|[|]| |[|] my ey]; try discriminate;
    unfold sub, gt; cbn [SFsub scaled cond_Zopp negb].
  - reflexivity.
  - pose proof (scaled_finite_bounds _ _ _ Vy).
    change (SFltb zero (S754_infinity true)) with false.
    symmetry. apply Z.ltb_ge. lia.
  - pose proof (scaled_finite_bounds _ _ _ Vx).
    change (SFltb zero (S754_infinity false)) with true.
    symmetry. apply Z.ltb_lt. lia.
  - destruct (valid_finite _ _ _ Vx) as (_ & Bx & _).
    destruct (valid_finite _ _ _ Vy) as (_ & By & _).
    set (ez := Z.min ey ex).
    destruct (shl_align_spec my ey ez) as [Ey My].
    destruct (shl_align_spec mx ex ez) as [Ex Mx].
    rewrite Ey in My. rewrite Ex in Mx.
    replace (Z.min ey ez) with ez in My by lia.
    replace (Z.min ex ez) with ez in Mx by lia.
    assert (Sy : Z.pos my * 2 ^ (ey + 1074)
                 = Z.pos (fst (shl_align my ey ez)) * 2 ^ (ez + 1074)).
    { rewrite My, <- Z.mul_assoc, <- Z.pow_add_r by lia. f_equal. f_equal. lia. }
    assert (Sx : Z.pos mx * 2 ^ (ex + 1074)
                 = Z.pos (fst (shl_align mx ex ez)) * 2 ^ (ez + 1074)).
    { rewrite Mx, <- Z.mul_assoc, <- Z.pow_add_r by lia. f_equal. f_equal. lia. }
    rewrite Sx, Sy.
    assert (P : 0 < 2 ^ (ez + 1074)) by (apply Z.pow_pos_nonneg; lia).
    set (a := Z.pos (fst (shl_align my ey ez))) in *.
    set (b := Z.pos (fst (shl_align mx ex ez))) in *.
    destruct (a - b) as [|d|d] eqn:D; cbn [binary_normalize].
    + symmetry. apply Z.ltb_ge. nia.
    + destruct (binary_round_valid false d ez) as [_ S].
      assert (Gz : -1074 <= ez) by lia. specialize (S Gz).
      transitivity true.
      * destruct S as [(q & e & ->)| ->]; reflexivity.
      * symmetry. apply Z.ltb_lt. nia.
    + destruct (binary_round_valid true d ez) as [_ S].
      assert (Gz : -1074 <= ez) by lia. specialize (S Gz).
      transitivity false.
      * destruct S as [(q & e & ->)| ->]; reflexivity.
      * symmetry. apply Z.ltb_ge. nia.
Qed.

(** ** Sorting by a numeric key *)

Lemma number_eqb_eq x y : number_eqb x y = true <-> x = y.
Proof.
  split.
  - destruct x as [s|s| |s m e], y as [s'|s'| |s' m' e']; simpl;
      try discriminate; try reflexivity.
    + intros H. apply eqb_prop in H. congruence.
    + intros H. apply eqb_prop in H. congruence.
    + intros H. apply andb_prop in H. destruct H as [H He].
      apply andb_prop in H. destruct H as [Hs Hm].
      apply eqb_prop in Hs. apply Pos.eqb_eq in Hm. apply Z.eqb_eq in He.
      congruence.
  - intros <-. destruct x as [s|s| |s m e]; simpl; try reflexivity.
    + apply eqb_reflx.
    + apply eqb_reflx.
    + now rewrite eqb_reflx, Pos.eqb_refl, Z.eqb_refl.
Qed.

(** A number minus itself is never above zero. *)
Lemma sub_self_not_positive x : ((x - x)%js > zero)%js = false.
Proof.
  unfold sub, gt. destruct x as [[|]|[|]| |s m e]; try reflexivity.
  cbn [SFsub]. now rewrite Z.sub_diag.
Qed.

Section SortProperties.
Context {A : Type}.
Variable key : A -> number.

Lemma In_insert (f : A -> A -> number) (x a : A) (l : list A) :
  In x (insert f a l) <-> x = a \/ In x l.
Proof.
  induction l as [|b l IH]; simpl; [intuition congruence|].
  destruct (f a b > zero)%js; simpl; [rewrite IH|]; intuition congruence.
Qed.

Lemma insert_perm (f : A -> A -> number) (a : A) (l : list A) :
  Permutation (insert f a l) (a :: l).
Proof.
  induction l as [|b l IH]; simpl; [reflexivity|].
  destruct (f a b > zero)%js; [|reflexivity].
  rewrite IH. apply perm_swap.
Qed.

Lemma sort_perm (f : A -> A -> number) (l : list A) :
  Permutation (sort f l) l.
Proof.
  induction l as [|a l IH]; simpl; [reflexivity|].
  rewrite insert_perm. now constructor.
Qed.

Lemma insert_descending (a : A) (l : list A) :
  pos_valid (key a) = true ->
  Forall (fun b => pos_valid (key b) = true) l ->
  StronglySorted (descending key) l ->
  StronglySorted (descending key) (insert (by_key key) a l).
Proof.
  intros Ha Hl S. induction S as [|b l S IH F]; simpl.
  - constructor; constructor.
  - inversion Hl as [|? ? Hb Hl']; subst.
    unfold by_key at 1. rewrite (sub_sign (key a) (key b) Ha Hb).
    destruct (scaled (key a) <? scaled (key b)) eqn:C.
    + apply Z.ltb_lt in C. constructor; [now apply IH|].
      apply Forall_forall. intros x Hx. apply In_insert in Hx.
      destruct Hx as [->|Hx].
      * unfold descending. rewrite le_scaled by assumption.
        apply Z.leb_le. lia.
      * rewrite Forall_forall in F. now apply F.
    + apply Z.ltb_ge in C. constructor; [now constructor|].
      constructor.
      * unfold descending. rewrite le_scaled by assumption.
        now apply Z.leb_le.
      * rewrite Forall_forall in *. intros x Hx.
        specialize (F x Hx). specialize (Hl' x Hx).
        unfold descending in *. rewrite le_scaled in * by assumption.
        apply Z.leb_le in F. apply Z.leb_le. lia.
Qed.

Lemma sort_descending (l : list A) :
  Forall (fun b => pos_valid (key b) = true) l ->
  StronglySorted (descending key) (sort (by_key key) l).
Proof.
  induction l as [|a l IH]; intros H; simpl; [constructor|].
  inversion H as [|? ? Ha Hl]; subst.
  apply insert_descending; [assumption | | now apply IH].
  apply Forall_forall. intros x Hx.
  apply (Permutation_in _ (sort_perm (by_key key) l)) in Hx.
  rewrite Forall_forall in Hl. now apply Hl.
Qed.

(** Stability: the entries of one key keep their relative order. *)
Lemma insert_stable (t : number) (a : A) (l : list A) :
  filter (fun p => number_eqb (key p) t) (insert (by_key key) a l)
  = filter (fun p => number_eqb (key p) t) (a :: l).
Proof.
  induction l as [|b l IH]; [reflexivity|].
  cbn [insert]. destruct ((by_key key) a b > zero)%js eqn:G; [|reflexivity].
  cbn [filter] in *. rewrite IH.
  destruct (number_eqb (key a) t) eqn:Ea, (number_eqb (key b) t) eqn:Eb;
    try reflexivity.
  apply number_eqb_eq in Ea, Eb. unfold by_key in G.
  rewrite Ea, Eb, sub_self_not_positive in G. discriminate.
Qed.

Lemma sort_stable (t : number) (l : list A) :
  filter (fun p => number_eqb (key p) t) (sort (by_key key) l)
  = filter (fun p => number_eqb (key p) t) l.
Proof.
  induction l as [|a l IH]; [reflexivity|].
  cbn [sort fold_right]. rewrite insert_stable.
  cbn [filter]. fold (sort (by_key key) l). now rewrite IH.
Qed.

End SortProperties.

(** ** Grouping *)

Lemma existsb_eqb_In (c : string) (l : list string) :
  existsb (String.eqb c) l = true <-> In c l.
Proof.
  rewrite existsb_exists. split.
  - intros (x & Hx & E). apply String.eqb_eq in E. now subst.
  - intros H. exists c. split; [assumption | apply String.eqb_refl].
Qed.

Lemma first_seen_snoc (l : list string) (c : string) :
  first_seen (l ++ [c]) =
  if existsb (String.eqb c) (first_seen l) then first_seen l
  else first_seen l ++ [c].
Proof. unfold first_seen. now rewrite fold_left_app. Qed.

Lemma In_first_seen (c : string) (l : list string) :
  In c (first_seen l) <-> In c l.
Proof.
  induction l as [|x l IH] using rev_ind; [reflexivity|].
  rewrite first_seen_snoc, in_app_iff.
  destruct (existsb (String.eqb x) (first_seen l)) eqn:E.
  - apply existsb_eqb_In in E. rewrite IH. simpl.
    split; [tauto|]. intros [H|[<-|[]]]; [assumption | now apply IH].
  - rewrite in_app_iff, IH. reflexivity.
Qed.

Lemma NoDup_first_seen (l : list string) : NoDup (first_seen l).
Proof.
  induction l as [|x l IH] using rev_ind; [constructor|].
  rewrite first_seen_snoc.
  destruct (existsb (String.eqb x) (first_seen l)) eqn:E; [assumption|].
  apply NoDup_app; [assumption | repeat constructor; simpl; tauto |].
  intros y Hy [<-|[]].
  apply existsb_eqb_In in Hy. congruence.
Qed.

Lemma calculateTotal_snoc (l : list expense) (e : expense) :
  calculateTotal (l ++ [e]) = (calculateTotal l + ToNumber (amount e))%js.
Proof. unfold calculateTotal. now rewrite fold_left_app. Qed.

Lemma get_map (f : string -> property) (ks : list string) (k : string) :
  get (map (fun c => (c, f c)) ks) k =
  if existsb (String.eqb k) ks then Some (f k) else None.
Proof.
  induction ks as [|c ks IH]; [reflexivity|].
  cbn [map get existsb]. rewrite (String.eqb_sym k c).
  destruct (String.eqb c k) eqn:E; [|exact IH].
  apply String.eqb_eq in E. now subst.
Qed.

Lemma set_map_in (f : string -> property) (ks : list string) (k : string)
    (v : property) :
  NoDup ks -> In k ks ->
  set (map (fun c => (c, f c)) ks) k v =
  map (fun c => (c, if String.eqb c k then v else f c)) ks.
Proof.
  intros N. induction N as [|c ks Hc N IH]; [contradiction|].
  intros H. cbn [map set].
  destruct (String.eqb c k) eqn:E.
  - apply String.eqb_eq in E. subst c. f_equal.
    apply map_ext_in. intros c' Hc'.
    destruct (String.eqb c' k) eqn:E'; [|reflexivity].
    apply String.eqb_eq in E'. congruence.
  - f_equal. apply IH. destruct H as [->|H]; [|assumption].
    now rewrite String.eqb_refl in E.
Qed.

Lemma set_map_notin (f : string -> property) (ks : list string)
    (k : string) (v : property) :
  ~ In k ks ->
  set (map (fun c => (c, f c)) ks) k v = map (fun c => (c, f c)) ks ++ [(k, v)].
Proof.
  induction ks as [|c ks IH]; intros H; [reflexivity|].
  cbn [map set]. destruct (String.eqb c k) eqn:E.
  - apply String.eqb_eq in E. subst c. simpl in H. tauto.
  - simpl. f_equal. apply IH. simpl in H. tauto.
Qed.

Lemma pos_valid_truthy x : pos_valid x = true -> truthy x = true.
Proof. now destruct x as [s|[|]| |[|] m e]. Qed.

Lemma add_zero_l x : pos_valid x = true -> (zero + x)%js = x.
Proof. now destruct x as [s|[|]| |[|] m e]. Qed.

Lemma calculateTotal_pos_valid (l : list expense) :
  l <> [] -> forallb positive_amount l = true ->
  pos_valid (calculateTotal l) = true.
Proof.
  induction l as [|e l IH] using rev_ind; [congruence|].
  intros _ H. rewrite forallb_app in H. apply andb_prop in H.
  destruct H as [Hl He]. simpl in He. rewrite andb_true_r in He.
  unfold positive_amount in He.
  rewrite calculateTotal_snoc.
  destruct (amount e) as [x|]; [|discriminate]. cbn [ToNumber].
  destruct l as [|e' l'].
  - change (calculateTotal []) with zero. now rewrite add_zero_l.
  - apply add_pos_valid; [|assumption]. apply IH; [discriminate | assumption].
Qed.

Lemma forallb_filter {A : Type} (p q : A -> bool) (l : list A) :
  forallb p l = true -> forallb p (filter q l) = true.
Proof.
  rewrite !forallb_forall. intros H x Hx. apply filter_In in Hx. now apply H.
Qed.

Lemma filter_none {A : Type} (p : A -> bool) (l : list A) :
  (forall x, In x l -> p x = false) -> filter p l = [].
Proof.
  induction l as [|a l IH]; intros H; [reflexivity|].
  simpl. rewrite (H a) by now left. apply IH. intros x Hx. apply H. now right.
Qed.

Lemma group_total_pos_valid (key : expense -> string) (l : list expense)
    (k : string) :
  forallb positive_amount l = true -> In k (map key l) ->
  pos_valid (calculateTotal (filter (fun exp => String.eqb (key exp) k) l))
  = true.
Proof.
  intros H Hk. apply calculateTotal_pos_valid; [|now apply forallb_filter].
  apply in_map_iff in Hk. destruct Hk as (e & <- & He).
  intros E.
  assert (In e (filter (fun exp => String.eqb (key exp) (key e)) l)).
  { apply filter_In. split; [assumption | apply String.eqb_refl]. }
  rewrite E in H0. contradiction.
Qed.

Lemma proto_inherited (k : string) :
  String.eqb k "__proto__" = true -> inherited k = true.
Proof.
  intros E. apply String.eqb_eq in E. now subst.
Qed.

Lemma as_numbers_grouped (key : expense -> string) (l : list expense) :
  as_numbers (grouped key l) =
  map (fun c =>
         (c, PNum (calculateTotal
                     (filter (fun exp => String.eqb (key exp) c) l))))
      (first_seen (map key l)).
Proof. unfold as_numbers, grouped. now rewrite map_map. Qed.

(** The loop of [totalsBy] computes, label by label in the order in which
    the labels are first met, the total of the amounts of the label, when
    the amounts are positive and no label is a name of
    [Object.prototype]. *)
Lemma totalsBy_grouped (key : expense -> string) (l : list expense) :
  forallb positive_amount l = true ->
  forallb (fun exp => ordinary_label (key exp)) l = true ->
  totalsBy key l = as_numbers (grouped key l).
Proof.
  induction l as [|e l IH] using rev_ind; [reflexivity|].
  intros H O. pose proof H as H'. rewrite forallb_app in H', O.
  apply andb_prop in H'. destruct H' as [Hl He].
  apply andb_prop in O. destruct O as [Ol Oe].
  specialize (IH Hl Ol).
  cbn [forallb] in Oe. rewrite andb_true_r in Oe. unfold ordinary_label in Oe.
  apply negb_true_iff in Oe.
  unfold totalsBy in *. rewrite fold_left_app. cbn [fold_left]. rewrite IH.
  rewrite !as_numbers_grouped. rewrite map_app. cbn [map].
  rewrite first_seen_snoc.
  set (k := key e) in *. set (a := ToNumber (amount e)).
  set (ks := first_seen (map key l)).
  assert (T : forall c,
             calculateTotal (filter (fun exp => String.eqb (key exp) c) (l ++ [e]))
             = if String.eqb k c
               then (calculateTotal (filter (fun exp => String.eqb (key exp) c) l) + a)%js
               else calculateTotal (filter (fun exp => String.eqb (key exp) c) l)).
  { intros c. rewrite filter_app. cbn [filter]. fold k.
    destruct (String.eqb k c); [apply calculateTotal_snoc | now rewrite app_nil_r]. }
  unfold assign, plus_amount.
  destruct (String.eqb k "__proto__") eqn:P;
    [apply proto_inherited in P; congruence|].
  rewrite get_map, Oe. fold a.
  destruct (existsb (String.eqb k) ks) eqn:E.
  - apply existsb_eqb_In in E.
    rewrite set_map_in by (assumption || apply NoDup_first_seen).
    apply map_ext. intros c. rewrite T, (String.eqb_sym k c).
    destruct (String.eqb c k) eqn:C; [|reflexivity].
    apply String.eqb_eq in C. subst c. f_equal. f_equal.
    rewrite pos_valid_truthy; [reflexivity|].
    apply group_total_pos_valid; [assumption|]. now apply In_first_seen.
  - assert (N : ~ In k ks).
    { intros I. apply existsb_eqb_In in I. congruence. }
    rewrite set_map_notin by assumption.
    rewrite map_app. cbn [map]. f_equal.
    + apply map_ext_in. intros c Hc. rewrite T.
      destruct (String.eqb k c) eqn:C; [|reflexivity].
      apply String.eqb_eq in C. congruence.
    + f_equal. f_equal. f_equal. rewrite T, String.eqb_refl. f_equal.
      assert (F : filter (fun exp => String.eqb (key exp) k) l = []).
      { apply filter_none. intros x Hx.
        destruct (String.eqb (key x) k) eqn:X; [|reflexivity].
        apply String.eqb_eq in X. exfalso. apply N. apply In_first_seen.
        rewrite <- X. now apply in_map. }
      now rewrite F.
Qed.

Lemma insert_index_perm i p l :
  Permutation (insert_index i p l) ((i, p) :: l).
Proof.
  induction l as [|[j q] l IH]; simpl; [reflexivity|].
  destruct (i <? j)%Z; [reflexivity|]. rewrite IH. apply perm_swap.
Qed.

Lemma Object_entries_perm (o : object) : Permutation (Object_entries o) o.
Proof.
  unfold Object_entries. induction o as [|p o IH]; [reflexivity|].
  cbn [index_entries named_entries fold_right filter].
  fold (index_entries o). fold (named_entries o).
  destruct (array_index (fst p)) as [i|].
  - rewrite (Permutation_map snd (insert_index_perm i p (index_entries o))).
    cbn [map snd app]. now constructor.
  - rewrite <- Permutation_middle. now constructor.
Qed.

Lemma Object_entries_plain (o : object) :
  forallb (fun p => plain_key (fst p)) o = true -> Object_entries o = o.
Proof.
  unfold Object_entries, plain_key. induction o as [|p o IH]; [reflexivity|].
  cbn [forallb]. intros H. apply andb_prop in H. destruct H as [Hp Ho].
  cbn [index_entries named_entries fold_right filter].
  fold (index_entries o). fold (named_entries o).
  destruct (array_index (fst p)); [discriminate|].
  specialize (IH Ho). 
  assert (E : index_entries o = []).
  { clear IH. induction o as [|q o IHo]; [reflexivity|].
    cbn [forallb] in Ho. apply andb_prop in Ho. destruct Ho as [Hq Ho].
    cbn [index_entries fold_right]. fold (index_entries o).
    destruct (array_index (fst q)); [discriminate | now apply IHo]. }
  rewrite E in *. cbn [map app] in *. now rewrite IH.
Qed.

Lemma grouped_keys (key : expense -> string) (l : list expense) p :
  In p (grouped key l) ->
  In (fst p) (map key l)
  /\ snd p = calculateTotal (filter (fun exp => String.eqb (key exp) (fst p)) l).
Proof.
  unfold grouped. intros H. apply in_map_iff in H.
  destruct H as (c & <- & Hc). split; [now apply In_first_seen | reflexivity].
Qed.

(** C5, as amended.  For expenses with positive amounts and labels that
    are no names of [Object.prototype], the breakdown has one pair per
    category, with the total of the amounts of the category (summed in the
    order of the input); the pairs are in descending order of total; pairs
    of one total are in the order of [Object.entries], which is the order
    in which the categories are first met as long as no label is an array
    index.  The empty input gives the empty sequence, and
    [{food,100},{travel,50},{food,25}] gives [(food,125),(travel,50)]. *)
Theorem categories_breakdown (monthExpenses : list expense) :
  forallb positive_amount monthExpenses = true ->
  forallb (fun exp => ordinary_label (category exp)) monthExpenses = true ->
  Permutation (categories monthExpenses)
              (as_numbers (grouped category monthExpenses))
  /\ StronglySorted
       (fun p q => (number_of (snd q) <= number_of (snd p))%js = true)
       (categories monthExpenses)
  /\ (forall t,
        filter (fun p => number_eqb (number_of (snd p)) t)
               (categories monthExpenses)
        = filter (fun p => number_eqb (number_of (snd p)) t)
            (Object_entries (as_numbers (grouped category monthExpenses))))
  /\ (forallb (fun exp => plain_key (category exp)) monthExpenses = true ->
      Object_entries (as_numbers (grouped category monthExpenses))
      = as_numbers (grouped category monthExpenses))
  /\ categories [] = []
  /\ categories [sample "food" "100" "2023-11-01";
                 sample "travel" "50" "2023-11-02";
                 sample "food" "25" "2023-11-03"]
     = [("food"%string, PNum (of_Z 125)); ("travel"%string, PNum (of_Z 50))].
Proof.
  intros H O. unfold categories, categoryTotals.
  rewrite (totalsBy_grouped category monthExpenses H O).
  split; [|split; [|split; [|split; [|split]]]].
  - rewrite sort_perm. apply Object_entries_perm.
  - apply (sort_descending (fun p => number_of (snd p))).
    apply Forall_forall. intros p Hp.
    apply (Permutation_in _ (Object_entries_perm _)) in Hp.
    unfold as_numbers in Hp. apply in_map_iff in Hp.
    destruct Hp as (q & <- & Hq). cbn [snd number_of].
    apply grouped_keys in Hq. destruct Hq as [K ->].
    now apply group_total_pos_valid.
  - intros t. apply (sort_stable (fun p => number_of (snd p))).
  - intros P. apply Object_entries_plain. apply forallb_forall.
    intros p Hp. unfold as_numbers in Hp. apply in_map_iff in Hp.
    destruct Hp as (q & <- & Hq). cbn [fst].
    apply grouped_keys in Hq. destruct Hq as [K _].
    apply in_map_iff in K. destruct K as (e & <- & He).
    rewrite forallb_forall in P. now apply P.
  - reflexivity.
  - vm_compute. reflexivity.
Qed.

Lemma categories_breakdown_witness :
  StronglySorted
    (fun p q => (number_of (snd q) <= number_of (snd p))%js = true)
    (categories [sample "food" "100" "2023-11-01";
                 sample "travel" "50" "2023-11-02";
                 sample "food" "25" "2023-11-03"])
  /\ Object_entries
       (as_numbers
          (grouped category [sample "food" "100" "2023-11-01";
                             sample "travel" "50" "2023-11-02";
                             sample "food" "25" "2023-11-03"]))
     = [("food"%string, PNum (of_Z 125)); ("travel"%string, PNum (of_Z 50))].
Proof.
  destruct (categories_breakdown
              [sample "food" "100" "2023-11-01";
               sample "travel" "50" "2023-11-02";
               sample "food" "25" "2023-11-03"]) as (_ & S & _ & P & _).
  - vm_compute. reflexivity.
  - vm_compute. reflexivity.
  - split; [exact S|]. rewrite P; vm_compute; reflexivity.
Defined.

(** C5 as stated fails.  The labels ["2"] and ["1"], met in that order with
    equal totals, come out with ["1"] first: array-index keys are
    enumerated first, in ascending order.  With an amount that is no number
    the pair of a label is not the sum of its amounts: [|| 0] restarts the
    total after a NaN.  And under a label that [Object.prototype] defines
    the amounts are appended to a text instead of being added. *)
Lemma categories_index_labels_first :
  categories [sample "2" "10" "2023-11-01"; sample "1" "10" "2023-11-02"]
  = [("1"%string, PNum (of_Z 10)); ("2"%string, PNum (of_Z 10))]
  /\ first_seen (map category
       [sample "2" "10" "2023-11-01"; sample "1" "10" "2023-11-02"])
     = ["2"%string; "1"%string]
  /\ categories [sample "tea" "abc" "2023-11-01"; sample "tea" "5" "2023-11-02"]
     = [("tea"%string, PNum (of_Z 5))]
  /\ calculateTotal
       [sample "tea" "abc" "2023-11-01"; sample "tea" "5" "2023-11-02"]
     = nan
  /\ categories [sample "constructor" "5" "2023-11-01"]
     = [("constructor"%string, PText)].
Proof. vm_compute. repeat split. Qed.

(** ** The rules of the insights against the specification's wording *)

(** The head of the sorted sequence is found by one pass from the right
    that keeps the element met unless the comparison puts the best of the
    rest before it. *)
Lemma sort_head {A : Type} (f : A -> A -> number) (l : list A) :
  hd_error (sort f l) =
  fold_right
    (fun a best =>
       match best with
       | Some b => if (f a b > zero)%js then Some b else Some a
       | None => Some a
       end)
    None l.
Proof.
  induction l as [|a l IH]; [reflexivity|].
  cbn [fold_right]. rewrite <- IH. change (sort f (a :: l)) with
    (insert f a (sort f l)).
  destruct (sort f l) as [|b s]; [reflexivity|].
  cbn [insert hd_error]. now destruct (f a b > zero)%js.
Qed.

Lemma first_greatest_In {A : Type} (key : A -> number) (l : list A) b :
  first_greatest key l = Some b -> In b l.
Proof.
  revert b. induction l as [|a l IH]; intros b; [discriminate|].
  cbn [first_greatest fold_right]. fold (first_greatest key l).
  destruct (first_greatest key l) as [c|].
  - destruct (key a < key c)%js; intros E; injection E as <-.
    + right. now apply IH.
    + now left.
  - intros E. injection E as <-. now left.
Qed.

Lemma sort_first_greatest {A : Type} (key : A -> number) (l : list A) :
  Forall (fun b => pos_valid (key b) = true) l ->
  hd_error (sort (by_key key) l) = first_greatest key l.
Proof.
  intros H. rewrite sort_head.
  induction H as [|a l Ha Hl IH]; [reflexivity|].
  cbn [first_greatest fold_right]. fold (first_greatest key l).
  rewrite IH. destruct (first_greatest key l) as [b|] eqn:E; [|reflexivity].
  apply first_greatest_In in E. rewrite Forall_forall in Hl.
  unfold by_key. rewrite (sub_sign (key a) (key b) Ha (Hl b E)).
  now rewrite (lt_scaled (key a) (key b) Ha (Hl b E)).
Qed.

Lemma rule_highest_category_highest (month : list expense) :
  forallb positive_amount month = true ->
  forallb (fun exp => ordinary_label (category exp)) month = true ->
  rule_highest_category month =
  match highest month with
  | Some c => [highest_category c]
  | None => []
  end.
Proof.
  intros H O. unfold rule_highest_category, highest, categories,
    categoryTotals.
  rewrite (totalsBy_grouped category month H O).
  rewrite <- (sort_first_greatest (fun p => number_of (snd p))).
  - change (fun a b : string * property =>
              (number_of (snd b) - number_of (snd a))%js)
      with (by_key (fun p : string * property => number_of (snd p))).
    destruct (sort _ _) as [|[c t] s]; reflexivity.
  - apply Forall_forall. intros p Hp.
    apply (Permutation_in _ (Object_entries_perm _)) in Hp.
    unfold as_numbers in Hp. apply in_map_iff in Hp.
    destruct Hp as (q & <- & Hq). cbn [snd number_of].
    apply grouped_keys in Hq. destruct Hq as [K ->].
    now apply group_total_pos_valid.
Qed.

Lemma filter_length_perm {A : Type} (keep : A -> bool) (l l' : list A) :
  Permutation l l' ->
  List.length (filter keep l) = List.length (filter keep l').
Proof.
  induction 1 as [|a l l' P IH|a b l|l l' l'' P IH P' IH'];
    cbn [filter].
  - reflexivity.
  - destruct (keep a); cbn [List.length]; now rewrite IH.
  - destruct (keep a), (keep b); reflexivity.
  - now rewrite IH.
Qed.

Lemma filter_length_map {A B : Type} (f : A -> B) (keep : B -> bool)
    (l : list A) :
  List.length (filter keep (map f l))
  = List.length (filter (fun a => keep (f a)) l).
Proof.
  induction l as [|a l IH]; [reflexivity|].
  cbn [map filter]. destruct (keep (f a)); cbn [List.length]; now rewrite IH.
Qed.

(** The days that the loop over [Object.entries(expensesByDate)] counts
    are the dates whose expenses add up to more than one and a half times
    the average. *)
Lemma high_spending_days_counted (month : list expense) (avg : number) :
  forallb positive_amount month = true ->
  forallb (fun exp => ordinary_label (date exp)) month = true ->
  List.length
    (filter
       (fun '(_, total) => (number_of total > avg * of_decimal false 15 (-1))%js)
       (Object_entries (expensesByDate month)))
  = high_spending_days month avg.
Proof.
  intros H O. unfold expensesByDate, high_spending_days.
  rewrite (totalsBy_grouped date month H O).
  rewrite (filter_length_perm _ _ _ (Object_entries_perm _)).
  rewrite as_numbers_grouped. now rewrite filter_length_map.
Qed.

Lemma rules_2_to_5_as_worded today month day :
  forallb positive_amount month = true ->
  forallb (fun exp => ordinary_label (category exp)) month = true ->
  forallb (fun exp => ordinary_label (date exp)) month = true ->
  rules_2_to_5 today month day = insights_of_rules today month day.
Proof.
  intros H Oc Od. unfold rules_2_to_5, insights_of_rules.
  rewrite (rule_highest_category_highest month H Oc).
  unfold rule_multiple_days.
  rewrite (high_spending_days_counted month _ H Od).
  reflexivity.
Qed.

(** C3. With a month that has expenses, the insights are those of rules 2
    to 5 in the order of the rules (above the daily average, highest
    category, several high-spending days, above the fixed threshold), each
    rule giving none or one, and the "under control" insight is there
    exactly when the four rules gave nothing.  The four rules are the
    rules as the specification words them, over totals computed group by
    group from the expenses: today's total above a positive daily average;
    the category of greatest total; three or more dates whose total is
    above one and a half times the average; today's total above 500.  For
    that the amounts are positive and no category or date is a name of
    [Object.prototype], as in the data model. *)
Theorem insights_follow_rule_order today month day :
  month <> [] ->
  deriveInsights today month day =
    match rules_2_to_5 today month day with
    | [] => [under_control]
    | r => r
    end
  /\ (List.length (rule_above_average today month day) <= 1
      /\ List.length (rule_highest_category month) <= 1
      /\ List.length (rule_multiple_days month day) <= 1
      /\ List.length (rule_above_threshold today) <= 1)%nat
  /\ (In under_control (deriveInsights today month day)
      <-> rules_2_to_5 today month day = [])
  /\ (forallb positive_amount month = true ->
      forallb (fun exp => ordinary_label (category exp)) month = true ->
      forallb (fun exp => ordinary_label (date exp)) month = true ->
      rules_2_to_5 today month day = insights_of_rules today month day
      /\ deriveInsights today month day = insights_of_rules today month day).
Proof.
  intros Hm.
  assert (E : deriveInsights today month day =
              match rules_2_to_5 today month day with
              | [] => [under_control]
              | r => r
              end).
  { unfold deriveInsights.
    now rewrite (renderInsights_nonempty_month today month day Hm). }
  split; [exact E|]. split; [|split].
  - unfold rule_above_average, rule_highest_category, rule_multiple_days,
      rule_above_threshold.
    repeat split.
    + destruct (_ && _); simpl; lia.
    + destruct (categories month) as [|[c t] l]; simpl; lia.
    + destruct (3 <=? _)%nat; simpl; lia.
    + destruct (_ > _)%js; simpl; lia.
  - rewrite E. pose proof (under_control_not_in_rules today month day) as N.
    destruct (rules_2_to_5 today month day) as [|r rs].
    + split; [reflexivity | intros _; now left].
    + split; [intros H; contradiction | discriminate].
  - intros H Oc Od.
    pose proof (rules_2_to_5_as_worded today month day H Oc Od) as R.
    split; [exact R|]. rewrite E, R.
    pose proof (rule_highest_category_highest month H Oc) as C.
    unfold insights_of_rules. rewrite <- C.
    assert (N : rule_highest_category month <> []).
    { unfold rule_highest_category.
      assert (S : existsb (fun exp => stored_label (category exp)) month
                  = true).
      { destruct month as [|e month]; [congruence|].
        cbn [existsb forallb] in *. apply andb_prop in Oc.
        destruct Oc as [Oe _]. unfold ordinary_label in Oe.
        unfold stored_label.
        destruct (String.eqb (category e) "__proto__") eqn:P;
          [|reflexivity].
        rewrite (proto_inherited _ P) in Oe. discriminate Oe. }
      pose proof (categories_not_nil month S) as K.
      destruct (categories month) as [|[c t] l]; [congruence | discriminate]. }
    destruct (rule_highest_category month) as [|r rs]; [congruence|].
    now destruct (_ && _).
Qed.

Lemma insights_follow_rule_order_witness :
  deriveInsights
    [sample "food" "600" "2023-11-14"]
    [sample "food" "600" "2023-11-14"; sample "travel" "100" "2023-11-01";
     sample "rent" "100" "2023-11-02"] (of_Z 30)
  = [above_average; highest_category "food"; multiple_days; above_threshold]
  /\ insights_of_rules
       [sample "food" "600" "2023-11-14"]
       [sample "food" "600" "2023-11-14"; sample "travel" "100" "2023-11-01";
        sample "rent" "100" "2023-11-02"] (of_Z 30)
     = [above_average; highest_category "food"; multiple_days;
        above_threshold].
Proof.
  destruct (insights_follow_rule_order
              [sample "food" "600" "2023-11-14"]
              [sample "food" "600" "2023-11-14";
               sample "travel" "100" "2023-11-01";
               sample "rent" "100" "2023-11-02"] (of_Z 30))
    as (_ & _ & _ & S).
  - discriminate.
  - destruct S as [_ S]; [reflexivity | reflexivity | reflexivity |].
    rewrite S. split; vm_compute; reflexivity.
Defined.

(** ** Whole amounts *)

(** Rounding is exact when the bits below the exponent of the format are
    all zero and the exponent is in range. *)
Lemma binary_round_exact s p e k :
  -1074 <= e ->
  Zdigits2 (Z.pos p) + e <= 1024 ->
  Z.pos p = k * 2 ^ Z.max 0 (fexp64 (Zdigits2 (Z.pos p) + e) - e) ->
  scaled (binary_round prec emax s p e) = cond_Zopp s (Z.pos p * 2 ^ (e + 1074)).
Proof.
  intros He HD Hk. unfold binary_round.
  change (Z.pos (digits2_pos p)) with (Zdigits2 (Z.pos p)).
  fold (fexp64 (Zdigits2 (Z.pos p) + e)).
  set (f := fexp64 (Zdigits2 (Z.pos p) + e)) in *.
  assert (Ff : f = Z.max (Zdigits2 (Z.pos p) + e - 53) (-1074))
    by apply fexp64_eq.
  destruct (shl_align_spec p e f) as [E M].
  destruct (shl_align p e f) as [mz ez]. cbn [fst snd] in E, M.
  assert (D : Zdigits2 (Z.pos mz) + ez = Zdigits2 (Z.pos p) + e).
  { rewrite M, Zdigits2_mul_pow2 by lia. lia. }
  assert (F : fexp64 (Zdigits2 (Z.pos mz) + ez) = f) by (now rewrite D).
  unfold binary_round_aux, shr_fexp. unfold fexp64 in F. rewrite F.
  cbn [shr_record_of_loc]. unfold shr at 1.
  destruct (f - ez) as [|n|n] eqn:N; [| |lia].
  - cbn [shr_m loc_of_shr_record round_nearest_even].
    rewrite F, N. cbn [shr shr_m].
    assert (B : (ez <=? emax - prec) = true)
      by (apply Z.leb_le; change (emax - prec) with 971; lia).
    rewrite B. cbn [scaled]. f_equal. rewrite M, <- Z.mul_assoc.
    rewrite <- Z.pow_add_r by lia. f_equal. f_equal. lia.
  - assert (X : ez = e) by lia. rewrite X in *.
    rewrite Z.sub_diag, Z.pow_0_r, Z.mul_1_r in M.
    assert (Pk : 0 < k).
    { assert (0 < 2 ^ Z.max 0 (f - e)) by (apply Z.pow_pos_nonneg; lia). nia. }
    rewrite Z.max_r in Hk by lia. rewrite N in Hk.
    assert (I : Nat.iter (Pos.to_nat n) shr_1
                  (Build_shr_record (k * 2 ^ Z.pos n) false false)
                = Build_shr_record k false false).
    { rewrite <- (positive_nat_Z n). apply shr_iter_exact. lia. }
    rewrite iter_pos_nat, M, Hk, !I.
    cbn [shr_m loc_of_shr_record round_nearest_even].
    assert (Dk : Zdigits2 k + (e + Z.pos n) = Zdigits2 (Z.pos p) + e).
    { rewrite Hk, Zdigits2_mul_pow2 by lia. lia. }
    unfold fexp64 in Dk, f. rewrite Dk. fold f. replace (f - (e + Z.pos n)) with 0 by lia.
    cbn [shr shr_m]. destruct k as [|q|q]; try lia.
    assert (B : (e + Z.pos n <=? emax - prec) = true)
      by (apply Z.leb_le; change (emax - prec) with 971; lia).
    rewrite B. cbn [scaled]. f_equal. rewrite <- Z.mul_assoc.
    rewrite <- Z.pow_add_r by lia. f_equal. f_equal. lia.
Qed.

Lemma Zdigits2_le m d : 0 < m < 2 ^ d -> 0 <= d -> Zdigits2 m <= d.
Proof.
  intros [P U] Hd. destruct (Zdigits2_bounds m P) as [[L _] D].
  destruct (Z.le_gt_cases (Zdigits2 m) d) as [|G]; [assumption|].
  assert (2 ^ d <= 2 ^ (Zdigits2 m - 1)) by (apply Z.pow_le_mono_r; lia).
  lia.
Qed.

Lemma of_Z_pos n :
  0 < n < 2 ^ 53 ->
  pos_valid (of_Z n) = true /\ scaled (of_Z n) = n * 2 ^ 1074.
Proof.
  intros H. destruct n as [|p|p]; try lia. unfold of_Z.
  cbn [binary_normalize].
  destruct (binary_round_valid false p 0) as [V S].
  assert (G : -1074 <= 0) by lia. specialize (S G).
  pose proof (Zdigits2_le (Z.pos p) 53 H ltac:(lia)) as D.
  destruct (Zdigits2_bounds (Z.pos p) ltac:(lia)) as [_ D1].
  split.
  - unfold pos_valid. rewrite V, andb_true_r.
    destruct S as [(q & e & ->)| ->]; reflexivity.
  - rewrite (binary_round_exact false p 0 (Z.pos p)); [reflexivity | lia | lia |].
    rewrite fexp64_eq. rewrite Z.max_l by lia. lia.
Qed.

Lemma integer_of_nonneg x : 0 <= integer_of x.
Proof.
  destruct x as [s|s| |[|] m e]; simpl; try lia.
  apply Z.shiftl_nonneg. lia.
Qed.

(** A whole number below 2^53 is a finite number whose exponent is not
    positive, with the mantissa that the exponent asks for. *)
Lemma of_Z_finite n :
  0 < n < 2 ^ 53 ->
  exists m e,
    of_Z n = S754_finite false m e
    /\ valid (S754_finite false m e) = true
    /\ e <= 0
    /\ Z.pos m = n * 2 ^ (- e).
Proof.
  intros H. destruct (of_Z_pos n H) as [V S].
  unfold pos_valid in V. apply andb_prop in V. destruct V as [P V].
  assert (L : n * 2 ^ 1074 < 2 ^ 2200).
  { apply Z.lt_trans with (2 ^ 53 * 2 ^ 1074).
    - apply Z.mul_lt_mono_pos_r; [apply Z.pow_pos_nonneg; lia | apply H].
    - rewrite <- Z.pow_add_r by lia. apply Z.pow_lt_mono_r; lia. }
  destruct (of_Z n) as [s|[|]| |[|] m e]; try discriminate.
  - exfalso. cbn [scaled cond_Zopp] in S. rewrite S in L.
    now apply Z.lt_irrefl in L.
  - exists m, e. cbn [scaled cond_Zopp] in S. clear L P.
    destruct (valid_finite _ _ _ V) as (_ & B & _ & N).
    assert (E : e <= 0).
    { destruct (Z.le_gt_cases e 0) as [|G]; [assumption|]. exfalso.
      assert (G' : -1074 < e) by lia. specialize (N G').
      rewrite Z.pow_add_r, Z.mul_assoc in S by lia.
      apply Z.mul_reg_r in S;
        [|apply Z.neq_sym, Z.lt_neq, Z.pow_pos_nonneg; lia].
      assert (2 ^ 1 <= 2 ^ e) by (apply Z.pow_le_mono_r; lia).
      change (2 ^ 1) with 2 in *. change (2 ^ 53) with (2 * 2 ^ 52) in H.
      assert (K : 0 < 2 ^ 52) by reflexivity.
      set (k := 2 ^ 52) in *. set (q := 2 ^ e) in *.
      assert (k * 2 <= Z.pos m * q) by nia. lia. }
    repeat split; try assumption.
    apply (Z.mul_reg_r _ _ (2 ^ (e + 1074)));
      [apply Z.neq_sym, Z.lt_neq, Z.pow_pos_nonneg; lia|].
    rewrite S, <- Z.mul_assoc, <- Z.pow_add_r by lia.
    f_equal. f_equal. lia.
Qed.

(** The sum of two whole numbers that stays below 2^53 is computed
    exactly. *)
Lemma add_of_Z_pos a b :
  0 < a -> 0 < b -> a + b < 2 ^ 53 ->
  (of_Z a + of_Z b)%js = of_Z (a + b).
Proof.
  intros Ha Hb Hs.
  assert (Ra : 0 < a < 2 ^ 53) by lia.
  assert (Rb : 0 < b < 2 ^ 53) by lia.
  assert (Rs : 0 < a + b < 2 ^ 53) by lia.
  destruct (of_Z_pos a Ra) as [Vx _].
  destruct (of_Z_pos b Rb) as [Vy _].
  destruct (of_Z_pos (a + b) Rs) as [Vz Sz].
  apply scaled_inj; [now apply add_pos_valid | assumption |].
  rewrite Sz. clear Vx Vy Vz Sz.
  destruct (of_Z_finite a Ra) as (mx & ex & -> & Vx & Ex & Mx).
  destruct (of_Z_finite b Rb) as (my & ey & -> & Vy & Ey & My).
  destruct (valid_finite _ _ _ Vx) as (_ & Bx & _).
  destruct (valid_finite _ _ _ Vy) as (_ & By & _).
  unfold add, SFadd. cbn [cond_Zopp Z.add binary_normalize].
  set (ez := Z.min ex ey).
  destruct (shl_align_spec mx ex ez) as [E1 M1].
  destruct (shl_align_spec my ey ez) as [E2 M2].
  rewrite E1 in M1. rewrite E2 in M2.
  replace (Z.min ex ez) with ez in M1 by lia.
  replace (Z.min ey ez) with ez in M2 by lia.
  set (p := (fst (shl_align mx ex ez) + fst (shl_align my ey ez))%positive).
  assert (Pn : Z.pos p = (a + b) * 2 ^ (- ez)).
  { unfold p. rewrite Pos2Z.inj_add, M1, M2, Mx, My, Z.mul_add_distr_r.
    rewrite <- !Z.mul_assoc, <- !Z.pow_add_r by lia.
    replace (- ex + (ex - ez)) with (- ez) by lia.
    replace (- ey + (ey - ez)) with (- ez) by lia.
    reflexivity. }
  assert (Dn : Zdigits2 (a + b) <= 53) by (apply Zdigits2_le; lia).
  destruct (Zdigits2_bounds (a + b) (proj1 Rs)) as [_ Dn1].
  assert (Dp : Zdigits2 (Z.pos p) + ez = Zdigits2 (a + b)).
  { rewrite Pn, Zdigits2_mul_pow2 by lia. lia. }
  rewrite (binary_round_exact false p ez
             ((a + b) * 2 ^ Z.min (- ez) (53 - Zdigits2 (a + b)))).
  - cbn [cond_Zopp]. rewrite Pn, <- Z.mul_assoc, <- Z.pow_add_r by lia.
    f_equal. f_equal. lia.
  - lia.
  - lia.
  - rewrite Dp, fexp64_eq, Pn, <- Z.mul_assoc, <- Z.pow_add_r by lia.
    f_equal. f_equal. lia.
Qed.

Lemma add_of_Z a b :
  0 <= a -> 0 <= b -> a + b < 2 ^ 53 -> (of_Z a + of_Z b)%js = of_Z (a + b).
Proof.
  intros Ha Hb Hs.
  destruct (Z.eq_dec a 0) as [->|Na].
  - destruct (Z.eq_dec b 0) as [->|Nb]; [reflexivity|].
    change (of_Z 0) with zero. rewrite Z.add_0_l.
    apply add_zero_l. apply of_Z_pos. lia.
  - destruct (Z.eq_dec b 0) as [->|Nb].
    + rewrite Z.add_0_r. change (of_Z 0) with zero.
      destruct (of_Z_pos a ltac:(lia)) as [V _].
      now destruct (of_Z a) as [s|[|]| |[|] m e].
    + apply add_of_Z_pos; lia.
Qed.

Lemma fold_whole (l : list expense) (s0 : Z) :
  forallb whole_amount l = true -> 0 <= s0 -> s0 + sum_whole l < 2 ^ 53 ->
  fold_left (fun sum exp => (sum + ToNumber (amount exp))%js) l (of_Z s0)
  = of_Z (s0 + sum_whole l).
Proof.
  revert s0. induction l as [|e l IH]; intros s0 W H0 Hs.
  - simpl. now rewrite Z.add_0_r.
  - cbn [forallb] in W. apply andb_prop in W. destruct W as [We Wl].
    cbn [sum_whole fold_right] in *. fold (sum_whole l) in *.
    unfold whole_amount in We. apply number_eqb_eq in We.
    pose proof (integer_of_nonneg (ToNumber (amount e))) as N.
    assert (S : 0 <= sum_whole l).
    { clear. induction l as [|e l IH]; simpl; [lia|].
      pose proof (integer_of_nonneg (ToNumber (amount e))). lia. }
    cbn [fold_left]. rewrite We at 1. rewrite add_of_Z by lia.
    rewrite IH by (assumption || lia). f_equal. lia.
Qed.

Lemma calculateTotal_whole (l : list expense) :
  forallb whole_amount l = true -> sum_whole l < 2 ^ 53 ->
  calculateTotal l = of_Z (sum_whole l).
Proof.
  intros W S. unfold calculateTotal. change zero with (of_Z 0).
  rewrite fold_whole by (assumption || lia). reflexivity.
Qed.

Lemma sum_whole_perm (l l' : list expense) :
  Permutation l l' -> sum_whole l = sum_whole l'.
Proof.
  induction 1; simpl; lia.
Qed.

Lemma forallb_perm {A : Type} (p : A -> bool) (l l' : list A) :
  Permutation l l' -> forallb p l = true -> forallb p l' = true.
Proof.
  intros P. rewrite !forallb_forall. intros H x Hx. apply H.
  apply (Permutation_in _ (Permutation_sym P)). exact Hx.
Qed.

(** C7, as amended.  The total of the empty sequence is 0.  The total is
    the sum of the amounts from left to right in binary64 arithmetic; when
    the amounts are whole numbers and their sum is below 2^53 every
    addition is exact, the total is that sum, and every permutation of the
    sequence has the same total. *)
Theorem total_order_independent_on_whole_amounts (l l' : list expense) :
  calculateTotal [] = zero
  /\ (forallb whole_amount l = true -> sum_whole l < 2 ^ 53 ->
      Permutation l l' ->
      calculateTotal l = of_Z (sum_whole l)
      /\ calculateTotal l' = calculateTotal l).
Proof.
  split; [reflexivity|]. intros W S P.
  rewrite (calculateTotal_whole l W S). split; [reflexivity|].
  rewrite (calculateTotal_whole l').
  - now rewrite (sum_whole_perm l l' P).
  - now apply (forallb_perm _ l l').
  - now rewrite <- (sum_whole_perm l l' P).
Qed.

Lemma total_order_independent_witness :
  calculateTotal [sample "rent" "200" "2023-11-02"; sample "food" "100" "2023-11-01"]
  = calculateTotal [sample "food" "100" "2023-11-01"; sample "rent" "200" "2023-11-02"].
Proof.
  apply (total_order_independent_on_whole_amounts
           [sample "food" "100" "2023-11-01"; sample "rent" "200" "2023-11-02"]
           [sample "rent" "200" "2023-11-02"; sample "food" "100" "2023-11-01"]).
  - vm_compute. reflexivity.
  - vm_compute. reflexivity.
  - apply perm_swap.
Defined.

(** C7 as stated fails: the amounts 0.1, 0.2 and 0.3 add up to
    0.6000000000000001 in that order and to 0.6 in the reverse order. *)
Lemma total_depends_on_order :
  Permutation
    [sample "tea" "0.1" "2023-11-01"; sample "bus" "0.2" "2023-11-01";
     sample "pen" "0.3" "2023-11-01"]
    [sample "pen" "0.3" "2023-11-01"; sample "bus" "0.2" "2023-11-01";
     sample "tea" "0.1" "2023-11-01"]
  /\ calculateTotal
       [sample "tea" "0.1" "2023-11-01"; sample "bus" "0.2" "2023-11-01";
        sample "pen" "0.3" "2023-11-01"]
     <> calculateTotal
       [sample "pen" "0.3" "2023-11-01"; sample "bus" "0.2" "2023-11-01";
        sample "tea" "0.1" "2023-11-01"].
Proof.
  split.
  - apply (Permutation_rev
             [sample "tea" "0.1" "2023-11-01"; sample "bus" "0.2" "2023-11-01";
              sample "pen" "0.3" "2023-11-01"]).
  - vm_compute. discriminate.
Qed.

(** * Further properties of the store *)

(** X1.  A submission is either refused, and then nothing is stored, or
    it adds one record at the end of the collection; the record added has
    the trimmed name, and an amount that is above zero or no number at
    all: no zero and no negative amount is stored through the form. *)
Theorem handleFormSubmit_effect st c n a cat :
  match handleFormSubmit st c n a cat with
  | (st', Alert _) => st' = st
  | (st', Added exp) =>
      getExpenses st' = getExpenses st ++ [reloaded exp]
      /\ name exp = trim n
      /\ amount exp = VNum (parseFloat a)
      /\ (is_positive (parseFloat a) = true \/ parseFloat a = nan)
      /\ n <> ""%string
  end.
Proof.
  unfold handleFormSubmit.
  destruct (empty n || empty a || (parseFloat a <= zero)%js) eqn:G;
    [reflexivity|].
  apply orb_false_elim in G. destruct G as [G G3].
  apply orb_false_elim in G. destruct G as [G1 _].
  pose proof (getExpenses_addExpense st c n a cat) as E.
  destruct (addExpense st c n a cat) as [st' exp] eqn:A.
  cbn [fst snd] in E. split; [exact E|].
  unfold addExpense in A. injection A as _ <-. cbn [name amount].
  repeat split.
  - unfold le, SFleb in G3.
    destruct (parseFloat a) as [[|]|[|]| |[|] m e]; simpl in *;
      try discriminate; auto.
  - intros ->. discriminate G1.
Qed.

(** X2.  Deleting the id of the record just added gives back the
    collection as it was, when no record had that id before. *)
Theorem add_then_delete st c n a cat :
  forallb (fun exp => negb (id exp =? now c)) (getExpenses st) = true ->
  let r := addExpense st c n a cat in
  getExpenses (deleteExpense (fst r) (id (snd r))) = getExpenses st.
Proof.
  intros F r. rewrite getExpenses_deleteExpense.
  unfold r. rewrite getExpenses_addExpense, filter_app.
  cbn [filter]. rewrite reloaded_id.
  change (id (snd (addExpense st c n a cat))) with (now c).
  rewrite Z.eqb_refl. cbn [negb]. rewrite app_nil_r.
  now apply filter_all.
Qed.

Lemma add_then_delete_witness :
  getExpenses
    (deleteExpense (fst (addExpense None the_clock "tea" "10" "food"))
                   (id (snd (addExpense None the_clock "tea" "10" "food"))))
  = getExpenses None.
Proof.
  apply (add_then_delete None the_clock "tea" "10" "food").
  reflexivity.
Defined.

Lemma filter_comm {A : Type} (p q : A -> bool) (l : list A) :
  filter p (filter q l) = filter q (filter p l).
Proof.
  induction l as [|a l IH]; [reflexivity|]. simpl.
  destruct (p a) eqn:P, (q a) eqn:Q; simpl; rewrite ?P, ?Q, IH; reflexivity.
Qed.

Lemma filter_subsequence {A : Type} (keep : A -> bool) (l : list A) :
  subsequence (filter keep l) l.
Proof.
  induction l as [|a l IH]; cbn [filter]; [constructor|].
  destruct (keep a); now constructor.
Qed.

(** X3.  Deletions commute, and a deletion never adds or reorders: what is
    left is the collection with some records left out, the others in
    their order; the records left out are those of the id, all of them and
    no other. *)
Theorem deleteExpense_commutes st i j :
  getExpenses (deleteExpense (deleteExpense st i) j)
  = getExpenses (deleteExpense (deleteExpense st j) i)
  /\ subsequence (getExpenses (deleteExpense st i)) (getExpenses st)
  /\ (List.length (getExpenses (deleteExpense st i))
      + List.length (filter (fun exp => (id exp =? i)%Z) (getExpenses st))
      = List.length (getExpenses st))%nat
  /\ (forall x, In x (getExpenses (deleteExpense st i))
                <-> In x (getExpenses st) /\ id x <> i)
  /\ incl (getExpenses (deleteExpense st i)) (getExpenses st)
  /\ (List.length (getExpenses (deleteExpense st i))
      <= List.length (getExpenses st))%nat
  /\ ~ In i (map id (getExpenses (deleteExpense st i))).
Proof.
  rewrite !getExpenses_deleteExpense.
  split; [apply filter_comm|]. split; [apply filter_subsequence|].
  split; [|split; [|split; [|split]]].
  - pose proof (filter_length (fun exp => (id exp =? i)%Z) (getExpenses st))
      as L.
    lia.
  - intros x. rewrite filter_In, negb_true_iff, Z.eqb_neq. reflexivity.
  - intros x Hx. now apply filter_In in Hx.
  - apply filter_length_le.
  - intros H. apply in_map_iff in H. destruct H as (x & <- & Hx).
    apply filter_In in Hx. destruct Hx as [_ Hx].
    now rewrite Z.eqb_refl in Hx.
Qed.

(** What the stored text makes of an amount: NaN and the infinities come
    back as [null], [-0] as [0], every other amount as it is. *)
Lemma amount_reloaded (exp : expense) :
  amount (reloaded exp) =
  match amount exp with
  | VNum (S754_zero _) => VNum zero
  | VNum (S754_infinity _) | VNum S754_nan => VNull
  | v => v
  end.
Proof. now destruct exp as [i n [[s|s| |s m e]|] c d t]. Qed.

(** X4.  What is read after a save: an amount that was NaN or an infinity
    is [null], an amount [-0] is [0], every other amount is as it was
    saved.  So the amounts read are [null] or finite numbers other than
    [-0], and saving what was read writes the same text again: the
    collection as read is a fixed point of saving and loading. *)
Theorem storage_holds_safe_amounts (l : list expense) :
  let st := saveExpenses l in
  map amount (getExpenses st) =
    map (fun exp =>
           match amount exp with
           | VNum (S754_zero _) => VNum zero
           | VNum (S754_infinity _) | VNum S754_nan => VNull
           | v => v
           end) l
  /\ forallb (fun exp => json_safe (amount exp)) (getExpenses st) = true
  /\ saveExpenses (getExpenses st) = st
  /\ getExpenses (saveExpenses (getExpenses st)) = getExpenses st.
Proof.
  cbv zeta. rewrite getExpenses_saveExpenses. split; [|split; [|split]].
  - rewrite map_map. apply map_ext. apply amount_reloaded.
  - apply forallb_forall. intros x Hx. apply in_map_iff in Hx.
    destruct Hx as (e & <- & _). rewrite amount_reloaded.
    now destruct (amount e) as [[[|]|s| |s m e']|].
  - unfold saveExpenses. f_equal. unfold JSON_stringify.
    rewrite map_map. apply map_ext. intros e.
    unfold reloaded. apply stringify_parse_expense.
  - rewrite <- getExpenses_saveExpenses. apply saveExpenses_getExpenses.
Qed.


(** X5.  The total of one or more positive amounts is a positive number
    (it may be [Infinity]); it is never NaN and never zero. *)
Theorem total_of_positive_amounts (l : list expense) :
  l <> [] -> forallb positive_amount l = true ->
  is_positive (calculateTotal l) = true
  /\ valid (calculateTotal l) = true
  /\ calculateTotal l <> nan
  /\ truthy (calculateTotal l) = true.
Proof.
  intros N P. pose proof (calculateTotal_pos_valid l N P) as V.
  pose proof (pos_valid_truthy _ V) as T.
  unfold pos_valid in V. apply andb_prop in V. destruct V as [V1 V2].
  repeat split; try assumption.
  intros E. rewrite E in V1. discriminate V1.
Qed.

Lemma total_of_positive_amounts_witness :
  is_positive
    (calculateTotal [sample "food" "0.1" "2023-11-14";
                     sample "food" "0.2" "2023-11-14"]) = true.
Proof.
  apply (total_of_positive_amounts
           [sample "food" "0.1" "2023-11-14"; sample "food" "0.2" "2023-11-14"]).
  - discriminate.
  - vm_compute. reflexivity.
Defined.

(** * Further properties of the aggregation *)

Lemma keys_set (o : object) (k : string) (v : property) :
  map fst (set o k v) =
  if existsb (String.eqb k) (map fst o) then map fst o else map fst o ++ [k].
Proof.
  induction o as [|[k' v'] o IH]; [reflexivity|].
  cbn [set map fst existsb]. rewrite (String.eqb_sym k k').
  destruct (String.eqb k' k) eqn:E; cbn [map fst orb]; [reflexivity|].
  rewrite IH. now destruct (existsb (String.eqb k) (map fst o)).
Qed.

Lemma totalsBy_snoc (key : expense -> string) (l : list expense)
    (e : expense) :
  totalsBy key (l ++ [e]) =
  assign (totalsBy key l) (key e)
         (plus_amount (totalsBy key l) (key e) (amount e)).
Proof. unfold totalsBy. now rewrite fold_left_app. Qed.

(** The keys of the object of totals are the labels of the expenses other
    than [__proto__], each once. *)
Lemma totalsBy_keys (key : expense -> string) (l : list expense) :
  NoDup (map fst (totalsBy key l))
  /\ forall c, In c (map fst (totalsBy key l))
               <-> In c (map key l) /\ c <> "__proto__"%string.
Proof.
  induction l as [|e l [N K]] using rev_ind.
  - split; [constructor | simpl; tauto].
  - rewrite totalsBy_snoc. unfold assign.
    rewrite map_app. cbn [map].
    destruct (String.eqb (key e) "__proto__") eqn:P.
    + apply String.eqb_eq in P. split; [exact N|].
      intros c. rewrite K, in_app_iff. simpl. intuition congruence.
    + apply String.eqb_neq in P. rewrite keys_set.
      destruct (existsb (String.eqb (key e)) (map fst (totalsBy key l))) eqn:E.
      * apply existsb_eqb_In in E. apply K in E. split; [exact N|].
        intros c. rewrite K, in_app_iff. simpl. intuition congruence.
      * assert (NI : ~ In (key e) (map fst (totalsBy key l))).
        { intros I. apply existsb_eqb_In in I. congruence. }
        split.
        -- apply NoDup_app; [exact N | repeat constructor; simpl; tauto |].
           intros x Hx [<-|[]]. contradiction.
        -- intros c. rewrite !in_app_iff, K. simpl. intuition congruence.
Qed.

Lemma categories_perm (l : list expense) :
  Permutation (categories l) (categoryTotals l).
Proof.
  unfold categories. rewrite sort_perm. apply Object_entries_perm.
Qed.

(** X6.  The breakdown has each category of the expenses once (the label
    [__proto__] apart, which never gets a total), and no other label; so it
    is never longer than the list of expenses. *)
Theorem categories_labels (monthExpenses : list expense) :
  NoDup (map fst (categories monthExpenses))
  /\ (forall c, In c (map fst (categories monthExpenses))
                <-> In c (map category monthExpenses)
                    /\ c <> "__proto__"%string)
  /\ (List.length (categories monthExpenses)
      <= List.length monthExpenses)%nat.
Proof.
  pose proof (Permutation_map fst (categories_perm monthExpenses)) as P.
  destruct (totalsBy_keys category monthExpenses) as [N K].
  fold (categoryTotals monthExpenses) in N, K.
  assert (N' : NoDup (map fst (categories monthExpenses))).
  { apply (Permutation_NoDup (Permutation_sym P)). exact N. }
  split; [exact N'|]. split.
  - intros c. rewrite <- K. split; apply Permutation_in;
      [exact P | exact (Permutation_sym P)].
  - rewrite <- (length_map fst (categories monthExpenses)).
    rewrite <- (length_map category monthExpenses).
    apply NoDup_incl_length; [exact N'|].
    intros c Hc. apply (Permutation_in _ P) in Hc. now apply K in Hc.
Qed.

Lemma map_flag_tail (c : string) (rest : list (string * property)) :
  ~ In c (map fst rest) ->
  map (fun '(category, total) => (category, total, String.eqb category c)) rest
  = map (fun p => (fst p, snd p, false)) rest.
Proof.
  intros N. apply map_ext_in. intros [k v] H. cbn [fst snd].
  destruct (String.eqb k c) eqn:E; [|reflexivity].
  apply String.eqb_eq in E. subst k. exfalso. apply N.
  apply in_map_iff. now exists (c, v).
Qed.

Lemma renderCategoryBreakdown_rows (monthExpenses : list expense)
    (c : string) (t : property) (rest : list (string * property)) :
  monthExpenses <> [] ->
  categories monthExpenses = (c, t) :: rest ->
  renderCategoryBreakdown monthExpenses
  = CategoryItems ((c, t, true) :: map (fun p => (fst p, snd p, false)) rest)
  /\ ~ In c (map fst rest).
Proof.
  intros Hm E.
  assert (N : ~ In c (map fst rest)).
  { destruct (totalsBy_keys category monthExpenses) as [N _].
    fold (categoryTotals monthExpenses) in N.
    apply (Permutation_NoDup
             (Permutation_sym
                (Permutation_map fst (categories_perm monthExpenses)))) in N.
    rewrite E in N. cbn [map fst] in N. now inversion N. }
  split; [|exact N]. unfold renderCategoryBreakdown.
  destruct monthExpenses as [|e0 l0]; [congruence|].
  change (List.length (e0 :: l0) =? 0)%nat with false. cbv iota zeta.
  rewrite E. cbn [map]. rewrite String.eqb_refl. f_equal. f_equal.
  now apply map_flag_tail.
Qed.

Lemma renderCategoryBreakdown_throws (monthExpenses : list expense) :
  renderCategoryBreakdown monthExpenses = BreakdownTypeError
  <-> monthExpenses <> []
      /\ forallb (fun exp => String.eqb (category exp) "__proto__")
                 monthExpenses = true.
Proof.
  assert (K : forall c, In c (map fst (categories monthExpenses))
                        <-> In c (map category monthExpenses)
                            /\ c <> "__proto__"%string).
  { intros c.
    destruct (totalsBy_keys category monthExpenses) as [_ K].
    fold (categoryTotals monthExpenses) in K. rewrite <- K.
    pose proof (Permutation_map fst (categories_perm monthExpenses)) as P.
    split; apply Permutation_in; [exact P | exact (Permutation_sym P)]. }
  unfold renderCategoryBreakdown.
  destruct monthExpenses as [|e0 l0].
  - simpl. split; [discriminate | intros [H _]; congruence].
  - change (List.length (e0 :: l0) =? 0)%nat with false. cbv iota zeta.
    destruct (categories (e0 :: l0)) as [|[c t] rest] eqn:E.
    + split; [|reflexivity]. intros _. split; [discriminate|].
      apply forallb_forall. intros x Hx.
      destruct (String.eqb (category x) "__proto__") eqn:P; [reflexivity|].
      apply String.eqb_neq in P. exfalso.
      apply (proj2 (K (category x))). split; [now apply in_map | exact P].
    + split; [discriminate|]. intros [_ F]. exfalso.
      assert (I : In c (map fst ((c, t) :: rest))) by now left.
      apply K in I. destruct I as [I NP].
      apply in_map_iff in I. destruct I as (x & <- & Hx).
      rewrite forallb_forall in F. specialize (F x Hx).
      apply String.eqb_eq in F. contradiction.
Qed.

(** X7.  [renderCategoryBreakdown] shows the message of the empty month
    when there is no expense; otherwise it lists the categories in the
    order of [categories] and gives the badge of the highest category to
    the first item and to no other.  It throws exactly when the month has
    expenses and all of them have the category [__proto__]. *)
Theorem renderCategoryBreakdown_badge (monthExpenses : list expense) :
  (monthExpenses = [] ->
   renderCategoryBreakdown monthExpenses
   = NoExpenses "No expenses recorded this month")
  /\ (forall c t rest,
        monthExpenses <> [] ->
        categories monthExpenses = (c, t) :: rest ->
        renderCategoryBreakdown monthExpenses
        = CategoryItems
            ((c, t, true) :: map (fun p => (fst p, snd p, false)) rest))
  /\ (renderCategoryBreakdown monthExpenses = BreakdownTypeError
      <-> monthExpenses <> []
          /\ forallb (fun exp => String.eqb (category exp) "__proto__")
                     monthExpenses = true).
Proof.
  split; [intros ->; reflexivity|]. split.
  - intros c t rest Hm E.
    now destruct (renderCategoryBreakdown_rows monthExpenses c t rest Hm E).
  - apply renderCategoryBreakdown_throws.
Qed.

Lemma renderCategoryBreakdown_badge_witness :
  renderCategoryBreakdown
    [sample "food" "100" "2023-11-01"; sample "travel" "50" "2023-11-02";
     sample "food" "25" "2023-11-03"]
  = CategoryItems
      [("food"%string, PNum (of_Z 125), true);
       ("travel"%string, PNum (of_Z 50), false)].
Proof.
  destruct (renderCategoryBreakdown_badge
              [sample "food" "100" "2023-11-01";
               sample "travel" "50" "2023-11-02";
               sample "food" "25" "2023-11-03"]) as (_ & H & _).
  rewrite (H "food"%string (PNum (of_Z 125))
             [("travel"%string, PNum (of_Z 50))]).
  - reflexivity.
  - discriminate.
  - vm_compute. reflexivity.
Defined.

(** ** The insights, message by message *)

Lemma append_same_length (c p s t : string) :
  String.length s = String.length t ->
  (c ++ s)%string = (p ++ t)%string -> s = t.
Proof.
  revert p. induction c as [|a c IH]; intros p L E.
  - destruct p as [|b p]; [exact E|]. exfalso.
    apply (f_equal String.length) in E. cbn [append] in E.
    change (String.length (String b (p ++ t)))
      with (S (String.length (p ++ t))) in E.
    rewrite length_append in E. lia.
  - destruct p as [|b p].
    + exfalso. apply (f_equal String.length) in E. cbn [append] in E.
      change (String.length (String a (c ++ s)))
        with (S (String.length (c ++ s))) in E.
      rewrite length_append in E. lia.
    + cbn [append] in E. injection E as _ E. now apply (IH p).
Qed.

Lemma highest_category_not_no_data (c : string) :
  highest_category c <> no_data.
Proof.
  intros E. apply (f_equal String.length) in E.
  unfold highest_category in E. rewrite length_append in E.
  change (String.length no_data) with 41%nat in E.
  change (String.length " expenses are your highest spending category.")
    with 45%nat in E.
  lia.
Qed.

Lemma highest_category_not_above_threshold (c : string) :
  highest_category c <> above_threshold.
Proof.
  intros E. apply (f_equal String.length) in E.
  unfold highest_category in E. rewrite length_append in E.
  change (String.length above_threshold) with 32%nat in E.
  change (String.length " expenses are your highest spending category.")
    with 45%nat in E.
  lia.
Qed.

Lemma highest_category_not_above_average (c : string) :
  highest_category c <> above_average.
Proof.
  unfold highest_category.
  change above_average
    with ("" ++ "You spent more than your daily average today.")%string.
  intros E. apply append_same_length in E; [discriminate E | reflexivity].
Qed.

Lemma highest_category_not_multiple_days (c : string) :
  highest_category c <> multiple_days.
Proof.
  unfold highest_category.
  change multiple_days
    with ("High s" ++ "pending detected on multiple days this month.")%string.
  intros E. apply append_same_length in E; [discriminate E | reflexivity].
Qed.

Lemma deriveInsights_cases today month day :
  (month = [] /\ deriveInsights today month day = [no_data])
  \/ (month <> [] /\ rules_2_to_5 today month day = []
      /\ deriveInsights today month day = [under_control])
  \/ (month <> [] /\ rules_2_to_5 today month day <> []
      /\ deriveInsights today month day = rules_2_to_5 today month day).
Proof.
  destruct month as [|e month]; [left; now split|]. right.
  assert (Hm : e :: month <> []) by discriminate.
  unfold deriveInsights.
  rewrite (renderInsights_nonempty_month today (e :: month) day Hm).
  destruct (rules_2_to_5 today (e :: month) day) eqn:R.
  - left. repeat split; assumption.
  - right. repeat split; [assumption | discriminate].
Qed.

(** Each of the fixed insights is there exactly when the test of its
    rule succeeds. *)
Lemma insights_by_condition today month day :
  let avg := avgDaily (calculateTotal month) day in
  let shown := deriveInsights today month day in
  (In no_data shown <-> month = [])
  /\ (In above_average shown
      <-> month <> []
          /\ (calculateTotal today > avg)%js && (avg > zero)%js = true)
  /\ (In multiple_days shown
      <-> month <> []
          /\ (3 <= List.length
                (filter
                   (fun '(_, total) =>
                      (number_of total > avg * of_decimal false 15 (-1))%js)
                   (Object_entries (expensesByDate month))))%nat)
  /\ (In above_threshold shown
      <-> month <> [] /\ (calculateTotal today > of_Z 500)%js = true)
  /\ (1 <= List.length shown <= 4)%nat.
Proof.
  intros avg shown.
  assert (R : forall msg,
             In msg (rules_2_to_5 today month day) <->
             (msg = above_average
              /\ (calculateTotal today > avg)%js && (avg > zero)%js = true)
             \/ (exists c t l,
                   categories month = (c, t) :: l /\ msg = highest_category c)
             \/ (msg = multiple_days
                 /\ (3 <= List.length
                       (filter
                          (fun '(_, total) =>
                             (number_of total
                              > avg * of_decimal false 15 (-1))%js)
                          (Object_entries (expensesByDate month))))%nat)
             \/ (msg = above_threshold
                 /\ (calculateTotal today > of_Z 500)%js = true)).
  { intros msg. unfold rules_2_to_5, rule_above_average,
      rule_highest_category, rule_multiple_days, rule_above_threshold.
    fold avg. rewrite !in_app_iff.
    assert (A : forall (b : bool) (m : string),
               In msg (if b then [m] else []) <-> msg = m /\ b = true).
    { intros [|] m; simpl; intuition congruence. }
    rewrite !A. rewrite Nat.leb_le.
    assert (C : In msg match categories month with
                       | (c, _) :: _ => [highest_category c]
                       | [] => []
                       end
                <-> exists c t l,
                      categories month = (c, t) :: l
                      /\ msg = highest_category c).
    { destruct (categories month) as [|[c t] l]; simpl.
      - split; [tauto | intros (c & t & l & E & _); discriminate].
      - split.
        + intros [<-|[]]. now exists c, t, l.
        + intros (c' & t' & l' & E & ->). left. congruence. }
    rewrite C. tauto. }
  assert (L : (List.length (rules_2_to_5 today month day) <= 4)%nat).
  { unfold rules_2_to_5, rule_above_average, rule_highest_category,
      rule_multiple_days, rule_above_threshold.
    rewrite !length_app.
    destruct (_ && _); destruct (categories month) as [|[c t] l];
      destruct (3 <=? _)%nat; destruct (_ > of_Z 500)%js; simpl; lia. }
  assert (N : forall msg c, msg = no_data \/ msg = above_average
                            \/ msg = multiple_days \/ msg = above_threshold ->
                            msg <> highest_category c).
  { intros msg c [-> | [-> | [-> | ->]]] E; symmetry in E.
    - now apply highest_category_not_no_data in E.
    - now apply highest_category_not_above_average in E.
    - now apply highest_category_not_multiple_days in E.
    - now apply highest_category_not_above_threshold in E. }
  destruct (deriveInsights_cases today month day)
    as [[Hm E] | [(Hm & E0 & E) | (Hm & E0 & E)]]; subst shown; rewrite E.
  - subst month.
    assert (F : forall (msg : string) (P : Prop),
               msg <> no_data ->
               In msg [no_data] <-> @nil expense <> [] /\ P).
    { intros msg P D. split; [intros [H|[]]; congruence | intros [H _]; congruence]. }
    split; [split; [reflexivity | intros _; now left]|].
    split; [apply F; discriminate|].
    split; [apply F; discriminate|].
    split; [apply F; discriminate|].
    simpl. lia.
  - assert (R0 : forall msg, ~ In msg (rules_2_to_5 today month day)).
    { intros msg. rewrite E0. simpl. tauto. }
    split; [|split; [|split; [|split]]].
    + split; [intros [H|[]]; discriminate H | intros ->; congruence].
    + split; [intros [H|[]]; discriminate H|].
      intros [_ H]. exfalso. apply (R0 above_average), R. left. now split.
    + split; [intros [H|[]]; discriminate H|].
      intros [_ H]. exfalso. apply (R0 multiple_days), R.
      right. right. left. now split.
    + split; [intros [H|[]]; discriminate H|].
      intros [_ H]. exfalso. apply (R0 above_threshold), R.
      right. right. right. now split.
    + simpl. lia.
  - split; [|split; [|split; [|split]]].
    + split; [|intros ->; congruence]. intros H. exfalso. apply R in H.
      destruct H as [[H _] | [(c & t & l & _ & H) | [[H _] | [H _]]]];
        try discriminate H.
      now apply (N no_data c) in H; [|left].
    + rewrite R. split.
      * intros [[_ H] | [(c & t & l & _ & H) | [[H _] | [H _]]]];
          try discriminate H; [now split|].
        apply (N above_average c) in H; [contradiction | tauto].
      * intros [_ H]. left. now split.
    + rewrite R. split.
      * intros [[H _] | [(c & t & l & _ & H) | [[_ H] | [H _]]]];
          try discriminate H; [|now split].
        apply (N multiple_days c) in H; [contradiction | tauto].
      * intros [_ H]. right. right. left. now split.
    + rewrite R. split.
      * intros [[H _] | [(c & t & l & _ & H) | [[H _] | [_ H]]]];
          try discriminate H; [|now split].
        apply (N above_threshold c) in H; [contradiction | tauto].
      * intros [_ H]. right. right. right. now split.
    + split; [|exact L].
      destruct (rules_2_to_5 today month day); [congruence | simpl; lia].
Qed.

(** X8.  Each of the fixed insights is displayed exactly when its
    condition holds: the text of the empty month when the month has no
    expense, and otherwise the insight of the daily average when today's
    total is above a positive average, the insight of the 500 threshold
    when today's total is above 500, and, the amounts being positive and
    no date a name of [Object.prototype], the insight of the high-spending
    days when three or more dates of the month have expenses adding up to
    more than one and a half times the average; whatever the other rules
    give and whatever the categories are called.  There are between one
    and four insights. *)
Theorem insight_shown_iff_rule_fires today month day :
  let avg := avgDaily (calculateTotal month) day in
  let shown := deriveInsights today month day in
  (In no_data shown <-> month = [])
  /\ (In above_average shown
      <-> month <> []
          /\ (calculateTotal today > avg)%js && (avg > zero)%js = true)
  /\ (forallb positive_amount month = true ->
      forallb (fun exp => ordinary_label (date exp)) month = true ->
      (In multiple_days shown
       <-> month <> [] /\ (3 <= high_spending_days month avg)%nat))
  /\ (In above_threshold shown
      <-> month <> [] /\ (calculateTotal today > of_Z 500)%js = true)
  /\ (1 <= List.length shown <= 4)%nat.
Proof.
  intros avg shown.
  destruct (insights_by_condition today month day) as (N & A & M & T & L).
  fold avg in A, M. fold shown in N, A, M, T, L.
  split; [exact N|]. split; [exact A|].
  split; [|split; [exact T | exact L]].
  intros H O. rewrite M.
  now rewrite (high_spending_days_counted month avg H O).
Qed.

Lemma insight_shown_iff_rule_fires_witness :
  high_spending_days
    [sample "food" "100" "2023-11-01"; sample "food" "100" "2023-11-02";
     sample "rent" "100" "2023-11-03"]
    (avgDaily (of_Z 300) (of_Z 30)) = 3%nat
  /\ In multiple_days
       (deriveInsights []
          [sample "food" "100" "2023-11-01"; sample "food" "100" "2023-11-02";
           sample "rent" "100" "2023-11-03"] (of_Z 30)).
Proof.
  split; [vm_compute; reflexivity|].
  destruct (insight_shown_iff_rule_fires []
              [sample "food" "100" "2023-11-01";
               sample "food" "100" "2023-11-02";
               sample "rent" "100" "2023-11-03"] (of_Z 30))
    as (_ & _ & M & _).
  apply M; [reflexivity | reflexivity |].
  split; [discriminate | vm_compute; lia].
Defined.

(** ** The highest category *)

Lemma le_refl_pos_valid x : pos_valid x = true -> (x <= x)%js = true.
Proof.
  intros H. rewrite le_scaled by assumption. apply Z.leb_refl.
Qed.

(** X9.  For a month of positive amounts whose categories are no names of
    [Object.prototype], the category that [renderInsights] names as the
    highest and that [renderCategoryBreakdown] lists first, with the badge,
    is a category of the month whose total is at least the total of every
    category of the month. *)
Theorem highest_category_has_largest_total today month day :
  let total_of c :=
    calculateTotal (filter (fun exp => String.eqb (category exp) c) month) in
  month <> [] ->
  forallb positive_amount month = true ->
  forallb (fun exp => ordinary_label (category exp)) month = true ->
  exists c rest,
    In c (map category month)
    /\ In (highest_category c) (deriveInsights today month day)
    /\ renderCategoryBreakdown month
       = CategoryItems ((c, PNum (total_of c), true) :: rest)
    /\ forall c', In c' (map category month) ->
                  (total_of c' <= total_of c)%js = true.
Proof.
  intros total_of Hm H O.
  assert (G : Permutation (categories month)
                          (as_numbers (grouped category month))).
  { unfold categories, categoryTotals.
    rewrite (totalsBy_grouped category month H O), sort_perm.
    apply Object_entries_perm. }
  assert (S : StronglySorted
                (descending (fun p : string * property => number_of (snd p)))
                (categories month)).
  { unfold categories, categoryTotals.
    rewrite (totalsBy_grouped category month H O).
    apply (sort_descending (fun p => number_of (snd p))).
    apply Forall_forall. intros p Hp.
    apply (Permutation_in _ (Object_entries_perm _)) in Hp.
    unfold as_numbers in Hp. apply in_map_iff in Hp.
    destruct Hp as (q & <- & Hq). cbn [snd number_of].
    apply grouped_keys in Hq. destruct Hq as [K ->].
    now apply group_total_pos_valid. }
  assert (M : forall p, In p (categories month) <->
                        In (fst p) (map category month)
                        /\ snd p = PNum (total_of (fst p))).
  { intros p. split.
    - intros Hp. apply (Permutation_in _ G) in Hp.
      unfold as_numbers in Hp. apply in_map_iff in Hp.
      destruct Hp as (q & <- & Hq). cbn [fst snd].
      apply grouped_keys in Hq. destruct Hq as [K ->]. now split.
    - intros [K E]. apply (Permutation_in _ (Permutation_sym G)).
      rewrite as_numbers_grouped. apply in_map_iff.
      exists (fst p). split; [|now apply In_first_seen].
      destruct p as [k v]. cbn [fst snd] in *. now rewrite E. }
  destruct (categories month) as [|[c t] l] eqn:E.
  - exfalso. destruct month as [|e month]; [congruence|].
    apply (M (category e, PNum (total_of (category e)))).
    split; [now left | reflexivity].
  - destruct (proj1 (M (c, t)) (or_introl eq_refl)) as [K T].
    cbn [fst snd] in K, T. subst t.
    destruct (renderCategoryBreakdown_rows month c (PNum (total_of c)) l Hm E)
      as [B _].
    exists c, (map (fun p => (fst p, snd p, false)) l).
    split; [exact K|]. split; [|split; [exact B|]].
    + destruct (deriveInsights_cases today month day)
        as [[Hm' _] | [(_ & E0 & _) | (_ & _ & ->)]]; [congruence | |].
      * exfalso. unfold rules_2_to_5, rule_highest_category in E0.
        rewrite E in E0. apply app_eq_nil in E0. destruct E0 as [_ E0].
        discriminate E0.
      * unfold rules_2_to_5, rule_highest_category. rewrite E.
        rewrite !in_app_iff. right. left. now left.
    + intros c' K'.
      assert (I : In (c', PNum (total_of c'))
                     ((c, PNum (total_of c)) :: l)).
      { apply M. now split. }
      destruct I as [I|I].
      * injection I as <-. apply le_refl_pos_valid.
        now apply group_total_pos_valid.
      * inversion S as [|? ? _ F]; subst.
        rewrite Forall_forall in F. exact (F _ I).
Qed.

Lemma highest_category_has_largest_total_witness :
  exists c rest,
    In c ["food"; "travel"; "food"]%string
    /\ In (highest_category c)
          (deriveInsights []
             [sample "food" "100" "2023-11-01";
              sample "travel" "50" "2023-11-02";
              sample "food" "25" "2023-11-03"] (of_Z 3))
    /\ renderCategoryBreakdown
         [sample "food" "100" "2023-11-01"; sample "travel" "50" "2023-11-02";
          sample "food" "25" "2023-11-03"]
       = CategoryItems
           ((c,
             PNum (calculateTotal
                     (filter (fun exp => String.eqb (category exp) c)
                        [sample "food" "100" "2023-11-01";
                         sample "travel" "50" "2023-11-02";
                         sample "food" "25" "2023-11-03"])),
             true) :: rest).
Proof.
  destruct (highest_category_has_largest_total
              [] [sample "food" "100" "2023-11-01";
                  sample "travel" "50" "2023-11-02";
                  sample "food" "25" "2023-11-03"] (of_Z 3))
    as (c & rest & K & I & B & _).
  - discriminate.
  - vm_compute. reflexivity.
  - vm_compute. reflexivity.
  - exists c, rest. split; [exact K|]. split; [exact I | exact B].
Defined.

(** The "under control" insight is given only for a month on which
    [renderCategoryBreakdown] throws. *)
Lemma under_control_breakdown today month day :
  In under_control (deriveInsights today month day) ->
  renderCategoryBreakdown month = BreakdownTypeError.
Proof.
  intros I.
  destruct (deriveInsights_cases today month day)
    as [[Hm E] | [(Hm & E0 & E) | (Hm & E0 & E)]]; rewrite E in I.
  - destruct I as [I|[]]. discriminate I.
  - assert (C : categories month = []).
    { unfold rules_2_to_5, rule_highest_category in E0.
      apply app_eq_nil in E0. destruct E0 as [_ E0].
      apply app_eq_nil in E0. destruct E0 as [E0 _].
      destruct (categories month) as [|[c t] l]; [reflexivity | discriminate]. }
    unfold renderCategoryBreakdown. rewrite C.
    destruct month; [congruence | reflexivity].
  - now apply under_control_not_in_rules in I.
Qed.

(** ** Invariants of the store *)

Lemma distinct_ids_filter (keep : expense -> bool) (l : list expense) :
  NoDup (map id l) -> NoDup (map id (filter keep l)).
Proof.
  intros N. induction l as [|a l IH]; [constructor|].
  cbn [map] in N. apply NoDup_cons_iff in N. destruct N as [Ha Hl].
  cbn [filter]. destruct (keep a); [|now apply IH].
  cbn [map]. apply NoDup_cons; [|now apply IH].
  rewrite in_map_iff. intros (x & E & Hx). apply filter_In in Hx.
  apply Ha, in_map_iff. exists x. tauto.
Qed.

Lemma filter_removes_one (i : Z) (l : list expense) :
  NoDup (map id l) -> In i (map id l) ->
  S (List.length (filter (fun exp => negb (id exp =? i)) l)) = List.length l.
Proof.
  induction l as [|a l IH]; intros N I; [contradiction|].
  cbn [map] in N. inversion N as [|? ? Ha Hl]; subst. cbn [filter].
  destruct (id a =? i) eqn:E; cbn [negb List.length].
  - apply Z.eqb_eq in E. f_equal. f_equal. apply filter_all.
    apply forallb_forall. intros x Hx. apply negb_true_iff, Z.eqb_neq.
    intros Q. apply Ha. rewrite E, <- Q. now apply in_map.
  - apply Z.eqb_neq in E. f_equal. apply IH; [assumption|].
    destruct I as [I|I]; [contradiction | exact I].
Qed.

(** X10.  As long as the ids of the stored records are distinct, a
    deletion keeps them distinct and removes exactly one record when the id
    is there, and an addition keeps them distinct when the clock gives a
    number that is no id of the collection. *)
Theorem distinct_ids_are_kept st c n a cat i :
  NoDup (map id (getExpenses st)) ->
  NoDup (map id (getExpenses (deleteExpense st i)))
  /\ (In i (map id (getExpenses st)) ->
      S (List.length (getExpenses (deleteExpense st i)))
      = List.length (getExpenses st))
  /\ (~ In (now c) (map id (getExpenses st)) ->
      NoDup (map id (getExpenses (fst (addExpense st c n a cat))))).
Proof.
  intros N. rewrite getExpenses_deleteExpense. split; [|split].
  - now apply distinct_ids_filter.
  - now apply filter_removes_one.
  - intros F. rewrite getExpenses_addExpense, map_app. cbn [map].
    rewrite reloaded_id.
    change (id (snd (addExpense st c n a cat))) with (now c).
    apply NoDup_app; [exact N | repeat constructor; simpl; tauto |].
    intros x Hx [<-|[]]. contradiction.
Qed.

Lemma distinct_ids_are_kept_witness :
  NoDup (map id (getExpenses
                   (fst (addExpense None the_clock "tea" "10" "food")))).
Proof.
  destruct (distinct_ids_are_kept None the_clock "tea" "10" "food" 0)
    as (_ & _ & H).
  - constructor.
  - apply H. simpl. tauto.
Defined.

(** X11.  When every stored amount is [null] or a finite number above
    zero, this is still so after a submission, accepted or not, and after
    a deletion: through the form no zero, no negative number, no infinity
    and no NaN comes to be read from the store. *)
Theorem stored_amounts_are_kept st c n a cat i :
  forallb (fun exp => stored_amount (amount exp)) (getExpenses st) = true ->
  forallb (fun exp => stored_amount (amount exp))
          (getExpenses (fst (handleFormSubmit st c n a cat))) = true
  /\ forallb (fun exp => stored_amount (amount exp))
             (getExpenses (deleteExpense st i)) = true.
Proof.
  intros H. split.
  - unfold handleFormSubmit.
    destruct (empty n || empty a || (parseFloat a <= zero)%js) eqn:G;
      [exact H|].
    apply orb_false_elim in G. destruct G as [_ G].
    pose proof (getExpenses_addExpense st c n a cat) as E.
    destruct (addExpense st c n a cat) as [st' exp] eqn:A.
    cbn [fst snd] in *. rewrite E, forallb_app, H. cbn [forallb andb].
    rewrite andb_true_r.
    unfold addExpense in A. injection A as _ <-.
    unfold reloaded, parse_expense, stringify_expense.
    cbn [amount j_amount stringify_value].
    unfold le, SFleb in G.
    destruct (parseFloat a) as [[|]|[|]| |[|] m e]; simpl in *;
      try discriminate; reflexivity.
  - rewrite getExpenses_deleteExpense. now apply forallb_filter.
Qed.

Lemma stored_amounts_are_kept_witness :
  forallb (fun exp => stored_amount (amount exp))
          (getExpenses
             (fst (handleFormSubmit None the_clock "gold" "1e999" "other")))
  = true.
Proof.
  destruct (stored_amounts_are_kept None the_clock "gold" "1e999" "other" 0)
    as [H _]; [reflexivity | exact H].
Defined.

(** ** The calendar *)

Lemma DayFromYear_succ (y : Z) :
  DayFromYear (y + 1) = DayFromYear y + DaysInYear y.
Proof.
  unfold DayFromYear, DaysInYear.
  destruct (y mod 4 =? 0) eqn:E4; cbn [negb];
    [destruct (y mod 100 =? 0) eqn:E100; cbn [negb];
     [destruct (y mod 400 =? 0) eqn:E400; cbn [negb]|]|];
    rewrite ?Z.eqb_eq, ?Z.eqb_neq in *;
    Z.div_mod_to_equations; lia.
Qed.

Lemma DaysInYear_cases (y : Z) : DaysInYear y = 365 \/ DaysInYear y = 366.
Proof.
  unfold DaysInYear.
  destruct (y mod 4 =? 0), (y mod 100 =? 0), (y mod 400 =? 0); simpl; auto.
Qed.

Lemma DayFromYear_mono (y y' : Z) :
  y < y' -> DayFromYear (y + 1) <= DayFromYear y'.
Proof.
  intros H. unfold DayFromYear. Z.div_mod_to_equations. lia.
Qed.

Lemma YearFromTime_bounds (t : Z) :
  DayFromYear (YearFromTime t) <= Day t < DayFromYear (YearFromTime t + 1).
Proof.
  unfold YearFromTime. set (d := Day t).
  set (y := 1970 + d * 400 / 146097).
  assert (B : DayFromYear (y - 1) <= d < DayFromYear (y + 2)).
  { subst y. unfold DayFromYear. Z.div_mod_to_equations. lia. }
  destruct (d <? DayFromYear y) eqn:L; [apply Z.ltb_lt in L | apply Z.ltb_ge in L].
  - replace (y - 1 + 1) with y by lia. lia.
  - destruct (DayFromYear (y + 1) <=? d) eqn:G;
      [apply Z.leb_le in G | apply Z.leb_gt in G].
    + replace (y + 1 + 1) with (y + 2) by lia. lia.
    + lia.
Qed.

Lemma YearFromTime_unique (t y : Z) :
  DayFromYear y <= Day t < DayFromYear (y + 1) -> YearFromTime t = y.
Proof.
  intros H. pose proof (YearFromTime_bounds t) as B.
  destruct (Z.lt_trichotomy (YearFromTime t) y) as [L|[E|L]]; [|exact E|].
  - apply DayFromYear_mono in L. lia.
  - apply DayFromYear_mono in L. lia.
Qed.

(** [YearFromTime t] is the largest [y] with [TimeFromYear y <= t]. *)
Lemma YearFromTime_largest (t : Z) :
  TimeFromYear (YearFromTime t) <= t
  /\ forall y, TimeFromYear y <= t -> y <= YearFromTime t.
Proof.
  pose proof (YearFromTime_bounds t) as B. unfold TimeFromYear, Day in *.
  unfold msPerDay in *. split.
  - Z.div_mod_to_equations. lia.
  - intros y H.
    destruct (Z.le_gt_cases y (YearFromTime t)) as [L|L]; [exact L|].
    apply DayFromYear_mono in L.
    Z.div_mod_to_equations. lia.
Qed.

Lemma DayWithinYear_bounds (t : Z) :
  0 <= DayWithinYear t < DaysInYear (YearFromTime t).
Proof.
  pose proof (YearFromTime_bounds t) as B.
  rewrite DayFromYear_succ in B. unfold DayWithinYear. lia.
Qed.

Lemma InLeapYear_cases (t : Z) :
  (InLeapYear t = 0 /\ DaysInYear (YearFromTime t) = 365)
  \/ (InLeapYear t = 1 /\ DaysInYear (YearFromTime t) = 366).
Proof.
  unfold InLeapYear.
  destruct (DaysInYear_cases (YearFromTime t)) as [E|E]; rewrite E; auto.
Qed.

Ltac split_ltb :=
  repeat match goal with
         | |- context [?a <? ?b] =>
             let L := fresh "L" in
             destruct (a <? b) eqn:L;
             [apply Z.ltb_lt in L | apply Z.ltb_ge in L]
         end.

Ltac close_sums :=
  repeat match goal with
         | |- context [Z.pos ?p + 1] =>
             let v := eval cbv in (Z.pos p + 1) in
             change (Z.pos p + 1) with v
         | |- context [0 + 1] => change (0 + 1) with 1
         end.

(** The month and the day of the month are those of the day within the
    year. *)
Lemma month_and_date (t : Z) :
  0 <= MonthFromTime t <= 11
  /\ 1 <= DateFromTime t <= days_in_month (YearFromTime t) (MonthFromTime t + 1)
  /\ month_start (MonthFromTime t) (InLeapYear t) + DateFromTime t - 1
     = DayWithinYear t.
Proof.
  pose proof (DayWithinYear_bounds t) as B.
  unfold DateFromTime, MonthFromTime, days_in_month.
  destruct (InLeapYear_cases t) as [[-> E]|[-> E]]; rewrite E in *;
    change (365 =? 365) with true; change (366 =? 365) with false;
    split_ltb; cbv beta iota; close_sums; unfold month_start;
    cbv beta iota; lia.
Qed.

Lemma MakeDay_of_time (t : Z) :
  MakeDay (YearFromTime t) (MonthFromTime t) (DateFromTime t) = Day t.
Proof.
  destruct (month_and_date t) as (M & _ & E).
  unfold MakeDay.
  rewrite (Z.div_small (MonthFromTime t) 12), (Z.mod_small (MonthFromTime t) 12)
    by lia.
  rewrite Z.add_0_r. fold (InLeapYear t). unfold DayWithinYear in E. lia.
Qed.

(** The years of the time values a [Date] can hold. *)
Lemma YearFromTime_range (t : Z) :
  Z.abs t <= 8640000000000000 -> -271821 <= YearFromTime t <= 275760.
Proof.
  intros H. pose proof (YearFromTime_bounds t) as B.
  rewrite DayFromYear_succ in B.
  assert (D : -100000000 <= Day t <= 100000000).
  { unfold Day, msPerDay. Z.div_mod_to_equations. lia. }
  destruct (DaysInYear_cases (YearFromTime t)) as [E|E]; rewrite E in B;
    unfold DayFromYear in B; Z.div_mod_to_equations; lia.
Qed.

(** ** Digits *)

Lemma digit_of_digit_char (d : Z) :
  0 <= d <= 9 -> digit (digit_char d) = Some d.
Proof.
  intros H.
  assert (C : d = 0 \/ d = 1 \/ d = 2 \/ d = 3 \/ d = 4 \/ d = 5 \/ d = 6
              \/ d = 7 \/ d = 8 \/ d = 9) by lia.
  repeat (destruct C as [->|C]; [reflexivity|]). now subst.
Qed.

Lemma digit_char_not (c : ascii) (d : Z) :
  0 <= d <= 9 -> digit c = None -> Ascii.eqb (digit_char d) c = false.
Proof.
  intros H N. destruct (Ascii.eqb (digit_char d) c) eqn:E; [|reflexivity].
  apply Ascii.eqb_eq in E. subst c.
  rewrite digit_of_digit_char in N by assumption. discriminate.
Qed.

Lemma fixed_digits_snoc (k : nat) (acc : Z) (s : list ascii) :
  fixed_digits (S k) acc s =
  match fixed_digits k acc s with
  | Some (a, r) => fixed_digits 1 a r
  | None => None
  end.
Proof.
  revert acc s. induction k as [|k IH]; intros acc s.
  - cbn [fixed_digits]. destruct s as [|c s]; [reflexivity|].
    now destruct (digit c).
  - destruct s as [|c s]; [reflexivity|].
    change (fixed_digits (S (S k)) acc (c :: s))
      with (match digit c with
            | Some d => fixed_digits (S k) (10 * acc + d) s
            | None => None
            end).
    change (fixed_digits (S k) acc (c :: s))
      with (match digit c with
            | Some d => fixed_digits k (10 * acc + d) s
            | None => None
            end).
    destruct (digit c) as [d|]; [|reflexivity].
    apply IH.
Qed.

Lemma fixed_digits_padded (k : nat) (acc n : Z) (rest : list ascii) :
  0 <= n < 10 ^ Z.of_nat k ->
  fixed_digits k acc (padded k n ++ rest)
  = Some (acc * 10 ^ Z.of_nat k + n, rest).
Proof.
  revert n rest. induction k as [|k IH]; intros n rest H.
  - cbn. f_equal. f_equal. change (10 ^ 0) with 1 in H. lia.
  - rewrite Nat2Z.inj_succ, Z.pow_succ_r in * by lia.
    rewrite fixed_digits_snoc. cbn [padded]. rewrite <- app_assoc.
    rewrite IH by (Z.div_mod_to_equations; lia).
    cbn [app fixed_digits].
    rewrite digit_of_digit_char by (Z.div_mod_to_equations; lia).
    f_equal. f_equal. Z.div_mod_to_equations. lia.
Qed.

Lemma padded_head (k : nat) (n : Z) :
  0 <= n -> exists d s, 0 <= d <= 9 /\ padded (S k) n = digit_char d :: s.
Proof.
  revert n. induction k as [|k IH]; intros n H.
  - exists (n mod 10), []. split; [Z.div_mod_to_equations; lia | reflexivity].
  - destruct (IH (n / 10)) as (d & s & D & E);
      [Z.div_mod_to_equations; lia|].
    exists d, (s ++ [digit_char (n mod 10)]). split; [exact D|].
    change (padded (S (S k)) n)
      with (padded (S k) (n / 10) ++ [digit_char (n mod 10)]).
    now rewrite E.
Qed.

Lemma split_first_padded (c : ascii) (k : nat) (n : Z) (rest : list ascii) :
  digit c = None ->
  split_first c (padded k n ++ rest) = padded k n ++ split_first c rest.
Proof.
  intros N. revert n rest. induction k as [|k IH]; intros n rest;
    [reflexivity|].
  cbn [padded]. rewrite <- !app_assoc. rewrite IH. f_equal.
  cbn [app split_first].
  rewrite digit_char_not; [reflexivity | Z.div_mod_to_equations; lia | exact N].
Qed.

(** ** The date of a time value, written and read back *)

Lemma chars_of_list (l : list ascii) : chars (string_of_list_ascii l) = l.
Proof. apply list_ascii_of_string_of_list_ascii. Qed.

Lemma split_first_iso_year (y : Z) (rest : list ascii) :
  split_first "T" (iso_year y ++ rest) = iso_year y ++ split_first "T" rest.
Proof.
  unfold iso_year. destruct ((0 <=? y) && (y <=? 9999)).
  - now apply split_first_padded.
  - destruct (y <? 0); cbn [app split_first Ascii.eqb Bool.eqb];
      f_equal; now apply split_first_padded.
Qed.

(** [getDateString] on a valid date: the year, the month and the day of
    the month in UTC. *)
Lemma getDateString_valid (t : Z) :
  getDateString (Some t)
  = Some (string_of_list_ascii
            (iso_year (YearFromTime t)
             ++ "-"%char :: padded 2 (MonthFromTime t + 1)
             ++ "-"%char :: padded 2 (DateFromTime t))).
Proof.
  unfold getDateString, toISOString. rewrite chars_of_list. unfold iso_text.
  rewrite split_first_iso_year. do 3 f_equal.
  cbn [split_first Ascii.eqb Bool.eqb]. f_equal.
  rewrite split_first_padded by reflexivity. f_equal.
  cbn [split_first Ascii.eqb Bool.eqb]. f_equal.
  rewrite split_first_padded by reflexivity.
  cbn [split_first Ascii.eqb Bool.eqb]. reflexivity.
Qed.

Lemma iso_year_part_iso_year (y : Z) (rest : list ascii) :
  -999999 <= y <= 999999 ->
  iso_year_part (iso_year y ++ rest) = Some (y, rest).
Proof.
  intros H. unfold iso_year.
  destruct ((0 <=? y) && (y <=? 9999)) eqn:E.
  - apply andb_prop in E. destruct E as [E1 E2].
    apply Z.leb_le in E1, E2.
    destruct (padded_head 3 y E1) as (d & s & D & P).
    unfold iso_year_part. rewrite P. cbn [app].
    rewrite !digit_char_not by (assumption || reflexivity).
    change (digit_char d :: s ++ rest) with ((digit_char d :: s) ++ rest).
    rewrite <- P.
    rewrite (fixed_digits_padded 4 0 y rest) by (change (10 ^ Z.of_nat 4) with 10000; lia).
    reflexivity.
  - assert (R : y < 0 \/ 9999 < y).
    { apply andb_false_iff in E. rewrite Z.leb_gt, Z.leb_gt in E. lia. }
    destruct (y <? 0) eqn:N; [apply Z.ltb_lt in N | apply Z.ltb_ge in N].
    + cbn [app iso_year_part Ascii.eqb Bool.eqb].
      rewrite (fixed_digits_padded 6 0 (Z.abs y) rest)
        by (change (10 ^ Z.of_nat 6) with 1000000; lia).
      change (0 * 10 ^ Z.of_nat 6) with 0.
      destruct (0 + Z.abs y =? 0) eqn:Z0;
        [apply Z.eqb_eq in Z0; lia|].
      f_equal. f_equal. lia.
    + cbn [app iso_year_part Ascii.eqb Bool.eqb].
      rewrite (fixed_digits_padded 6 0 (Z.abs y) rest)
        by (change (10 ^ Z.of_nat 6) with 1000000; lia).
      f_equal. f_equal. change (0 * 10 ^ Z.of_nat 6) with 0. lia.
Qed.

Lemma iso_field_padded (n : Z) (rest : list ascii) :
  0 <= n < 100 ->
  iso_field ("-"%char :: padded 2 n ++ rest) = Some (n, rest).
Proof.
  intros H. cbn [iso_field Ascii.eqb Bool.eqb].
  rewrite (fixed_digits_padded 2 0 n rest)
    by (change (10 ^ Z.of_nat 2) with 100; lia).
  reflexivity.
Qed.

Lemma iso_date_of_date (y m d : Z) :
  -999999 <= y <= 999999 -> 0 <= m < 100 -> 0 <= d < 100 ->
  iso_date (iso_year y ++ "-"%char :: padded 2 m ++ "-"%char :: padded 2 d)
  = Some (y, m, d).
Proof.
  intros Hy Hm Hd. unfold iso_date.
  rewrite iso_year_part_iso_year by assumption. cbv beta iota.
  rewrite iso_field_padded by assumption. cbv beta iota.
  rewrite <- (app_nil_r (padded 2 d)).
  rewrite iso_field_padded by assumption.
  reflexivity.
Qed.

Lemma Day_of_start (d : Z) : Day (d * msPerDay) = d.
Proof. unfold Day, msPerDay. now rewrite Z.div_mul. Qed.

Lemma Day_in_range (t : Z) :
  Z.abs t <= 8640000000000000 ->
  Z.abs (Day t * msPerDay) <= 8640000000000000.
Proof.
  unfold Day, msPerDay. intros H. Z.div_mod_to_equations. lia.
Qed.

(** The date string of a time value that a [Date] can hold is read back,
    by every host, as the start of the day of the time value. *)
Lemma new_Date_of_date_string (h : host) (t : Z) (s : string) :
  Z.abs t <= 8640000000000000 ->
  getDateString (Some t) = Some s ->
  new_Date h s = Some (Day t * msPerDay).
Proof.
  intros R E.
  assert (S : s = string_of_list_ascii
                    (iso_year (YearFromTime t)
                     ++ "-"%char :: padded 2 (MonthFromTime t + 1)
                     ++ "-"%char :: padded 2 (DateFromTime t))).
  { rewrite getDateString_valid in E. congruence. }
  rewrite S. clear S E.
  destruct (month_and_date t) as (M & D & _).
  pose proof (YearFromTime_range t R) as Y.
  assert (D' : DateFromTime t <= 31).
  { unfold days_in_month in D.
    destruct (MonthFromTime t + 1) as [|[[[|[]|]|[[]|[]|]|]|[[|[]|]|[[]|[]|]|]|]|];
      try destruct (DaysInYear (YearFromTime t) =? 365); lia. }
  unfold new_Date, Date_parse. rewrite chars_of_list.
  rewrite iso_date_of_date by lia.
  replace ((1 <=? MonthFromTime t + 1) && (MonthFromTime t + 1 <=? 12)
           && (1 <=? DateFromTime t)
           && (DateFromTime t
               <=? days_in_month (YearFromTime t) (MonthFromTime t + 1)))
    with true
    by (symmetry; rewrite !andb_true_iff, !Z.leb_le; lia).
  replace (MonthFromTime t + 1 - 1) with (MonthFromTime t) by lia.
  rewrite MakeDay_of_time. unfold MakeDate, TimeClip. rewrite Z.add_0_r.
  pose proof (Day_in_range t R) as C.
  destruct (Z.abs (Day t * msPerDay) >? 8640000000000000) eqn:G;
    [|reflexivity].
  apply Z.gtb_lt in G. lia.
Qed.

Lemma date_of_Day (t t' : Z) :
  Day t = Day t' ->
  YearFromTime t = YearFromTime t'
  /\ MonthFromTime t = MonthFromTime t'
  /\ DateFromTime t = DateFromTime t'.
Proof.
  intros E.
  assert (Y : YearFromTime t = YearFromTime t').
  { unfold YearFromTime. now rewrite E. }
  assert (W : DayWithinYear t = DayWithinYear t').
  { unfold DayWithinYear. now rewrite E, Y. }
  assert (L : InLeapYear t = InLeapYear t').
  { unfold InLeapYear. now rewrite Y. }
  assert (M : MonthFromTime t = MonthFromTime t').
  { unfold MonthFromTime. now rewrite W, L. }
  repeat split; try assumption.
  unfold DateFromTime. now rewrite M, W, L.
Qed.

Lemma getDateString_of_Day (t t' : Z) :
  Z.abs t <= 8640000000000000 -> Z.abs t' <= 8640000000000000 ->
  getDateString (Some t) = getDateString (Some t') <-> Day t = Day t'.
Proof.
  intros R R'. split.
  - intros E.
    destruct (getDateString (Some t)) as [s|] eqn:S;
      [|rewrite getDateString_valid in S; discriminate].
    symmetry in E.
    pose proof (new_Date_of_date_string utc t s R S) as P.
    pose proof (new_Date_of_date_string utc t' s R' E) as P'.
    rewrite P in P'. injection P' as P'. unfold msPerDay in P'. lia.
  - intros E. rewrite !getDateString_valid.
    destruct (date_of_Day t t' E) as (-> & -> & ->). reflexivity.
Qed.

(** ** Today's expenses *)

Lemma filter_throwing_total {A : Type} (f : A -> option bool)
    (g : A -> bool) (l : list A) :
  (forall x, In x l -> f x = Some (g x)) ->
  filter_throwing f l = Some (filter g l).
Proof.
  induction l as [|a l IH]; intros H; [reflexivity|].
  cbn [filter_throwing filter]. rewrite (H a) by now left.
  rewrite IH by (intros x Hx; apply H; now right).
  reflexivity.
Qed.

Lemma filter_throwing_throws {A : Type} (f : A -> option bool) (l : list A)
    (a : A) :
  In a l -> f a = None -> filter_throwing f l = None.
Proof.
  induction l as [|b l IH]; intros I N; [contradiction|].
  cbn [filter_throwing]. destruct I as [->|I].
  - now rewrite N.
  - destruct (f b); [|reflexivity]. now rewrite IH.
Qed.

Lemma isSameDay_written (h : host) (t now : Z) (s : string) :
  Z.abs t <= 8640000000000000 ->
  getDateString (Some t) = Some s ->
  isSameDay (new_Date h s) (Some now)
  = match getDateString (Some now) with
    | Some today => Some (String.eqb s today)
    | None => None
    end.
Proof.
  intros R E. rewrite (new_Date_of_date_string h t s R E).
  unfold isSameDay.
  assert (S : getDateString (Some (Day t * msPerDay)) = Some s).
  { rewrite <- E. apply getDateString_of_Day.
    - now apply Day_in_range.
    - exact R.
    - apply Day_of_start. }
  now rewrite S.
Qed.

(** X12.  Two valid dates are the same day for [isSameDay] exactly when
    their time values fall on the same day of UTC; with an invalid date the
    call throws. *)
Theorem isSameDay_same_utc_day :
  (forall t1 t2,
      Z.abs t1 <= 8640000000000000 -> Z.abs t2 <= 8640000000000000 ->
      isSameDay (Some t1) (Some t2) = Some (Day t1 =? Day t2))
  /\ (forall date, isSameDay None date = None)
  /\ (forall date, isSameDay date None = None).
Proof.
  split; [|split].
  - intros t1 t2 R1 R2. unfold isSameDay.
    pose proof (getDateString_of_Day t1 t2 R1 R2) as I.
    destruct (getDateString (Some t1)) as [s1|] eqn:S1;
      [|rewrite getDateString_valid in S1; discriminate].
    destruct (getDateString (Some t2)) as [s2|] eqn:S2;
      [|rewrite getDateString_valid in S2; discriminate].
    f_equal. destruct (Day t1 =? Day t2) eqn:D.
    + apply Z.eqb_eq in D. apply I in D. injection D as ->.
      apply String.eqb_refl.
    + apply Z.eqb_neq in D. apply String.eqb_neq. intros ->.
      apply D, I. reflexivity.
  - reflexivity.
  - intros [t|]; reflexivity.
Qed.

Lemma todays_filter (h : host) (l : list expense) (now : Z) (today : string) :
  getDateString (Some now) = Some today ->
  (forall exp, In exp l ->
     exists t, Z.abs t <= 8640000000000000
               /\ getDateString (Some t) = Some (date exp)) ->
  filter_throwing
    (fun exp => isSameDay (new_Date h (date exp)) (Some now)) l
  = Some (filter (fun exp => String.eqb (date exp) today) l).
Proof.
  intros T W. apply filter_throwing_total.
  intros exp Hexp. destruct (W exp Hexp) as (t & R & E).
  rewrite (isSameDay_written h t now (date exp) R E). now rewrite T.
Qed.

(** X13.  When every stored record carries a date that [getDateString]
    wrote, [getTodayExpenses] returns the records whose date is the date
    string of the present instant, in the order of the store. *)
Theorem getTodayExpenses_by_date_string (h : host) (st : Storage) (now : Z) :
  (forall exp, In exp (getExpenses st) ->
     exists t, Z.abs t <= 8640000000000000
               /\ getDateString (Some t) = Some (date exp)) ->
  exists today,
    getDateString (Some now) = Some today
    /\ getTodayExpenses h st now
       = Some (filter (fun exp => String.eqb (date exp) today)
                      (getExpenses st)).
Proof.
  intros W.
  destruct (getDateString (Some now)) as [today|] eqn:T;
    [|rewrite getDateString_valid in T; discriminate].
  exists today. split; [reflexivity|].
  now apply todays_filter.
Qed.

Lemma getTodayExpenses_by_date_string_witness :
  exists today,
    getDateString (Some 1700000000000) = Some today
    /\ getTodayExpenses utc
         (saveExpenses [sample "food" "100" "2023-11-14";
                        sample "travel" "50" "2023-11-13"]) 1700000000000
       = Some (filter (fun exp => String.eqb (date exp) today)
                 (getExpenses
                    (saveExpenses [sample "food" "100" "2023-11-14";
                                   sample "travel" "50" "2023-11-13"]))).
Proof.
  apply (getTodayExpenses_by_date_string utc
           (saveExpenses [sample "food" "100" "2023-11-14";
                          sample "travel" "50" "2023-11-13"]) 1700000000000).
  intros exp [<-|[<-|[]]].
  - exists 1700000000000. split; [vm_compute; discriminate | vm_compute; reflexivity].
  - exists 1699900000000. split; [vm_compute; discriminate | vm_compute; reflexivity].
Defined.

Lemma filter_throwing_None {A : Type} (f : A -> option bool) (l : list A) :
  filter_throwing f l = None <-> exists a, In a l /\ f a = None.
Proof.
  split.
  - induction l as [|b l IH]; [discriminate|]. cbn [filter_throwing].
    destruct (f b) as [r|] eqn:F.
    + destruct (filter_throwing f l); [discriminate|]. intros _.
      destruct (IH eq_refl) as (a & I & N). exists a. split; [now right | exact N].
    + intros _. exists b. split; [now left | exact F].
  - intros (a & I & N). now apply (filter_throwing_throws f l a).
Qed.

Lemma getTodayExpenses_None (h : host) (st : Storage) (now : Z) :
  getTodayExpenses h st now = None
  <-> existsb (fun exp => match new_Date h (date exp) with
                          | None => true
                          | Some _ => false
                          end) (getExpenses st) = true.
Proof.
  unfold getTodayExpenses. cbv zeta.
  rewrite filter_throwing_None, existsb_exists.
  split; intros (exp & I & N); exists exp; (split; [exact I|]).
  - destruct (new_Date h (date exp)) as [tv|]; [|reflexivity].
    unfold isSameDay in N. rewrite !getDateString_valid in N. discriminate N.
  - destruct (new_Date h (date exp)) as [tv|]; [discriminate N | reflexivity].
Qed.

(** X14.  [getTodayExpenses] throws exactly when some stored record has
    a date that [new Date] reads as no valid date, whatever the other
    records are. *)
Theorem getTodayExpenses_throws (h : host) (st : Storage) (now : Z) :
  getTodayExpenses h st now = None
  <-> exists exp, In exp (getExpenses st) /\ new_Date h (date exp) = None.
Proof.
  rewrite getTodayExpenses_None, existsb_exists.
  split; intros (exp & I & N); exists exp; (split; [exact I|]);
    destruct (new_Date h (date exp)); congruence.
Qed.

Lemma getTodayExpenses_throws_witness :
  getTodayExpenses utc
    (saveExpenses [sample "food" "100" "2023-11-14";
                   sample "food" "100" "yesterday"]) 1700000000000
  = None.
Proof.
  apply (getTodayExpenses_throws utc
           (saveExpenses [sample "food" "100" "2023-11-14";
                          sample "food" "100" "yesterday"]) 1700000000000).
  exists (reloaded (sample "food" "100" "yesterday")). split.
  - vm_compute. right. left. reflexivity.
  - vm_compute. reflexivity.
Defined.

(** X15.  After a submission that was accepted, the record added is the
    last of today's expenses as long as the present instant is on the day
    of UTC on which the record was dated, and is not among them on any
    other day; the records listed before are listed as before. *)
Theorem submitted_expense_is_listed_today (h : host) (st : Storage)
    (c : clock) (n a cat : string) (t now : Z) (st' : Storage)
    (exp : expense) :
  Z.abs t <= 8640000000000000 -> Z.abs now <= 8640000000000000 ->
  getDateString (Some t) = Some (today c) ->
  (forall e, In e (getExpenses st) ->
     exists t', Z.abs t' <= 8640000000000000
                /\ getDateString (Some t') = Some (date e)) ->
  handleFormSubmit st c n a cat = (st', Added exp) ->
  exists listed,
    getTodayExpenses h st now = Some listed
    /\ getTodayExpenses h st' now
       = Some (if Day t =? Day now then listed ++ [reloaded exp]
               else listed).
Proof.
  intros R R' T W S.
  destruct (getDateString (Some now)) as [today_now|] eqn:N;
    [|rewrite getDateString_valid in N; discriminate].
  exists (filter (fun e => String.eqb (date e) today_now) (getExpenses st)).
  split; [now apply todays_filter|].
  assert (A : st' = fst (addExpense st c n a cat)
              /\ exp = snd (addExpense st c n a cat)).
  { unfold handleFormSubmit in S.
    destruct (empty n || empty a || (parseFloat a <= zero)%js);
      [discriminate S|].
    destruct (addExpense st c n a cat) as [st0 exp0].
    injection S as <- <-. now split. }
  destruct A as [-> ->].
  unfold getTodayExpenses. cbv zeta.
  rewrite getExpenses_addExpense.
  set (exp := snd (addExpense st c n a cat)).
  assert (D : date (reloaded exp) = today c) by reflexivity.
  rewrite (todays_filter h _ now today_now N).
  - f_equal. rewrite filter_app. cbn [filter]. rewrite D.
    assert (B : String.eqb (today c) today_now = (Day t =? Day now)).
    { pose proof (getDateString_of_Day t now R R') as I. rewrite T, N in I.
      destruct (Day t =? Day now) eqn:E.
      - apply Z.eqb_eq in E. apply I in E. injection E as ->.
        apply String.eqb_refl.
      - apply Z.eqb_neq in E. apply String.eqb_neq. intros Q.
        apply E, I. now rewrite Q. }
    rewrite B. destruct (Day t =? Day now); [reflexivity | apply app_nil_r].
  - intros e He. apply in_app_iff in He. destruct He as [He|[<-|[]]].
    + now apply W.
    + exists t. split; [exact R|]. now rewrite D.
Qed.

Lemma submitted_expense_is_listed_today_witness :
  exists listed,
    getTodayExpenses utc None 1700000000000 = Some listed
    /\ getTodayExpenses utc (fst (addExpense None the_clock "tea" "12" "food"))
         1700000000000
       = Some (if Day 1700000000000 =? Day 1700000000000
               then listed
                    ++ [reloaded
                          (snd (addExpense None the_clock "tea" "12" "food"))]
               else listed).
Proof.
  apply (submitted_expense_is_listed_today utc None the_clock
           "tea" "12" "food" 1700000000000 1700000000000).
  - vm_compute. discriminate.
  - vm_compute. discriminate.
  - vm_compute. reflexivity.
  - intros e [].
  - vm_compute. reflexivity.
Defined.

(** ** The month of a date *)

Lemma to_int_proper (n : Z) :
  Z.to_int n <> Decimal.Pos Decimal.Nil /\ Z.to_int n <> Decimal.Neg Decimal.Nil.
Proof.
  destruct n as [|p|p]; cbn; split; try discriminate;
    intros [= E]; now apply (Unsigned.to_uint_nonnil p).
Qed.

Lemma int_of_integer_text (n : Z) :
  NilZero.int_of_string (integer_text n) = Some (Z.to_int n).
Proof.
  destruct (to_int_proper n) as [P N]. now apply NilZero.isi.
Qed.

Lemma integer_text_inj (a b : Z) : integer_text a = integer_text b -> a = b.
Proof.
  intros E. apply (f_equal NilZero.int_of_string) in E.
  rewrite !int_of_integer_text in E. injection E as E.
  now apply DecimalZ.to_int_inj.
Qed.

Lemma append_inj_same_length (c p s t : string) :
  String.length s = String.length t ->
  (c ++ s)%string = (p ++ t)%string -> c = p /\ s = t.
Proof.
  revert p. induction c as [|a c IH]; intros p L E.
  - destruct p as [|b p]; [now split|]. exfalso.
    apply (f_equal String.length) in E. cbn [append] in E.
    change (String.length (String b (p ++ t)))
      with (S (String.length (p ++ t))) in E.
    rewrite length_append in E. lia.
  - destruct p as [|b p].
    + exfalso. apply (f_equal String.length) in E. cbn [append] in E.
      change (String.length (String a (c ++ s)))
        with (S (String.length (c ++ s))) in E.
      rewrite length_append in E. lia.
    + cbn [append] in E. injection E as -> E.
      destruct (IH p L E) as [-> ->]. now split.
Qed.

Lemma month_text_cases (m : Z) :
  0 <= m <= 11 ->
  In (m, padStart (number_text (Some (m + 1))) 2 "0")
     [(0, "01"); (1, "02"); (2, "03"); (3, "04"); (4, "05"); (5, "06");
      (6, "07"); (7, "08"); (8, "09"); (9, "10"); (10, "11");
      (11, "12")]%string.
Proof.
  intros H.
  assert (C : m = 0 \/ m = 1 \/ m = 2 \/ m = 3 \/ m = 4 \/ m = 5 \/ m = 6
              \/ m = 7 \/ m = 8 \/ m = 9 \/ m = 10 \/ m = 11) by lia.
  repeat (destruct C as [->|C]; [vm_compute; tauto|]).
  subst m. vm_compute. tauto.
Qed.

Lemma month_text_inj (m m' : Z) :
  0 <= m <= 11 -> 0 <= m' <= 11 ->
  padStart (number_text (Some (m + 1))) 2 "0"
  = padStart (number_text (Some (m' + 1))) 2 "0" ->
  m = m'.
Proof.
  intros H H' E.
  pose proof (month_text_cases m H) as C.
  pose proof (month_text_cases m' H') as C'.
  rewrite E in C.
  set (s := padStart (number_text (Some (m' + 1))) 2 "0") in *.
  clearbody s. clear E.
  cbn [In] in C, C'.
  repeat (destruct C as [C|C];
          [injection C as <- <-;
           repeat (destruct C' as [C'|C']; [congruence|]); contradiction|]).
  destruct C.
Qed.

Lemma month_text_length (m : Z) :
  0 <= m <= 11 ->
  String.length (padStart (number_text (Some (m + 1))) 2 "0") = 2%nat.
Proof.
  intros H. pose proof (month_text_cases m H) as C.
  cbn [In number_text] in *.
  repeat (destruct C as [C|C];
          [injection C as E1 E2; rewrite <- E2; reflexivity|]).
  destruct C.
Qed.

Lemma getMonthString_inj (h : host) (t t' : Z) :
  getMonthString h (Some t) = getMonthString h (Some t')
  <-> YearFromTime (LocalTime h t) = YearFromTime (LocalTime h t')
      /\ MonthFromTime (LocalTime h t) = MonthFromTime (LocalTime h t').
Proof.
  unfold getMonthString, getFullYear, getMonth. cbv zeta.
  destruct (month_and_date (LocalTime h t)) as (M & _).
  destruct (month_and_date (LocalTime h t')) as (M' & _).
  split.
  - intros E. apply append_inj_same_length in E.
    + destruct E as [Y E]. cbn [number_text] in Y.
      apply integer_text_inj in Y. split; [exact Y|].
      cbn [append] in E. injection E as E.
      now apply month_text_inj.
    + cbn [append String.length].
      now rewrite !month_text_length.
  - intros [-> ->]. reflexivity.
Qed.

Lemma getMonthString_invalid (h : host) (t : Z) :
  getMonthString h None <> getMonthString h (Some t).
Proof.
  unfold getMonthString, getFullYear, getMonth. cbv zeta.
  destruct (month_and_date (LocalTime h t)) as (M & _).
  change (number_text None ++ "-" ++ padStart (number_text None) 2 "0")%string
    with ("NaN-" ++ "NaN")%string.
  intros E. apply append_inj_same_length in E.
  - destruct E as [_ E]. discriminate E.
  - cbn [append String.length]. now rewrite month_text_length.
Qed.

(** X16.  [isCurrentMonth] holds of a date string exactly when the string
    is read as a valid date whose year and month in local time are those of
    the present instant in local time. *)
Theorem isCurrentMonth_local_month (h : host) (now : Z) (dateStr : string) :
  isCurrentMonth h now dateStr = true
  <-> exists tv,
        new_Date h dateStr = Some tv
        /\ YearFromTime (LocalTime h tv) = YearFromTime (LocalTime h now)
        /\ MonthFromTime (LocalTime h tv) = MonthFromTime (LocalTime h now).
Proof.
  unfold isCurrentMonth. cbv zeta. rewrite String.eqb_eq.
  destruct (new_Date h dateStr) as [tv|].
  - rewrite getMonthString_inj. split.
    + intros H. now exists tv.
    + intros (tv' & [= <-] & H). exact H.
  - split.
    + intros E. now apply getMonthString_invalid in E.
    + intros (tv & E & _). discriminate E.
Qed.

(** X17.  The date string of a valid date is read back by [new Date], on
    every host, as the start of that day in UTC, and is written again as
    the same string. *)
Theorem date_string_round_trip (h : host) (t : Z) :
  Z.abs t <= 8640000000000000 ->
  exists s,
    getDateString (Some t) = Some s
    /\ new_Date h s = Some (Day t * msPerDay)
    /\ getDateString (new_Date h s) = Some s.
Proof.
  intros R.
  destruct (getDateString (Some t)) as [s|] eqn:S;
    [|rewrite getDateString_valid in S; discriminate].
  exists s. split; [reflexivity|].
  rewrite (new_Date_of_date_string h t s R S). split; [reflexivity|].
  rewrite <- S. apply getDateString_of_Day.
  - now apply Day_in_range.
  - exact R.
  - apply Day_of_start.
Qed.

Lemma date_string_round_trip_witness :
  exists s,
    getDateString (Some 1700000000000) = Some s
    /\ new_Date utc s = Some (Day 1700000000000 * msPerDay)
    /\ getDateString (new_Date utc s) = Some s.
Proof.
  apply (date_string_round_trip utc 1700000000000).
  vm_compute. discriminate.
Defined.

Lemma Day_shift (d r : Z) :
  0 <= r < msPerDay -> Day (d * msPerDay + r) = d.
Proof.
  unfold Day, msPerDay. intros H. Z.div_mod_to_equations. lia.
Qed.

(** The day before, within one month, has the day of the month before. *)
Lemma previous_day (u t : Z) :
  Day u = Day t - 1 ->
  YearFromTime u = YearFromTime t ->
  MonthFromTime u = MonthFromTime t ->
  DateFromTime u = DateFromTime t - 1.
Proof.
  intros D Y M.
  destruct (month_and_date u) as (_ & _ & Eu).
  destruct (month_and_date t) as (_ & _ & Et).
  assert (L : InLeapYear u = InLeapYear t).
  { unfold InLeapYear. now rewrite Y. }
  unfold DayWithinYear in *. rewrite M, L, Y, D in Eu. lia.
Qed.

(** X18.  On a host whose local time is UTC or ahead of it by less than a
    day, a record whose date [getDateString] wrote is among the expenses of
    the current month exactly when the year and the month of that date are
    those of the present instant in local time. *)
Theorem getCurrentMonthExpenses_east_of_utc (h : host) (st : Storage)
    (now k : Z) (exp : expense) (t : Z) :
  (forall u, LocalTZA h u = k) -> 0 <= k < msPerDay ->
  Z.abs t <= 8640000000000000 ->
  getDateString (Some t) = Some (date exp) ->
  In exp (getCurrentMonthExpenses h st now)
  <-> In exp (getExpenses st)
      /\ YearFromTime t = YearFromTime (now + k)
      /\ MonthFromTime t = MonthFromTime (now + k).
Proof.
  intros Hk K R E. unfold getCurrentMonthExpenses. cbv zeta.
  rewrite filter_In. unfold isCurrentMonth. cbv zeta.
  rewrite (new_Date_of_date_string h t (date exp) R E).
  rewrite String.eqb_eq, getMonthString_inj. unfold LocalTime.
  rewrite !Hk.
  destruct (date_of_Day (Day t * msPerDay + k) t) as (-> & -> & _);
    [now apply Day_shift|].
  tauto.
Qed.

Lemma getCurrentMonthExpenses_east_of_utc_witness :
  In (reloaded (sample "food" "100" "2023-11-01"))
     (getCurrentMonthExpenses utc
        (saveExpenses [sample "food" "100" "2023-11-01"]) 1700000000000).
Proof.
  apply (getCurrentMonthExpenses_east_of_utc utc
           (saveExpenses [sample "food" "100" "2023-11-01"])
           1700000000000 0 (reloaded (sample "food" "100" "2023-11-01"))
           1698800000000).
  - reflexivity.
  - vm_compute. split; [discriminate | reflexivity].
  - vm_compute. discriminate.
  - vm_compute. reflexivity.
  - vm_compute. split; [left; reflexivity | split; reflexivity].
Defined.

(** X19.  On a host whose local time is behind UTC by a day at most, a
    record dated the first day of a month is not among the expenses of
    that month: its date is read as the start of the day in UTC, which is
    the last day of the month before in local time. *)
Theorem first_of_month_west_of_utc (h : host) (now k : Z) (dateStr : string)
    (t : Z) :
  (forall u, LocalTZA h u = - k) -> 0 < k <= msPerDay ->
  Z.abs t <= 8640000000000000 ->
  getDateString (Some t) = Some dateStr ->
  DateFromTime t = 1 ->
  YearFromTime (LocalTime h now) = YearFromTime t ->
  MonthFromTime (LocalTime h now) = MonthFromTime t ->
  isCurrentMonth h now dateStr = false.
Proof.
  intros Hk K R E D1 Y M.
  destruct (isCurrentMonth h now dateStr) eqn:C; [exfalso | reflexivity].
  unfold isCurrentMonth in C. cbv zeta in C.
  rewrite (new_Date_of_date_string h t dateStr R E) in C.
  rewrite String.eqb_eq, getMonthString_inj in C.
  destruct C as [Y' M']. rewrite Y in Y'. rewrite M in M'.
  set (u := LocalTime h (Day t * msPerDay)) in *.
  assert (Du : Day u = Day t - 1).
  { subst u. unfold LocalTime. rewrite Hk.
    replace (Day t * msPerDay + - k)
      with ((Day t - 1) * msPerDay + (msPerDay - k)) by lia.
    apply Day_shift. lia. }
  pose proof (previous_day u t Du Y' M') as P.
  destruct (month_and_date u) as (_ & B & _). lia.
Qed.

Lemma first_of_month_west_of_utc_witness :
  isCurrentMonth
    utc_minus_5
    1700000000000 "2023-11-01"
  = false.
Proof.
  apply (first_of_month_west_of_utc
           utc_minus_5
           1700000000000 18000000 "2023-11-01" 1698840000000).
  - reflexivity.
  - vm_compute. split; [reflexivity | discriminate].
  - vm_compute. discriminate.
  - vm_compute. reflexivity.
  - vm_compute. reflexivity.
  - vm_compute. reflexivity.
  - vm_compute. reflexivity.
Defined.

Lemma gt_zero_of_positive (x : number) :
  is_positive x = true -> (x > zero)%js = true.
Proof.
  destruct x as [s|[|]| |[|] m e]; try discriminate; reflexivity.
Qed.

(** X20.  The day of the month that [renderMonthlySummary] and
    [renderInsights] read from the clock is a whole number from 1 to 31 on
    every host, so that the test [currentDay > 0] always succeeds: the
    daily average is the total divided by the day, and the branch that
    gives 0 is never taken. *)
Theorem currentDay_is_positive (h : host) (now : Z) (total : number) :
  let currentDay := getDate h (Some now) in
  (exists d, 1 <= d <= 31 /\ currentDay = of_Z d)
  /\ (currentDay > zero)%js = true
  /\ avgDaily total currentDay = (total / currentDay)%js.
Proof.
  intros currentDay. subst currentDay. cbn [getDate].
  destruct (month_and_date (LocalTime h now)) as (_ & D & _).
  assert (D' : 1 <= DateFromTime (LocalTime h now) <= 31).
  { unfold days_in_month in D.
    destruct (MonthFromTime (LocalTime h now) + 1)
      as [|[[[|[]|]|[[]|[]|]|]|[[|[]|]|[[]|[]|]|]|]|];
      try destruct (DaysInYear (YearFromTime (LocalTime h now)) =? 365); lia. }
  assert (G : (of_Z (DateFromTime (LocalTime h now)) > zero)%js = true).
  { apply gt_zero_of_positive.
    destruct (of_Z_pos (DateFromTime (LocalTime h now))) as [P _].
    - split; [lia|]. apply Z.le_lt_trans with 31; [lia | reflexivity].
    - unfold pos_valid in P. now apply andb_prop in P. }
  split; [now exists (DateFromTime (LocalTime h now))|].
  split; [exact G|]. unfold avgDaily. now rewrite G.
Qed.

(** ** The number of days of the month *)

Lemma day_number_date (t Y w : Z) :
  Day t = DayFromYear Y + w -> 0 <= w < DaysInYear Y ->
  YearFromTime t = Y
  /\ DayWithinYear t = w
  /\ InLeapYear t = (if DaysInYear Y =? 365 then 0 else 1).
Proof.
  intros D W.
  assert (E : YearFromTime t = Y).
  { apply YearFromTime_unique. rewrite DayFromYear_succ. lia. }
  unfold DayWithinYear, InLeapYear. rewrite E. repeat split. lia.
Qed.

Lemma last_day_of_month (Y M t : Z) :
  0 <= M <= 11 -> Day t = MakeDay Y (M + 1) 0 ->
  YearFromTime t = Y
  /\ MonthFromTime t = M
  /\ DateFromTime t = days_in_month Y (M + 1).
Proof.
  intros HM D.
  set (l := if DaysInYear Y =? 365 then 0 else 1).
  assert (W : exists w, Day t = DayFromYear Y + w
                        /\ 0 <= w < DaysInYear Y
                        /\ ((M = 11 /\ w = 364 + l)
                            \/ (M <= 10 /\ w = month_start (M + 1) l - 1))).
  { unfold MakeDay in D. cbv zeta in D.
    destruct (Z.eq_dec M 11) as [->|N].
    - change ((11 + 1) / 12) with 1 in D.
      change ((11 + 1) mod 12) with 0 in D.
      cbn [month_start] in D. rewrite DayFromYear_succ in D.
      exists (364 + l). subst l.
      destruct (DaysInYear_cases Y) as [E|E]; rewrite E in *;
        [change (365 =? 365) with true | change (366 =? 365) with false];
        (split; [lia | split; [lia | left; split; reflexivity]]).
    - rewrite (Z.div_small (M + 1) 12), (Z.mod_small (M + 1) 12) in D by lia.
      rewrite !Z.add_0_r in D. fold l in D.
      exists (month_start (M + 1) l - 1).
      split; [lia|]. split; [|right; split; [lia | reflexivity]].
      assert (C : M = 0 \/ M = 1 \/ M = 2 \/ M = 3 \/ M = 4 \/ M = 5 \/ M = 6
                  \/ M = 7 \/ M = 8 \/ M = 9 \/ M = 10) by lia.
      subst l.
      destruct (DaysInYear_cases Y) as [E|E]; rewrite E;
        [change (365 =? 365) with true | change (366 =? 365) with false];
        repeat (destruct C as [->|C]; [cbn; lia|]); subst M; cbn; lia. }
  destruct W as (w & Dw & Bw & C).
  destruct (day_number_date t Y w Dw Bw) as (EY & EW & EL). fold l in EL.
  split; [exact EY|].
  unfold DateFromTime, MonthFromTime, days_in_month. rewrite EW, EL.
  assert (L : (l = 0 /\ DaysInYear Y = 365) \/ (l = 1 /\ DaysInYear Y = 366)).
  { subst l. destruct (DaysInYear_cases Y) as [E|E]; rewrite E; auto. }
  assert (CM : M = 0 \/ M = 1 \/ M = 2 \/ M = 3 \/ M = 4 \/ M = 5 \/ M = 6
               \/ M = 7 \/ M = 8 \/ M = 9 \/ M = 10 \/ M = 11) by lia.
  clearbody l. clear EL EW Dw D.
  destruct L as [[-> E]|[-> E]]; rewrite E in *;
    repeat (destruct CM as [->|CM];
            [destruct C as [[C1 ->]|[C1 ->]]; try lia;
             vm_compute; split; reflexivity|]);
    subst M; destruct C as [[C1 ->]|[C1 ->]]; try lia;
    vm_compute; split; reflexivity.
Qed.

(** X21.  On a host with a fixed offset from UTC, in the years from 100
    to 275759, the number of days that [renderMonthlySummary] uses for the
    projection is the number of days of the present month in local time,
    leap years and December included; it is between 28 and 31 and not
    below the day of the month. *)
Theorem daysInMonth_of_local_month (h : host) (now k : Z) :
  (forall u, LocalTZA h u = k) -> (forall u, LocalTZA_local h u = k) ->
  Z.abs k <= msPerDay ->
  100 <= YearFromTime (now + k) <= 275759 ->
  let today := now + k in
  let days := days_in_month (YearFromTime today) (MonthFromTime today + 1) in
  daysInMonth h now = of_Z days
  /\ getDate h (Some now) = of_Z (DateFromTime today)
  /\ 28 <= days <= 31
  /\ DateFromTime today <= days.
Proof.
  intros Hk Hl K Y today days.
  destruct (month_and_date today) as (M & D & _). fold days in D.
  split; [|split; [|split]].
  - unfold daysInMonth, LocalTime. cbv zeta. rewrite Hk. fold today.
    unfold Date_of_components. cbv zeta.
    replace ((0 <=? YearFromTime today) && (YearFromTime today <=? 99))
      with false
      by (symmetry; apply andb_false_iff; right; apply Z.leb_gt;
          unfold today; lia).
    set (d := MakeDay (YearFromTime today) (MonthFromTime today + 1) 0).
    destruct (last_day_of_month (YearFromTime today) (MonthFromTime today)
                (d * msPerDay) M (Day_of_start d)) as (EY & _ & ED).
    pose proof (YearFromTime_bounds (d * msPerDay)) as B.
    rewrite EY, Day_of_start, DayFromYear_succ in B.
    assert (R : Z.abs (UTC h (MakeDate d 0)) <= 8640000000000000).
    { unfold UTC, MakeDate. rewrite Hl. unfold msPerDay in *.
      unfold today in B.
      destruct (DaysInYear_cases (YearFromTime (now + k))) as [E|E];
        rewrite E in B; unfold DayFromYear in B;
        Z.div_mod_to_equations; lia. }
    unfold TimeClip.
    destruct (Z.abs (UTC h (MakeDate d 0)) >? 8640000000000000) eqn:G;
      [apply Z.gtb_lt in G; lia|].
    cbn [getDate]. unfold LocalTime, UTC, MakeDate. rewrite Hk, Hl.
    replace (d * msPerDay + 0 - k + k) with (d * msPerDay) by lia.
    now rewrite ED.
  - cbn [getDate]. unfold LocalTime. now rewrite Hk.
  - subst days. unfold days_in_month.
    destruct (MonthFromTime today + 1)
      as [|[[[|[]|]|[[]|[]|]|]|[[|[]|]|[[]|[]|]|]|]|];
      try destruct (DaysInYear (YearFromTime today) =? 365); lia.
  - lia.
Qed.

Lemma daysInMonth_of_local_month_witness :
  daysInMonth utc_minus_5 1708000000000 = of_Z 29.
Proof.
  apply (daysInMonth_of_local_month utc_minus_5 1708000000000 (- 18000000)).
  - reflexivity.
  - reflexivity.
  - vm_compute. discriminate.
  - vm_compute. split; discriminate.
Defined.

(** ** Amounts as text *)

Lemma app_cons_to_list (u v : Decimal.uint) :
  DecimalFacts.to_list (Decimal.app u v)
  = (DecimalFacts.to_list u ++ DecimalFacts.to_list v)%list.
Proof. apply DecimalFacts.app_spec. Qed.

Lemma string_of_uint_to_list (u : Decimal.uint) :
  NilEmpty.string_of_uint u
  = string_of_list_ascii
      (map (fun d =>
              match d with
              | DecimalFacts.d0 => "0" | DecimalFacts.d1 => "1"
              | DecimalFacts.d2 => "2" | DecimalFacts.d3 => "3"
              | DecimalFacts.d4 => "4" | DecimalFacts.d5 => "5"
              | DecimalFacts.d6 => "6" | DecimalFacts.d7 => "7"
              | DecimalFacts.d8 => "8" | DecimalFacts.d9 => "9"
              end%char)
         (DecimalFacts.to_list u)).
Proof.
  induction u; cbn; [reflexivity | now rewrite IHu ..].
Qed.

Lemma string_of_list_ascii_app' (l l' : list ascii) :
  string_of_list_ascii (l ++ l')
  = (string_of_list_ascii l ++ string_of_list_ascii l')%string.
Proof.
  induction l as [|a l IH]; cbn; [reflexivity | now rewrite IH].
Qed.

Lemma string_of_uint_app (u v : Decimal.uint) :
  NilEmpty.string_of_uint (Decimal.app u v)
  = (NilEmpty.string_of_uint u ++ NilEmpty.string_of_uint v)%string.
Proof.
  rewrite !string_of_uint_to_list, app_cons_to_list, map_app.
  apply string_of_list_ascii_app'.
Qed.

Lemma to_uint_normal (p : positive) :
  Decimal.nzhead (Pos.to_uint p) = Pos.to_uint p.
Proof.
  pose proof (Unsigned.to_of (Pos.to_uint p)) as E.
  rewrite Unsigned.of_to in E. cbn [N.to_uint] in E.
  unfold Decimal.unorm in E.
  destruct (Decimal.nzhead (Pos.to_uint p)) eqn:H; try (now symmetry).
  exfalso. now apply (Unsigned.to_uint_nonzero p).
Qed.

Lemma nzhead_app_normal (u v : Decimal.uint) :
  u <> Decimal.Nil -> Decimal.nzhead u = u ->
  Decimal.unorm (Decimal.app u v) = Decimal.app u v.
Proof.
  intros N H.
  assert (A : Decimal.nzhead (Decimal.app u v) = Decimal.app u v).
  { apply DecimalFacts.to_list_inj.
    rewrite DecimalFacts.nzhead_spec, DecimalFacts.app_spec.
    pose proof (f_equal DecimalFacts.to_list H) as H'.
    rewrite DecimalFacts.nzhead_spec in H'.
    destruct u; try congruence; cbn in *;
      try reflexivity.
    exfalso. now apply (DecimalFacts.nzhead_nonzero u u). }
  unfold Decimal.unorm. rewrite A.
  destruct (Decimal.app u v) eqn:E; try reflexivity.
  exfalso. apply (f_equal DecimalFacts.to_list) in E.
  rewrite DecimalFacts.app_spec in E.
  destruct u; try congruence; discriminate E.
Qed.

Lemma to_int_hundredfold (p : positive) :
  Z.to_int (100 * Z.pos p)
  = Decimal.Pos
      (Decimal.app (Pos.to_uint p) (Decimal.D0 (Decimal.D0 Decimal.Nil))).
Proof.
  set (u := Pos.to_uint p).
  assert (V : Z.of_int
                (Decimal.Pos
                   (Decimal.app u (Decimal.D0 (Decimal.D0 Decimal.Nil))))
              = 100 * Z.pos p).
  { change (Z.of_int
              (Decimal.Pos
                 (Decimal.app u (Decimal.D0 (Decimal.D0 Decimal.Nil)))))
      with (Z.of_uint (Decimal.app u (Nat.iter 2 Decimal.D0 Decimal.Nil))).
    rewrite DecimalZ.of_uint_iter_D0. cbv [Nat.iter nat_rect].
    pose proof (DecimalZ.of_to (Z.pos p)) as E.
    change (Z.of_int (Z.to_int (Z.pos p))) with (Z.of_uint u) in E.
    rewrite E. lia. }
  rewrite <- V, DecimalZ.to_of. cbn [Decimal.norm]. f_equal.
  apply nzhead_app_normal.
  - apply Unsigned.to_uint_nonnil.
  - apply to_uint_normal.
Qed.

Lemma integer_text_hundredfold (k : Z) :
  0 < k -> integer_text (100 * k) = (integer_text k ++ "00")%string.
Proof.
  intros H. destruct k as [|p|p]; try lia. unfold integer_text.
  rewrite to_int_hundredfold.
  change (Z.to_int (Z.pos p)) with (Decimal.Pos (Pos.to_uint p)).
  cbn [NilZero.string_of_int].
  pose proof (Unsigned.to_uint_nonnil p) as N.
  set (u := Pos.to_uint p) in *.
  set (v := Decimal.D0 (Decimal.D0 Decimal.Nil)).
  assert (N' : Decimal.app u v <> Decimal.Nil).
  { intros E. apply (f_equal DecimalFacts.to_list) in E.
    rewrite DecimalFacts.app_spec in E.
    destruct u; discriminate E. }
  assert (E1 : NilZero.string_of_uint (Decimal.app u v)
               = NilEmpty.string_of_uint (Decimal.app u v)).
  { destruct (Decimal.app u v); congruence || reflexivity. }
  assert (E2 : NilZero.string_of_uint u = NilEmpty.string_of_uint u).
  { destruct u; congruence || reflexivity. }
  rewrite E1, E2, string_of_uint_app. reflexivity.
Qed.

Lemma integer_text_not_empty (n : Z) : (1 <= String.length (integer_text n))%nat.
Proof.
  unfold integer_text.
  destruct (Z.to_int n) as [u|u]; cbn [NilZero.string_of_int];
    [|cbn; lia].
  unfold NilZero.string_of_uint. destruct u; cbn; lia.
Qed.

Lemma substring_prefix (s t : string) :
  substring 0 (String.length s) (s ++ t) = s.
Proof.
  induction s as [|a s IH]; cbn.
  - now destruct t.
  - now rewrite IH.
Qed.

Lemma substring_suffix (s t : string) :
  substring (String.length s) (String.length t) (s ++ t) = t.
Proof.
  induction s as [|a s IH]; cbn; [|exact IH].
  induction t as [|b t IHt]; cbn; [reflexivity | now rewrite IHt].
Qed.

(** A whole number of hundredths that is a whole amount is written with
    [.00] behind the amount. *)
Lemma point_two_whole (k : Z) :
  0 <= k -> point_two (100 * k) = (integer_text k ++ ".00")%string.
Proof.
  intros H. destruct (Z.eq_dec k 0) as [->|N]; [reflexivity|].
  unfold point_two.
  destruct (100 * k =? 0) eqn:Z0; [apply Z.eqb_eq in Z0; lia|].
  rewrite integer_text_hundredfold by lia.
  pose proof (integer_text_not_empty k) as L.
  set (s := integer_text k) in *. cbv zeta.
  rewrite length_append. change (String.length "00") with 2%nat.
  destruct (String.length s + 2 <=? 2)%nat eqn:C;
    [apply Nat.leb_le in C; lia|].
  replace (String.length s + 2 - 2)%nat with (String.length s) by lia.
  rewrite substring_prefix.
  change 2%nat with (String.length "00") at 1.
  now rewrite substring_suffix.
Qed.

Lemma formatCurrency_of_Z (k : Z) :
  0 <= k < 2 ^ 53 ->
  formatCurrency (of_Z k) = Shown ("₹" ++ integer_text k ++ ".00").
Proof.
  intros H. destruct (Z.eq_dec k 0) as [->|N]; [reflexivity|].
  destruct (of_Z_finite k ltac:(lia)) as (m & e & -> & _ & E & M).
  unfold formatCurrency. cbn [parseFloat_number toFixed2].
  assert (P : 0 < 2 ^ (- e)) by (apply Z.pow_pos_nonneg; lia).
  assert (B : k < 10 ^ 21).
  { apply Z.lt_trans with (2 ^ 53); [lia | reflexivity]. }
  assert (A : at_least_1e21 m e = false).
  { unfold at_least_1e21. destruct (0 <=? e) eqn:S.
    - apply Z.leb_le in S. assert (e = 0) by lia. subst e.
      change (2 ^ 0) with 1. change (2 ^ (- 0)) with 1 in M.
      apply Z.leb_gt. lia.
    - apply Z.leb_gt. rewrite M.
      apply Z.mul_lt_mono_pos_r; assumption. }
  assert (R : nearest_hundredths m e = 100 * k).
  { unfold nearest_hundredths. destruct (0 <=? e) eqn:S.
    - apply Z.leb_le in S. assert (e = 0) by lia. subst e.
      change (2 ^ 0) with 1. change (2 ^ (- 0)) with 1 in M. lia.
    - apply Z.leb_gt in S.
      replace (1 - e) with (1 + - e) by lia.
      rewrite Z.pow_add_r by lia. change (2 ^ 1) with 2. rewrite M.
      set (p := 2 ^ (- e)) in *.
      replace (200 * (k * p) + p) with ((200 * k + 1) * p) by ring.
      rewrite Z.div_mul_cancel_r by lia.
      Z.div_mod_to_equations. lia. }
  rewrite A, R, point_two_whole by lia. reflexivity.
Qed.

(** X22.  A whole amount from 0 to 2^53 is displayed as the rupee sign,
    the amount in decimal digits and [.00]; the total of records with
    whole amounts whose sum is below 2^53 is displayed as that sum; what is
    no number is displayed as [NaN], and the zero with a sign as [0.00]. *)
Theorem formatCurrency_whole_amount :
  (forall k, 0 <= k < 2 ^ 53 ->
     formatCurrency (of_Z k) = Shown ("₹" ++ integer_text k ++ ".00"))
  /\ (forall l, forallb whole_amount l = true -> sum_whole l < 2 ^ 53 ->
      formatCurrency (calculateTotal l)
      = Shown ("₹" ++ integer_text (sum_whole l) ++ ".00"))
  /\ formatCurrency nan = Shown "₹NaN"
  /\ formatCurrency (S754_zero true) = Shown "₹0.00"
  /\ formatCurrency_value VNull = Shown "₹NaN".
Proof.
  split; [exact formatCurrency_of_Z|]. split; [|repeat split].
  intros l W S. rewrite (calculateTotal_whole l W S).
  apply formatCurrency_of_Z. split; [|exact S].
  clear. induction l as [|e l IH]; simpl; [lia|].
  pose proof (integer_of_nonneg (ToNumber (amount e))). lia.
Qed.

Lemma sum_whole_nonneg (l : list expense) : 0 <= sum_whole l.
Proof.
  induction l as [|e l IH]; simpl; [lia|].
  pose proof (integer_of_nonneg (ToNumber (amount e))). lia.
Qed.

Lemma sum_whole_bound (l : list expense) (e : expense) :
  In e l -> integer_of (ToNumber (amount e)) <= sum_whole l.
Proof.
  induction l as [|a l IH]; intros I; [contradiction|].
  cbn [sum_whole fold_right]. fold (sum_whole l).
  pose proof (sum_whole_nonneg l).
  pose proof (integer_of_nonneg (ToNumber (amount a))).
  destruct I as [->|I]; [lia|]. specialize (IH I). lia.
Qed.

(** X23.  With no expense of the day the ledger shows the row of the
    empty state and the total [0.00].  With whole amounts whose sum is
    below 2^53 it shows one row per expense, in order, with the amount in
    decimal digits and [.00], and the sum of the amounts as the total; a
    record whose amount is [null] is shown as [NaN] and counts for
    nothing in the total. *)
Theorem renderTodayLedger_whole_amounts (todayExpenses : list expense) :
  renderTodayLedger []
  = EmptyLedger "No expenses recorded today" (Shown "₹0.00")
  /\ (todayExpenses <> [] ->
      forallb whole_amount todayExpenses = true ->
      sum_whole todayExpenses < 2 ^ 53 ->
      renderTodayLedger todayExpenses
      = LedgerRows
          (Shown ("₹" ++ integer_text (sum_whole todayExpenses) ++ ".00"))
          (map (fun exp =>
                  (name exp, category exp,
                   match amount exp with
                   | VNum x => Shown ("₹" ++ integer_text (integer_of x) ++ ".00")
                   | VNull => Shown "₹NaN"
                   end,
                   id exp))
               todayExpenses)).
Proof.
  split; [reflexivity|]. intros N W S.
  unfold renderTodayLedger.
  destruct todayExpenses as [|e0 l0]; [congruence|].
  change (List.length (e0 :: l0) =? 0)%nat with false. cbv iota zeta.
  set (l := e0 :: l0) in *.
  rewrite (calculateTotal_whole l W S).
  rewrite formatCurrency_of_Z by (split; [apply sum_whole_nonneg | exact S]).
  f_equal. apply map_ext_in. intros exp I.
  pose proof (sum_whole_bound l exp I) as B.
  rewrite forallb_forall in W. specialize (W exp I).
  unfold whole_amount in W. apply number_eqb_eq in W.
  destruct (amount exp) as [x|]; [|reflexivity].
  cbn [ToNumber] in W, B.
  pose proof (integer_of_nonneg x) as P.
  assert (F : formatCurrency_value (VNum x) = formatCurrency x)
    by reflexivity.
  rewrite F. set (k := integer_of x) in *. clearbody k.
  rewrite W, formatCurrency_of_Z by lia. reflexivity.
Qed.

Lemma renderTodayLedger_whole_amounts_witness :
  renderTodayLedger [sample "food" "100" "2023-11-14";
                     sample "travel" "50" "2023-11-14"]
  = LedgerRows (Shown "₹150.00")
      [("item", "food", Shown "₹100.00", 1);
       ("item", "travel", Shown "₹50.00", 1)]%string.
Proof.
  destruct (renderTodayLedger_whole_amounts
              [sample "food" "100" "2023-11-14";
               sample "travel" "50" "2023-11-14"]) as [_ H].
  rewrite H.
  - vm_compute. reflexivity.
  - discriminate.
  - vm_compute. reflexivity.
  - vm_compute. reflexivity.
Defined.

(** X24.  On a day [d] of a month of [n] days: with no expense in the
    month the summary shows [0.00] for the total, the daily average and
    the projection, and no sentence; with expenses of positive amounts it
    shows the sentence of the projection, which ends with the projected
    figure and a full stop. *)
Theorem renderMonthlySummary_text_cases (monthExpenses : list expense)
    (d n : Z) :
  0 < d < 2 ^ 53 -> 0 < n < 2 ^ 53 ->
  renderMonthlySummary_text [] (of_Z d) (of_Z n)
  = {| monthTotal_text := Shown "₹0.00";
       avgDaily_text := Shown "₹0.00";
       projected_text := Shown "₹0.00";
       projectionText := Shown "" |}
  /\ (monthExpenses <> [] ->
      forallb positive_amount monthExpenses = true ->
      let t := renderMonthlySummary_text monthExpenses (of_Z d) (of_Z n) in
      projectionText t
      = append_text
          (prepend "At this rate, your estimated monthly spend is "
             (projected_text t))
          ".").
Proof.
  intros Hd Hn. split.
  - destruct (of_Z_finite d Hd) as (m & e & -> & _).
    destruct (of_Z_finite n Hn) as (m' & e' & -> & _).
    reflexivity.
  - intros N P t. subst t.
    unfold renderMonthlySummary_text. cbv zeta.
    cbn [renderMonthlySummary monthTotal projectionText projected_text].
    pose proof (calculateTotal_pos_valid monthExpenses N P) as V.
    unfold pos_valid in V. apply andb_prop in V. destruct V as [V _].
    now rewrite (gt_zero_of_positive _ V).
Qed.

Lemma renderMonthlySummary_text_cases_witness :
  projectionText
    (renderMonthlySummary_text
       [sample "food" "100" "2023-11-01"; sample "rent" "200" "2023-11-02"]
       (of_Z 3) (of_Z 30))
  = Shown "At this rate, your estimated monthly spend is ₹3000.00.".
Proof.
  destruct (renderMonthlySummary_text_cases
              [sample "food" "100" "2023-11-01";
               sample "rent" "200" "2023-11-02"] 3 30) as [_ H].
  - vm_compute. split; reflexivity.
  - vm_compute. split; reflexivity.
  - rewrite H.
    + vm_compute. reflexivity.
    + discriminate.
    + vm_compute. reflexivity.
Defined.

(** ** A whole amount, from the form to the page *)

Lemma digits_of_uint (u : Decimal.uint) (a : positive) (cnt : Z) :
  digits (Z.pos a) cnt (chars (NilEmpty.string_of_uint u))
  = (Z.pos (Pos.of_uint_acc u a), cnt + Z.of_nat (Decimal.nb_digits u), []).
Proof.
  revert a cnt.
  induction u as [|u IH|u IH|u IH|u IH|u IH|u IH|u IH|u IH|u IH|u IH];
    intros a cnt.
  1: { cbn. f_equal. f_equal. lia. }
  all: cbn [NilEmpty.string_of_uint chars list_ascii_of_string digits
            Pos.of_uint_acc Decimal.nb_digits];
    (change (digit "0") with (Some 0) || change (digit "1") with (Some 1)
     || change (digit "2") with (Some 2) || change (digit "3") with (Some 3)
     || change (digit "4") with (Some 4) || change (digit "5") with (Some 5)
     || change (digit "6") with (Some 6) || change (digit "7") with (Some 7)
     || change (digit "8") with (Some 8) || change (digit "9") with (Some 9));
    cbv iota beta;
    fold (chars (NilEmpty.string_of_uint u));
    match goal with
    | |- digits ?v _ _ = (Z.pos (Pos.of_uint_acc _ ?b), _, _) =>
        replace v with (Z.pos b) by lia
    end;
    rewrite IH; f_equal; f_equal; lia.
Qed.

(** [parseFloat] reads the decimal digits of a whole number above zero as
    the number nearest to it. *)
Lemma parseFloat_integer_text (k : Z) :
  0 < k -> parseFloat (integer_text k) = of_Z k.
Proof.
  intros H. destruct k as [|p|p]; try lia.
  unfold integer_text.
  change (Z.to_int (Z.pos p)) with (Decimal.Pos (Pos.to_uint p)).
  cbn [NilZero.string_of_int].
  pose proof (Unsigned.of_to p) as V.
  pose proof (to_uint_normal p) as Nz.
  pose proof (Unsigned.to_uint_nonnil p) as Nn.
  assert (E : NilZero.string_of_uint (Pos.to_uint p)
              = NilEmpty.string_of_uint (Pos.to_uint p)).
  { destruct (Pos.to_uint p); congruence || reflexivity. }
  rewrite E. clear E.
  assert (R : forall (c : ascii) (d : positive) (u : Decimal.uint),
             digit c = Some (Z.pos d) ->
             Pos.of_uint_acc u d = p ->
             parseFloat (String c (NilEmpty.string_of_uint u)) = of_Z (Z.pos p)).
  { intros c d u Dc Du. unfold parseFloat.
    cbn [chars list_ascii_of_string]. fold (chars (NilEmpty.string_of_uint u)).
    assert (T : trimStart (c :: chars (NilEmpty.string_of_uint u))
                = c :: chars (NilEmpty.string_of_uint u)).
    { unfold digit in Dc.
      destruct ((48 <=? N_of_ascii c)%N && (N_of_ascii c <=? 57)%N) eqn:B;
        [|discriminate Dc].
      apply andb_prop in B. destruct B as [B1 B2].
      apply N.leb_le in B1, B2.
      assert (W1 : ws1 c = false).
      { unfold ws1. cbv zeta.
        apply orb_false_intro; [apply andb_false_intro2; apply N.leb_gt; lia|].
        apply N.eqb_neq. lia. }
      assert (W2 : forall b, ws2 c b = false).
      { intros b. unfold ws2. apply andb_false_intro1, N.eqb_neq. lia. }
      assert (W3 : forall b b', ws3 c b b' = false).
      { intros b b'. unfold ws3. cbv zeta.
        replace (N_of_ascii c =? 225)%N with false
          by (symmetry; apply N.eqb_neq; lia).
        replace (N_of_ascii c =? 226)%N with false
          by (symmetry; apply N.eqb_neq; lia).
        replace (N_of_ascii c =? 227)%N with false
          by (symmetry; apply N.eqb_neq; lia).
        replace (N_of_ascii c =? 239)%N with false
          by (symmetry; apply N.eqb_neq; lia).
        reflexivity. }
      unfold trimStart. cbn [strip]. rewrite W1.
      destruct (chars (NilEmpty.string_of_uint u)) as [|b [|b' s]];
        rewrite ?W2, ?W3; reflexivity. }
    rewrite T.
    assert (S1 : Ascii.eqb c "-" = false).
    { destruct (Ascii.eqb c "-") eqn:Q; [|reflexivity].
      apply Ascii.eqb_eq in Q. subst c. discriminate Dc. }
    assert (S2 : Ascii.eqb c "+" = false).
    { destruct (Ascii.eqb c "+") eqn:Q; [|reflexivity].
      apply Ascii.eqb_eq in Q. subst c. discriminate Dc. }
    assert (S3 : Ascii.eqb "I" c = false).
    { destruct (Ascii.eqb "I" c) eqn:Q; [|reflexivity].
      apply Ascii.eqb_eq in Q. subst c. discriminate Dc. }
    rewrite S1, S2.
    cbn [chars list_ascii_of_string starts_with]. rewrite S3. cbn [andb].
    unfold unsigned_decimal. cbn [digits]. rewrite Dc.
    replace (10 * 0 + Z.pos d) with (Z.pos d) by lia.
    rewrite digits_of_uint, Du.
    destruct (0 + 1 + Z.of_nat (Decimal.nb_digits u) =? 0) eqn:Z0;
      [apply Z.eqb_eq in Z0; lia|].
    unfold of_decimal, of_Z. cbn [binary_normalize].
    change (10 ^ 0) with 1. now rewrite Z.mul_1_r. }
  destruct (Pos.to_uint p) as [|u|u|u|u|u|u|u|u|u|u] eqn:U;
    try congruence;
    try (cbn [Pos.of_uint] in V; injection V as V;
         cbn [NilEmpty.string_of_uint]; eapply R; [reflexivity | exact V]).
  exfalso. cbn [Decimal.nzhead] in Nz.
  now apply (DecimalFacts.nzhead_nonzero u u).
Qed.

(** X25.  A whole amount from 1 to 2^53, typed in decimal digits with a
    name that is not empty, is accepted; the record stored holds that
    number, is read back unchanged, and is displayed as the rupee sign,
    the digits typed and [.00]. *)
Theorem whole_amount_from_form_to_page st c n cat (k : Z) :
  0 < k < 2 ^ 53 -> n <> ""%string ->
  exists st' exp,
    handleFormSubmit st c n (integer_text k) cat = (st', Added exp)
    /\ amount exp = VNum (of_Z k)
    /\ getExpenses st' = getExpenses st ++ [exp]
    /\ formatCurrency_value (amount exp)
       = Shown ("₹" ++ integer_text k ++ ".00").
Proof.
  intros K N.
  pose proof (parseFloat_integer_text k ltac:(lia)) as P.
  destruct (of_Z_finite k K) as (m & e & F & _).
  exists (fst (addExpense st c n (integer_text k) cat)),
         (snd (addExpense st c n (integer_text k) cat)).
  split; [|split; [|split]].
  - unfold handleFormSubmit.
    replace (empty n) with false by (destruct n; [now elim N | reflexivity]).
    replace (empty (integer_text k)) with false
      by (pose proof (integer_text_not_empty k);
          destruct (integer_text k); [simpl in *; lia | reflexivity]).
    rewrite P, F. cbn [orb].
    change ((S754_finite false m e <= zero)%js) with false. cbv iota.
    now destruct (addExpense st c n (integer_text k) cat).
  - cbn [addExpense snd amount]. now rewrite P.
  - rewrite getExpenses_addExpense. f_equal. f_equal.
    apply reloaded_safe. cbn [addExpense snd amount]. now rewrite P, F.
  - cbn [addExpense snd amount]. rewrite P.
    change (formatCurrency_value (VNum (of_Z k))) with (formatCurrency (of_Z k)).
    apply formatCurrency_of_Z. lia.
Qed.

Lemma whole_amount_from_form_to_page_witness :
  exists st' exp,
    handleFormSubmit None the_clock "tea" (integer_text 150) "food"
    = (st', Added exp)
    /\ amount exp = VNum (of_Z 150)
    /\ getExpenses st' = getExpenses None ++ [exp]
    /\ formatCurrency_value (amount exp)
       = Shown ("₹" ++ integer_text 150 ++ ".00").
Proof.
  apply (whole_amount_from_form_to_page None the_clock "tea" "food" 150).
  - vm_compute. split; reflexivity.
  - discriminate.
Defined.

(** ** The fixed threshold on whole amounts *)

Lemma above_threshold_shown today month day :
  month <> [] ->
  In above_threshold (deriveInsights today month day)
  <-> (calculateTotal today > of_Z 500)%js = true.
Proof.
  intros Hm.
  assert (T : rule_above_threshold today
              = if (calculateTotal today > of_Z 500)%js
                then [above_threshold] else []) by reflexivity.
  destruct (deriveInsights_cases today month day)
    as [[Hm' _] | [(_ & E0 & E) | (_ & _ & E)]]; [congruence | |];
    rewrite E.
  - unfold rules_2_to_5 in E0.
    apply app_eq_nil in E0. destruct E0 as [_ E0].
    apply app_eq_nil in E0. destruct E0 as [_ E0].
    apply app_eq_nil in E0. destruct E0 as [_ E0].
    rewrite T in E0.
    destruct (calculateTotal today > of_Z 500)%js; [discriminate E0|].
    split; [intros [H|[]]; discriminate H | discriminate].
  - unfold rules_2_to_5. rewrite !in_app_iff, T. split.
    + intros [H | [H | [H | H]]].
      * unfold rule_above_average in H.
        destruct (_ && _); [|contradiction].
        destruct H as [H|[]]. discriminate H.
      * unfold rule_highest_category in H.
        destruct (categories month) as [|[c t] l]; [contradiction|].
        destruct H as [H|[]].
        now apply highest_category_not_above_threshold in H.
      * unfold rule_multiple_days in H.
        destruct (3 <=? _)%nat; [|contradiction].
        destruct H as [H|[]]. discriminate H.
      * destruct (calculateTotal today > of_Z 500)%js;
          [reflexivity | contradiction].
    + intros ->. right. right. right. now left.
Qed.

Lemma gt_of_Z (a b : Z) :
  0 < a < 2 ^ 53 -> 0 < b < 2 ^ 53 -> (of_Z a > of_Z b)%js = (b <? a).
Proof.
  intros Ha Hb.
  destruct (of_Z_pos a Ha) as [Va Sa]. destruct (of_Z_pos b Hb) as [Vb Sb].
  change ((of_Z a > of_Z b)%js) with ((of_Z b < of_Z a)%js).
  rewrite (lt_scaled _ _ Vb Va), Sa, Sb.
  assert (P : 0 < 2 ^ 1074) by (apply Z.pow_pos_nonneg; lia).
  set (p := 2 ^ 1074) in *. clearbody p.
  destruct (b <? a) eqn:C; [apply Z.ltb_lt in C | apply Z.ltb_ge in C].
  - apply Z.ltb_lt. now apply Z.mul_lt_mono_pos_r.
  - apply Z.ltb_ge. now apply Z.mul_le_mono_nonneg_r; [apply Z.lt_le_incl|].
Qed.

(** X26.  With whole amounts today whose sum is below 2^53, and a month
    that has expenses, the insight of the threshold is shown exactly when
    the sum of today's amounts is above 500. *)
Theorem threshold_insight_on_whole_amounts today month day :
  month <> [] ->
  forallb whole_amount today = true -> sum_whole today < 2 ^ 53 ->
  In above_threshold (deriveInsights today month day)
  <-> 500 < sum_whole today.
Proof.
  intros Hm W S. rewrite (above_threshold_shown today month day Hm).
  rewrite (calculateTotal_whole today W S).
  pose proof (sum_whole_nonneg today) as N.
  destruct (Z.eq_dec (sum_whole today) 0) as [E|E].
  - rewrite E. split; [discriminate | lia].
  - rewrite gt_of_Z by (split; [lia | assumption || reflexivity]).
    apply Z.ltb_lt.
Qed.

Lemma threshold_insight_on_whole_amounts_witness :
  In above_threshold
     (deriveInsights
        [sample "rent" "400" "2023-11-14"; sample "food" "200" "2023-11-14"]
        [sample "rent" "400" "2023-11-14"; sample "food" "200" "2023-11-14"]
        (of_Z 14)).
Proof.
  apply (threshold_insight_on_whole_amounts
           [sample "rent" "400" "2023-11-14"; sample "food" "200" "2023-11-14"]
           [sample "rent" "400" "2023-11-14"; sample "food" "200" "2023-11-14"]
           (of_Z 14)).
  - discriminate.
  - vm_compute. reflexivity.
  - vm_compute. reflexivity.
  - vm_compute. reflexivity.
Defined.

(** ** The page *)

(** X27.  What a call of [refreshUI] draws.  When a stored record has a
    date that is no valid date, the call throws a [RangeError] before
    anything is drawn.  Otherwise, when the month has expenses and all of
    them have the category [__proto__], the ledger and the summary are
    drawn and the call throws a [TypeError], leaving the breakdown and the
    insights as they were.  In every other case the four places are drawn,
    and the insights drawn never hold the "under control" insight. *)
Theorem refreshUI_outcome (h : host) (st : Storage) (now : Z) :
  let monthExpenses := getCurrentMonthExpenses h st now in
  let invalid_date :=
    existsb (fun exp => match new_Date h (date exp) with
                        | None => true
                        | Some _ => false
                        end) (getExpenses st) in
  let only_proto :=
    negb (List.length monthExpenses =? 0)%nat
    && forallb (fun exp => String.eqb (category exp) "__proto__")
               monthExpenses in
  match refreshUI h st now with
  | (drawn, Some RangeError) =>
      invalid_date = true
      /\ drawn = {| ledgerBody := None; monthSummary := None;
                    categoryBreakdown := None; insightsContainer := None |}
  | (drawn, Some TypeError) =>
      invalid_date = false /\ only_proto = true
      /\ ledgerBody drawn <> None /\ monthSummary drawn <> None
      /\ categoryBreakdown drawn = None /\ insightsContainer drawn = None
  | (drawn, None) =>
      invalid_date = false /\ only_proto = false
      /\ ledgerBody drawn <> None /\ monthSummary drawn <> None
      /\ categoryBreakdown drawn <> None
      /\ exists insights,
           insightsContainer drawn = Some insights
           /\ insights <> InsightItems [under_control]
           /\ forall l, insights = InsightItems l -> ~ In under_control l
  end.
Proof.
  intros monthExpenses invalid_date only_proto.
  pose proof (getTodayExpenses_None h st now) as G. fold invalid_date in G.
  pose proof (renderCategoryBreakdown_throws monthExpenses) as B.
  assert (P : only_proto = true
              <-> monthExpenses <> []
                  /\ forallb (fun exp => String.eqb (category exp) "__proto__")
                             monthExpenses = true).
  { subst only_proto. rewrite andb_true_iff, negb_true_iff, Nat.eqb_neq.
    destruct monthExpenses; simpl; intuition congruence. }
  rewrite <- P in B. clear P.
  unfold refreshUI, renderTodayLedger_at, renderInsights_at,
    renderCategoryBreakdown_at. cbv zeta. fold monthExpenses.
  destruct (getTodayExpenses h st now) as [todayExpenses|].
  - assert (V : invalid_date = false).
    { destruct invalid_date; [|reflexivity].
      destruct G as [_ G]. discriminate (G eq_refl). }
    destruct (renderCategoryBreakdown monthExpenses) eqn:R.
    + assert (O : only_proto = false).
      { destruct only_proto; [|reflexivity].
        destruct B as [_ B]. discriminate (B eq_refl). }
      repeat split; try assumption; try discriminate.
      eexists. split; [reflexivity|].
      assert (U : forall l,
                 renderInsights todayExpenses monthExpenses
                   (getDate h (Some now)) = InsightItems l ->
                 ~ In under_control l).
      { intros l E I.
        assert (D : In under_control
                       (deriveInsights todayExpenses monthExpenses
                          (getDate h (Some now)))).
        { unfold deriveInsights. now rewrite E. }
        apply under_control_breakdown in D. congruence. }
      split; [|exact U].
      intros E. apply (U _ E). now left.
    + assert (O : only_proto = false).
      { destruct only_proto; [|reflexivity].
        destruct B as [_ B]. discriminate (B eq_refl). }
      repeat split; try assumption; try discriminate.
      eexists. split; [reflexivity|].
      assert (U : forall l,
                 renderInsights todayExpenses monthExpenses
                   (getDate h (Some now)) = InsightItems l ->
                 ~ In under_control l).
      { intros l E I.
        assert (D : In under_control
                       (deriveInsights todayExpenses monthExpenses
                          (getDate h (Some now)))).
        { unfold deriveInsights. now rewrite E. }
        apply under_control_breakdown in D. congruence. }
      split; [|exact U].
      intros E. apply (U _ E). now left.
    + repeat split; try assumption; try discriminate.
      now apply B.
  - split; [now apply G | reflexivity].
Qed.
